(** * memory-mcp: a shallow embedding of the retrieval and lifecycle engine

    The development follows the Go packages of the repository:
    - [types]   the records exchanged between the layers (pkg/types);
    - [store]   the [Store] interface and the SQLite-backed store
                (internal/store), with SQL statements given their SQLite
                meaning over a table of rows;
    - [memory]  the service (validation, score fusion, context packs,
                promotion);
    - [mcp]     the JSON-RPC transport and dispatch loop;
    - [bootstrap] and [admin]  the command list of the CLI bootstrap and
                the text helpers of the dashboard.

    Definitions come first; the lemmas and theorems about them follow. *)

From Stdlib Require Import List ZArith NArith Lia Bool Ascii Floats.
From Stdlib Require String.
Import String.StringSyntax.
Delimit Scope string_scope with string.
From Stdlib Require Import Permutation Sorted.
Import ListNotations.
Local Open Scope Z_scope.

Set Implicit Arguments.

(** Decimal floating-point literals denote the nearest binary64 value, as
    Go's untyped constants do when they are converted to [float64]. *)
Set Warnings "-inexact-float".

(* ================================================================== *)
(** * Part I: the Go runtime pieces the code relies on                 *)
(* ================================================================== *)

(** ** Integers

    Go's [int] is a 64-bit two's complement integer on the platforms the
    program targets; arithmetic wraps around silently. *)

Definition minInt64 : Z := - 2 ^ 63.
Definition maxInt64 : Z := 2 ^ 63 - 1.

Definition wrap64 (z : Z) : Z := (z + 2 ^ 63) mod 2 ^ 64 - 2 ^ 63.

(** The largest size [make] accepts for a slice (linux/amd64); beyond
    it the runtime panics. *)
Definition maxAlloc : Z := 2 ^ 48.

(** [make([]T, 0, capacity)] panics when [capacity] elements of
    [size] bytes are more than that. *)
Definition makeslicePanics (size capacity : Z) : bool :=
  size * capacity >? maxAlloc.

Definition int_add (a b : Z) : Z := wrap64 (a + b).
Definition int_mul (a b : Z) : Z := wrap64 (a * b).

(** ** Strings

    A Go string is a byte sequence that the program reads as UTF-8.  Every
    string that reaches the service was produced by [encoding/json] or read
    back from the database, so it is valid UTF-8 and we keep it as the
    sequence of its code points: [len([]rune(s))] is [length s]. *)

Definition rune := N.
Definition gostring := list rune.

(** A literal, as written in the source. *)
Definition str (s : String.string) : gostring :=
  map N_of_ascii (String.list_ascii_of_string s).
Arguments str s%_string.

Fixpoint gostring_eqb (a b : gostring) : bool :=
  match a, b with
  | [], [] => true
  | x :: a', y :: b' => N.eqb x y && gostring_eqb a' b'
  | _, _ => false
  end.

(** [len(s) == 0], for strings and slices alike *)
Definition isEmpty {A : Type} (s : list A) : bool :=
  match s with [] => true | _ => false end.

(** [len(s)] of a rune slice, as a Go [int]. *)
Definition len {A : Type} (l : list A) : Z := Z.of_nat (length l).

(** ** unicode

    [unicode.IsSpace]: the code points with the White_Space property. *)
Definition IsSpace (r : rune) : bool :=
  (existsb (N.eqb r)
     [0x09; 0x0A; 0x0B; 0x0C; 0x0D; 0x20; 0x85; 0xA0;
      0x1680; 0x2028; 0x2029; 0x202F; 0x205F; 0x3000]
   || ((0x2000 <=? r) && (r <=? 0x200A)))%N.

(** The case and category tables of Go's [unicode] package and [math.Exp]
    belong to the Go distribution, not to the repository: the embedding
    takes them as parameters. *)
Class GoLib : Type := {
  unicode_ToLower : rune -> rune;
  unicode_IsLetter : rune -> bool;
  unicode_IsDigit : rune -> bool;
  math_Exp : float -> float
}.

(** The tables restricted to ASCII, on which they agree with Go's; used
    to run the model on ASCII inputs.  [math_Exp] is only ever applied to
    a negative argument by the program; the stand-in keeps the range
    (0, 1]. *)
Definition asciiToLower (r : rune) : rune :=
  if ((0x41 <=? r) && (r <=? 0x5A))%N then (r + 32)%N else r.
Definition asciiIsLetter (r : rune) : bool :=
  (((0x41 <=? r) && (r <=? 0x5A)) || ((0x61 <=? r) && (r <=? 0x7A)))%N.
Definition asciiIsDigit (r : rune) : bool :=
  ((0x30 <=? r) && (r <=? 0x39))%N.

Definition asciiLib : GoLib := {|
  unicode_ToLower := asciiToLower;
  unicode_IsLetter := asciiIsLetter;
  unicode_IsDigit := asciiIsDigit;
  math_Exp := fun x => (1 / (1 - x))%float
|}.

(** ** strings *)

Fixpoint dropWhile {A : Type} (f : A -> bool) (l : list A) : list A :=
  match l with
  | [] => []
  | x :: t => if f x then dropWhile f t else l
  end.

(** [strings.TrimSpace] *)
Definition TrimSpace (s : gostring) : gostring :=
  rev (dropWhile IsSpace (rev (dropWhile IsSpace s))).

(** [strings.ToLower] *)
Definition ToLower {L : GoLib} (s : gostring) : gostring :=
  map unicode_ToLower s.

(** [strings.Fields]: the maximal runs of non-space code points. *)
Fixpoint fieldsFrom (cur : gostring) (s : gostring) : list gostring :=
  match s with
  | [] => match cur with [] => [] | _ => [rev cur] end
  | c :: t =>
      if IsSpace c
      then match cur with
           | [] => fieldsFrom [] t
           | _ => rev cur :: fieldsFrom [] t
           end
      else fieldsFrom (c :: cur) t
  end.

Definition Fields (s : gostring) : list gostring := fieldsFrom [] s.

(** [strings.Split(s, sep)] for a separator of one code point: the
    pieces between the separators, one more than there are
    separators. *)
Fixpoint Split (s : gostring) (sep : rune) : list gostring :=
  match s with
  | [] => [[]]
  | c :: s' =>
      if (c =? sep)%N then [] :: Split s' sep
      else
        match Split s' sep with
        | piece :: pieces => (c :: piece) :: pieces
        | [] => [[c]]
        end
  end.

(** [strings.HasPrefix] *)
Fixpoint HasPrefix (s prefix : gostring) : bool :=
  match prefix, s with
  | [], _ => true
  | p :: prefix', c :: s' => N.eqb p c && HasPrefix s' prefix'
  | _ :: _, [] => false
  end.

(** [strings.Join] *)
Fixpoint Join (parts : list gostring) (sep : gostring) : gostring :=
  match parts with
  | [] => []
  | [p] => p
  | p :: ps => p ++ sep ++ Join ps sep
  end.

(** ** time

    A [time.Time] in UTC, as nanoseconds since the Unix epoch; a
    [time.Duration] is an [int64] count of nanoseconds. *)
Definition Time := Z.
Definition Duration := Z.

Definition Second : Duration := 1000000000.
Definition Hour : Duration := 3600 * Second.

(** [t.Sub(u)]: the difference, saturated to the range of [Duration]. *)
Definition Time_Sub (t u : Time) : Duration :=
  Z.max minInt64 (Z.min maxInt64 (t - u)).

(** [t.Add(d)] *)
Definition Time_Add (t : Time) (d : Duration) : Time := t + d.

(** [float64(z)] for an integer below 2^63 in magnitude. *)
Definition float64_of_int (z : Z) : float :=
  if z <? 0
  then (- PrimFloat.of_uint63 (Uint63.of_Z (- z)))%float
  else PrimFloat.of_uint63 (Uint63.of_Z z).

(** [math.Ceil]: the least integral value not below [x]; zeros,
    infinities and NaN are returned as they are.  The ceiling of a
    value with a fraction is below 2^53 in magnitude, so that
    [binary_normalize] gives it exactly. *)
Definition math_Ceil (x : float) : float :=
  match Prim2SF x with
  | S754_finite s m e =>
      if 0 <=? e then x
      else
        let v := if s then Z.neg m else Z.pos m in
        SF2Prim (binary_normalize prec emax (- ((- v) / 2 ^ (- e))) 0 s)
  | _ => x
  end.

(** [int(x)] for a [float64]: the fraction is discarded.  For a value
    outside the range of [int], an infinity or NaN the result depends
    on the platform; this is what amd64 gives. *)
Definition int_of_float64 (x : float) : Z :=
  match Prim2SF x with
  | S754_zero _ => 0
  | S754_finite s m e =>
      let a := if 0 <=? e then Z.pos m * 2 ^ e else Z.pos m / 2 ^ (- e) in
      let v := if s then - a else a in
      if (v <? minInt64) || (v >? maxInt64) then minInt64 else v
  | _ => minInt64
  end.

(** [d.Hours()], as the [time] package computes it. *)
Definition Duration_Hours (d : Duration) : float :=
  (float64_of_int (Z.quot d Hour)
   + float64_of_int (Z.rem d Hour) / 3600000000000)%float.

(** *** Formatting a time as text

    [t.UTC().Format(time.RFC3339Nano)]: the layout
    [2006-01-02T15:04:05.999999999Z07:00].  The fractional seconds are
    printed with their trailing zeros removed, and not at all when the
    time falls on a whole second. *)

Definition digit (d : Z) : rune := Z.to_N (48 + d).

Fixpoint decimalFuel (fuel : nat) (n : Z) (acc : gostring) : gostring :=
  match fuel with
  | O => acc
  | S f =>
      if n <? 10 then digit n :: acc
      else decimalFuel f (n / 10) (digit (n mod 10) :: acc)
  end.

(** The decimal digits of a non-negative integer ([strconv.Itoa]). *)
Definition decimal (n : Z) : gostring :=
  decimalFuel (S (Z.to_nat (Z.log2 n))) n [].

(** [appendInt(b, x, width)] of the [time] package: zero-padded to
    [width] digits, with a minus sign for a negative [x]. *)
Definition appendInt (x : Z) (width : nat) : gostring :=
  let ds := decimal (Z.abs x) in
  (if x <? 0 then [45%N] else [])
    ++ repeat 48%N (width - length ds) ++ ds.

(** Days since 1970-01-01 to (year, month, day) in the proleptic
    Gregorian calendar. *)
Definition civilFromDays (days : Z) : Z * Z * Z :=
  let z := days + 719468 in
  let era := z / 146097 in
  let doe := z - era * 146097 in
  let yoe := (doe - doe / 1460 + doe / 36524 - doe / 146096) / 365 in
  let y := yoe + era * 400 in
  let doy := doe - (365 * yoe + yoe / 4 - yoe / 100) in
  let mp := (5 * doy + 2) / 153 in
  let d := doy - (153 * mp + 2) / 5 + 1 in
  let m := if mp <? 10 then mp + 3 else mp - 9 in
  (if m <=? 2 then y + 1 else y, m, d).

Fixpoint trimTrailingZeros (rev_digits : gostring) : gostring :=
  match rev_digits with
  | 48%N :: t => trimTrailingZeros t
  | _ => rev_digits
  end.

(** [appendNano] for the layout element [.999999999]. *)
Definition appendNano (nanosec : Z) : gostring :=
  if nanosec =? 0 then []
  else 46%N :: rev (trimTrailingZeros (rev (appendInt nanosec 9))).

Definition Format_RFC3339Nano (t : Time) : gostring :=
  let sec := t / Second in
  let nanosec := t mod Second in
  let '(y, m, d) := civilFromDays (sec / 86400) in
  let s := sec mod 86400 in
  appendInt y 4 ++ [45%N] ++ appendInt m 2 ++ [45%N] ++ appendInt d 2
    ++ [84%N]
    ++ appendInt (s / 3600) 2 ++ [58%N] ++ appendInt (s mod 3600 / 60) 2
    ++ [58%N] ++ appendInt (s mod 60) 2
    ++ appendNano nanosec ++ [90%N].

(** A time given by its calendar fields, for writing examples. *)
Definition daysFromCivil (y m d : Z) : Z :=
  let y' := if m <=? 2 then y - 1 else y in
  let era := y' / 400 in
  let yoe := y' - era * 400 in
  let doy := (153 * (if m >? 2 then m - 3 else m + 9) + 2) / 5 + d - 1 in
  let doe := yoe * 365 + yoe / 4 - yoe / 100 + doy in
  era * 146097 + doe - 719468.

Definition Date (y m d hh mm ss nsec : Z) : Time :=
  ((daysFromCivil y m d * 86400 + hh * 3600 + mm * 60 + ss) * Second) + nsec.

(** [t.IsZero()]: the zero [Time] is January 1, year 1, 00:00:00 UTC. *)
Definition Time_IsZero (t : Time) : bool := t =? Date 1 1 1 0 0 0 0.

(** ** sort

    [sort.SliceStable(x, less)]: a stable sort.  Insertion from the right
    keeps an element in front of every later element that [less] does not
    put before it. *)
Section Sort.
Variable A : Type.
Variable less : A -> A -> bool.

Fixpoint insertStable (x : A) (l : list A) : list A :=
  match l with
  | [] => [x]
  | y :: l' => if less y x then y :: insertStable x l' else x :: l
  end.

Fixpoint SliceStable (l : list A) : list A :=
  match l with
  | [] => []
  | x :: l' => insertStable x (SliceStable l')
  end.
End Sort.


(** ** Errors and results

    A Go function returning [(T, error)] becomes a function into
    [result T].  [Panic] stands for a run-time panic, which unwinds the
    call instead of returning. *)
Inductive error : Type :=
| ErrNoRows                   (* sql.ErrNoRows *)
| EOF                         (* io.EOF *)
| ErrUnexpectedEOF            (* io.ErrUnexpectedEOF *)
| Errorf (msg : gostring).    (* errors.New, fmt.Errorf *)

Inductive result (A : Type) : Type :=
| Ok (a : A)
| Err (e : error)
| Panic.
Arguments Ok {A} a.
Arguments Err {A} e.
Arguments Panic {A}.

Definition bind {A B : Type} (r : result A) (k : A -> result B) : result B :=
  match r with
  | Ok a => k a
  | Err e => Err e
  | Panic => Panic
  end.

(** A value paired with an [error], for library calls that return
    without panicking. *)
Inductive outcome (A : Type) : Type :=
| Done (a : A)
| Failed (e : error).
Arguments Done {A} a.
Arguments Failed {A} e.

(** [%q] of [fmt]: the string between double quotes. *)
Definition Quote (s : gostring) : gostring := [34%N] ++ s ++ [34%N].

(** A dynamically typed value ([any]), as far as the program inspects
    one: the JSON-like shapes it builds and tests with type assertions.
    [Struct] holds a value of a declared Go type, taken from [X]. *)
#[warnings="-register-all"]
Inductive any (X : Type) : Type :=
| Nil
| Bool (b : bool)
| Number (f : float)
| String (s : gostring)
| Map (m : list (gostring * any X))               (* map[string]any *)
| Slice (l : list (any X))                        (* []any *)
| MapSlice (l : list (list (gostring * any X)))   (* []map[string]any *)
| Struct (x : X).
Arguments Nil {X}.
Arguments Bool {X} b.
Arguments Number {X} f.
Arguments String {X} s.
Arguments Map {X} m.
Arguments Slice {X} l.
Arguments MapSlice {X} l.
Arguments Struct {X} x.

Definition gomap (X : Type) : Type := list (gostring * any X).

(** [m[key]] on a [map[string]any]: [Nil] for a missing key. *)
Fixpoint index {X : Type} (m : gomap X) (key : gostring) : any X :=
  match m with
  | [] => Nil
  | (k, v) :: m' => if gostring_eqb k key then v else index m' key
  end.

(** A JSON object decoded by [encoding/json] holds no Go struct. *)
Definition jsonObject : Type := gomap Empty_set.

(** ** SQLite

    TEXT values compare with the BINARY collation: [memcmp], then
    length.  On UTF-8 this is the order of the code point sequences. *)
Fixpoint text_compare (a b : gostring) : comparison :=
  match a, b with
  | [], [] => Eq
  | [], _ :: _ => Lt
  | _ :: _, [] => Gt
  | x :: a', y :: b' =>
      match N.compare x y with
      | Eq => text_compare a' b'
      | c => c
      end
  end.

Definition text_leb (a b : gostring) : bool :=
  match text_compare a b with Gt => false | _ => true end.
Definition text_ltb (a b : gostring) : bool :=
  match text_compare a b with Lt => true | _ => false end.

(** [x LIKE pattern] without ESCAPE: [%] matches any run of characters,
    [_] any single character, and every other character matches itself
    up to the case of ASCII letters. *)
Fixpoint like (pattern x : gostring) : bool :=
  match pattern with
  | [] => isEmpty x
  | p :: pattern' =>
      if (p =? 37)%N then
        (fix star (x : gostring) : bool :=
           like pattern' x
           || match x with
              | [] => false
              | _ :: x' => star x'
              end) x
      else
        match x with
        | [] => false
        | c :: x' =>
            ((p =? 95)%N || (asciiToLower p =? asciiToLower c)%N)
            && like pattern' x'
        end
  end.

(* ================================================================== *)
(** * Part II: package types                                           *)
(* ================================================================== *)

Module types.

Module MemoryRecord.
Record t : Type := mk {
  ID : gostring;
  Namespace : gostring;
  Scope : gostring;
  Content : gostring;
  Summary : gostring;
  Importance : Z;
  SourceAgent : gostring;
  Metadata : option jsonObject;
  CreatedAt : Time;
  LastAccessedAt : Time;
  ExpiresAt : option Time;
  PromotedAt : option Time
}.
(** [types.MemoryRecord{}] *)
Definition zero : t := mk [] [] [] [] [] 0 [] None 0 0 None None.
End MemoryRecord.

Module WriteInput.
Record t : Type := mk {
  Namespace : gostring;
  Scope : gostring;
  Content : gostring;
  Summary : gostring;
  Importance : Z;
  SourceAgent : gostring;
  TTLSeconds : Z;
  Metadata : option jsonObject
}.
End WriteInput.

Module SearchInput.
Record t : Type := mk {
  Namespace : gostring;
  Query : gostring;
  Scope : gostring;
  K : Z;
  IncludeMetadata : bool
}.
End SearchInput.

Module SearchResult.
Record t : Type := mk {
  Record_ : MemoryRecord.t;
  Score : float;
  LexicalScore : float;
  RecencyScore : float;
  ImportanceScore : float
}.
End SearchResult.

Module ContextPackInput.
Record t : Type := mk {
  Namespace : gostring;
  Query : gostring;
  TokenBudget : Z;
  Scope : gostring;
  K : Z
}.
End ContextPackInput.

Module ContextPack.
Record t : Type := mk {
  Text : gostring;
  EstimatedTokens : Z;
  MemoryIDs : list gostring
}.
End ContextPack.

Module PromoteInput.
Record t : Type := mk {
  MemoryID : gostring;
  TargetScope : gostring;
  Reason : gostring
}.
End PromoteInput.

End types.

(* ================================================================== *)
(** * Part III: package store                                          *)
(* ================================================================== *)

Module store.
Import types.

Module Candidate.
Record t : Type := mk {
  Record_ : MemoryRecord.t;
  LexicalScore : float
}.
End Candidate.

Module MCPRequestLog.
Record t : Type := mk {
  ID : Z;
  Method : gostring;
  ToolName : gostring;
  Success : bool;
  ErrorText : gostring;
  DurationMS : Z;
  CreatedAt : Time
}.
End MCPRequestLog.

(** The counters of the dashboard. *)
Module Stats.
Record t : Type := mk {
  Total : Z;
  Short : Z;
  Long : Z;
  Expired : Z
}.
End Stats.

(** A compact row of the dashboard. *)
Module RecentMemory.
Record t : Type := mk {
  ID : gostring;
  Namespace : gostring;
  Scope : gostring;
  Summary : gostring;
  Importance : Z;
  CreatedAt : Time
}.
End RecentMemory.

(** The [Store] interface, over the state [S] of an implementation:
    every method takes the state and returns the new one.  ([Stats]
    and [Close] serve the dashboard and shutdown only.) *)
Record Store (S : Type) : Type := {
  InsertMemory : S -> MemoryRecord.t -> S * result MemoryRecord.t;
  SearchCandidates :
    S -> gostring -> gostring -> gostring -> Z -> Time ->
    S * result (list Candidate.t);
  Promote : S -> gostring -> Time -> S * option error;
  ExpireShort : S -> Time -> S * result Z;
  GetMemory : S -> gostring -> S * result MemoryRecord.t
}.

(** ** The schema (schema.sql)

    A row of [memories].  The four time columns are TEXT: each holds
    [Format(time.RFC3339Nano)] of the time written, and
    [time.Parse] reads it back, so the row keeps the time and
    [sqlText] gives the stored text wherever SQL compares it. *)
Module Row.
Record t : Type := mk {
  id : gostring;
  namespace : gostring;
  scope : gostring;
  content : gostring;
  summary : gostring;
  importance : Z;
  source_agent : gostring;
  metadata_json : jsonObject;
  created_at : Time;
  last_accessed_at : Time;
  expires_at : option Time;
  promoted_at : option Time
}.
End Row.

Definition sqlText (t : Time) : gostring := Format_RFC3339Nano t.

(** A row of the FTS5 table [memories_fts]. *)
Module FtsRow.
Record t : Type := mk {
  id : gostring;
  content : gostring;
  summary : gostring
}.
End FtsRow.

(** The FTS5 extension: which rows of the index a MATCH expression
    selects, each with its [bm25] rank, or the error the query raises.
    It belongs to SQLite and is a parameter of the embedding. *)
Class FTS5 : Type := {
  fts5_match : list FtsRow.t -> gostring -> result (list (FtsRow.t * float))
}.

(** The state behind a [*SQLiteStore]: the tables of the database
    and the capability flag. *)
Module DB.
Record t : Type := mk {
  memories : list Row.t;
  memories_fts : list FtsRow.t;
  mcp_requests : list MCPRequestLog.t;
  ftsEnabled : bool
}.
End DB.

(** [scanBaseMemory] on a row of [memories] *)
Definition scanMemoryRow (r : Row.t) : MemoryRecord.t :=
  MemoryRecord.mk (Row.id r) (Row.namespace r) (Row.scope r)
    (Row.content r) (Row.summary r) (Row.importance r)
    (Row.source_agent r) (Some (Row.metadata_json r))
    (Row.created_at r) (Row.last_accessed_at r)
    (Row.expires_at r) (Row.promoted_at r).

Definition rowOfRecord (rec : MemoryRecord.t) : Row.t :=
  Row.mk (MemoryRecord.ID rec) (MemoryRecord.Namespace rec)
    (MemoryRecord.Scope rec) (MemoryRecord.Content rec)
    (MemoryRecord.Summary rec) (MemoryRecord.Importance rec)
    (MemoryRecord.SourceAgent rec)
    (match MemoryRecord.Metadata rec with Some m => m | None => [] end)
    (MemoryRecord.CreatedAt rec) (MemoryRecord.LastAccessedAt rec)
    (MemoryRecord.ExpiresAt rec) (MemoryRecord.PromotedAt rec).

(** [scope IN ('short', 'long')], the CHECK constraint of the table *)
Definition checkScope (scope : gostring) : bool :=
  gostring_eqb scope (str "short") || gostring_eqb scope (str "long").

Definition hasID (id : gostring) (rows : list Row.t) : bool :=
  existsb (fun r => gostring_eqb (Row.id r) id) rows.

(** [splitSQLStatements]: the pieces between semicolons (code point
    59), trimmed, the blank ones dropped, each with its semicolon put
    back. *)
Definition splitSQLStatements (s : gostring) : list gostring :=
  flat_map (fun p =>
              let p := TrimSpace p in
              if isEmpty p then [] else [p ++ str ";"])
    (Split s 59%N).

(** ** The methods of [*SQLiteStore] *)
Module SQLiteStore.

(** [InsertMemory]: the INSERT fails on a duplicate primary key or
    a scope outside the CHECK constraint. *)
Definition InsertMemory (s : DB.t) (rec : MemoryRecord.t)
  : DB.t * result MemoryRecord.t :=
  if hasID (MemoryRecord.ID rec) (DB.memories s)
     || negb (checkScope (MemoryRecord.Scope rec))
  then (s, Err (Errorf (str "insert memory: constraint failed")))
  else
    let fts :=
      if DB.ftsEnabled s
      then DB.memories_fts s
             ++ [FtsRow.mk (MemoryRecord.ID rec)
                   (MemoryRecord.Content rec) (MemoryRecord.Summary rec)]
      else DB.memories_fts s in
    (DB.mk (DB.memories s ++ [rowOfRecord rec]) fts
       (DB.mcp_requests s) (DB.ftsEnabled s),
     Ok rec).

(** [tokenizeQueryTerms]: the lower-cased runs of letters and
    digits, without repetition, in order of first appearance.  The
    loop state is the builder [sb] and the terms collected so far
    ([seen] holds exactly those). *)
Definition flush (sb : gostring) (terms : list gostring) : list gostring :=
  if isEmpty sb then terms
  else if existsb (gostring_eqb sb) terms then terms
  else terms ++ [sb].

Fixpoint tokenizeLoop {L : GoLib} (query : gostring) (sb : gostring)
  (terms : list gostring) : list gostring :=
  match query with
  | [] => flush sb terms
  | r :: query' =>
      if unicode_IsLetter r || unicode_IsDigit r
      then tokenizeLoop query' (sb ++ [unicode_ToLower r]) terms
      else tokenizeLoop query' [] (flush sb terms)
  end.

Definition tokenizeQueryTerms {L : GoLib} (query : gostring)
  : list gostring :=
  let query := TrimSpace query in
  if isEmpty query then [] else tokenizeLoop query [] [].

(** [strings.ReplaceAll] doubling every double quote (code point
    34) of the term *)
Definition escapeQuotes (term : gostring) : gostring :=
  flat_map (fun r => if (r =? 34)%N then [34%N; 34%N] else [r]) term.

Definition buildFTSMatchQuery (terms : list gostring) : gostring :=
  Join (map (fun term => [34%N] ++ escapeQuotes term ++ [34%N]) terms)
       (str " AND ").

(** [expires_at IS NULL OR expires_at > ?] *)
Definition notExpired (r : Row.t) (now : Time) : bool :=
  match Row.expires_at r with
  | None => true
  | Some e => text_ltb (sqlText now) (sqlText e)
  end.

(** [namespace = ? AND (expires_at IS NULL OR expires_at > ?)], and
    [AND scope = ?] when a scope is given *)
Definition baseWhere (namespace scope : gostring) (now : Time)
  (r : Row.t) : bool :=
  gostring_eqb (Row.namespace r) namespace
  && notExpired r now
  && (isEmpty scope || gostring_eqb (Row.scope r) scope).

(** [LIMIT ?]: a negative limit is no limit. *)
Definition sqlLimit {A : Type} (limit : Z) (rows : list A) : list A :=
  if limit <? 0 then rows else firstn (Z.to_nat limit) rows.

(** [scanCandidateRow]: [scanBaseMemory] puts the rank under the key
    [_bm25] of a fresh map, decodes the stored metadata into that
    map, and the rank is read back from the map and the key deleted.
    A stored [_bm25] replaces the rank, and one that is not a number
    makes the type assertion panic. *)
Definition scanCandidateRow (r : Row.t) (bm : float)
  : result (MemoryRecord.t * float) :=
  let isRank (kv : gostring * any Empty_set) :=
    gostring_eqb (fst kv) (str "_bm25") in
  let rec :=
    MemoryRecord.mk (Row.id r) (Row.namespace r) (Row.scope r)
      (Row.content r) (Row.summary r) (Row.importance r)
      (Row.source_agent r)
      (Some (filter (fun kv => negb (isRank kv)) (Row.metadata_json r)))
      (Row.created_at r) (Row.last_accessed_at r)
      (Row.expires_at r) (Row.promoted_at r) in
  match find isRank (Row.metadata_json r) with
  | None => Ok (rec, bm)
  | Some (_, Number stored) => Ok (rec, stored)
  | Some _ => Panic
  end.

(** The loop over the rows of [searchFTS]. *)
Fixpoint scanCandidates (rows : list (Row.t * float))
  : result (list Candidate.t) :=
  match rows with
  | [] => Ok []
  | row :: rows' =>
      bind (scanCandidateRow (fst row) (snd row)) (fun scanned =>
        let lex := (1.0 / (1.0 + abs (snd scanned)))%float in
        bind (scanCandidates rows') (fun items =>
          Ok (Candidate.mk (fst scanned) lex :: items)))
  end.

(** [searchFTS]: the index rows selected by MATCH, joined to
    [memories] on [id], filtered, ordered by [bm] ascending and cut
    at [limit]. *)
Definition searchFTS {F : FTS5} (s : DB.t)
  (namespace query scope : gostring) (limit : Z) (now : Time)
  : result (list Candidate.t) :=
  bind (fts5_match (DB.memories_fts s) query) (fun hits =>
    let joined :=
      flat_map (fun hit : FtsRow.t * float =>
        map (fun m => (m, snd hit))
          (filter (fun m =>
                     gostring_eqb (Row.id m) (FtsRow.id (fst hit))
                     && baseWhere namespace scope now m)
             (DB.memories s))) hits in
    let ordered :=
      SliceStable (fun a b : Row.t * float => (snd a <? snd b)%float)
        joined in
    scanCandidates (sqlLimit limit ordered)).

(** [content LIKE ? OR summary LIKE ?] with the needle [%term%] *)
Definition likeEither (term : gostring) (r : Row.t) : bool :=
  let needle := [37%N] ++ term ++ [37%N] in
  like needle (Row.content r) || like needle (Row.summary r).

(** [searchLIKE] *)
Definition searchLIKE (s : DB.t) (namespace query : gostring)
  (terms : list gostring) (scope : gostring) (limit : Z) (now : Time)
  : result (list Candidate.t) :=
  let matches (r : Row.t) : bool :=
    baseWhere namespace scope now r
    && (if negb (isEmpty terms)
        then forallb (fun term => likeEither term r) terms
        else if negb (isEmpty query) then likeEither query r
        else true) in
  let ordered :=
    SliceStable
      (fun a b : Row.t =>
         text_ltb (sqlText (Row.created_at b)) (sqlText (Row.created_at a)))
      (filter matches (DB.memories s)) in
  let lex := if isEmpty query then 0.25%float else 0.4%float in
  Ok (map (fun r => Candidate.mk (scanMemoryRow r) lex)
        (sqlLimit limit ordered)).

(** [SearchCandidates] *)
Definition SearchCandidates {L : GoLib} {F : FTS5} (s : DB.t)
  (namespace query scope : gostring) (limit : Z) (now : Time)
  : DB.t * result (list Candidate.t) :=
  let limit := if limit <=? 0 then 10 else limit in
  let query := TrimSpace query in
  let terms := tokenizeQueryTerms query in
  (s,
   if negb (isEmpty terms) && DB.ftsEnabled s then
     match searchFTS s namespace (buildFTSMatchQuery terms) scope limit now
     with
     | Ok (row :: rows) => Ok (row :: rows)
     | Ok [] => searchLIKE s namespace query terms scope limit now
     | Panic => Panic
     | Err _ => searchLIKE s namespace query terms scope limit now
     end
   else searchLIKE s namespace query terms scope limit now).

(** [Promote]: the UPDATE rewrites every row with the given id;
    no row affected is reported as [sql.ErrNoRows]. *)
Definition promoteRow (now : Time) (r : Row.t) : Row.t :=
  Row.mk (Row.id r) (Row.namespace r) (str "long") (Row.content r)
    (Row.summary r) (Row.importance r) (Row.source_agent r)
    (Row.metadata_json r) (Row.created_at r) now None (Some now).

Definition Promote (s : DB.t) (id : gostring) (now : Time)
  : DB.t * option error :=
  let hit (r : Row.t) := gostring_eqb (Row.id r) id in
  let n := len (filter hit (DB.memories s)) in
  (DB.mk (map (fun r => if hit r then promoteRow now r else r)
            (DB.memories s))
     (DB.memories_fts s) (DB.mcp_requests s) (DB.ftsEnabled s),
   if n =? 0 then Some ErrNoRows else None).

(** [scope = 'short' AND expires_at IS NOT NULL AND expires_at <= ?] *)
Definition expired (now : Time) (r : Row.t) : bool :=
  gostring_eqb (Row.scope r) (str "short")
  && match Row.expires_at r with
     | None => false
     | Some e => text_leb (sqlText e) (sqlText now)
     end.

(** [ExpireShort]: the DELETE, the number of rows it removed, and
    the removal of index rows left without a memory. *)
Definition ExpireShort (s : DB.t) (now : Time) : DB.t * result Z :=
  let n := len (filter (expired now) (DB.memories s)) in
  let memories := filter (fun r => negb (expired now r)) (DB.memories s) in
  let fts :=
    if DB.ftsEnabled s && (n >? 0)
    then filter (fun f => hasID (FtsRow.id f) memories) (DB.memories_fts s)
    else DB.memories_fts s in
  (DB.mk memories fts (DB.mcp_requests s) (DB.ftsEnabled s), Ok n).

(** [GetMemory] *)
Definition GetMemory (s : DB.t) (id : gostring)
  : DB.t * result MemoryRecord.t :=
  (s,
   match find (fun r => gostring_eqb (Row.id r) id) (DB.memories s) with
   | Some r => Ok (scanMemoryRow r)
   | None => Err ErrNoRows
   end).

(** [InsertMCPRequestLog]; [now] is [time.Now()], read when the
    record carries the zero time. *)
Definition InsertMCPRequestLog (now : Time) (s : DB.t)
  (rec : MCPRequestLog.t) : DB.t * option error :=
  let ts := MCPRequestLog.CreatedAt rec in
  let ts := if Time_IsZero ts then now else ts in
  let row :=
    MCPRequestLog.mk (len (DB.mcp_requests s) + 1)
      (TrimSpace (MCPRequestLog.Method rec))
      (TrimSpace (MCPRequestLog.ToolName rec))
      (MCPRequestLog.Success rec)
      (TrimSpace (MCPRequestLog.ErrorText rec))
      (MCPRequestLog.DurationMS rec) ts in
  (DB.mk (DB.memories s) (DB.memories_fts s)
     (DB.mcp_requests s ++ [row]) (DB.ftsEnabled s),
   None).

(** [Stats]: four [count] queries over [memories]; the last
    one has no condition on the scope. *)
Definition Stats (s : DB.t) (now : Time) : DB.t * result Stats.t :=
  let count (where_ : Row.t -> bool) := len (filter where_ (DB.memories s)) in
  (s,
   Ok (Stats.mk
         (count (fun _ => true))
         (count (fun r => gostring_eqb (Row.scope r) (str "short")))
         (count (fun r => gostring_eqb (Row.scope r) (str "long")))
         (count (fun r =>
                   match Row.expires_at r with
                   | None => false
                   | Some e => text_leb (sqlText e) (sqlText now)
                   end)))).


(** The body of the loop of [RecentMemories]: a row whose summary is
    blank shows its content. *)
Definition scanRecentMemory (r : Row.t) : RecentMemory.t :=
  RecentMemory.mk (Row.id r) (Row.namespace r) (Row.scope r)
    (if isEmpty (TrimSpace (Row.summary r))
     then Row.content r else Row.summary r)
    (Row.importance r) (Row.created_at r).

(** [RecentMemories]: [ORDER BY created_at DESC LIMIT ?] over
    [memories], with 20 for a limit that is not positive, and a
    slice of that capacity, 96 bytes an item. *)
Definition RecentMemories (s : DB.t) (limit : Z)
  : DB.t * result (list RecentMemory.t) :=
  let limit := if limit <=? 0 then 20 else limit in
  let ordered :=
    SliceStable
      (fun a b : Row.t =>
         text_ltb (sqlText (Row.created_at b)) (sqlText (Row.created_at a)))
      (DB.memories s) in
  if makeslicePanics 96 limit then (s, Panic)
  else (s, Ok (map scanRecentMemory (sqlLimit limit ordered))).

End SQLiteStore.

(** [*SQLiteStore] implements [Store]. *)
Definition sqlite {L : GoLib} {F : FTS5} : Store DB.t := {|
  InsertMemory := SQLiteStore.InsertMemory;
  SearchCandidates := SQLiteStore.SearchCandidates;
  Promote := SQLiteStore.Promote;
  ExpireShort := SQLiteStore.ExpireShort;
  GetMemory := SQLiteStore.GetMemory
|}.

End store.

(* ================================================================== *)
(** * Part IV: package config                                          *)
(* ================================================================== *)

Module config.
Record Config : Type := mk {
  NamespacePattern : gostring;
  DefaultShortTTLHours : Z;
  TTLCheckIntervalSeconds : Z;
  MaxContextPackItems : Z;
  DefaultSearchK : Z
}.

(** [Default] *)
Definition Default : Config :=
  mk (str "^[a-zA-Z0-9_.-]+(/[a-zA-Z0-9_.-]+){1,7}$") 48 60 8 10.

(** The numeric checks of [Validate]. *)
Definition Validate (c : Config) : bool :=
  (0 <? DefaultShortTTLHours c) && (0 <? TTLCheckIntervalSeconds c)
  && (0 <? MaxContextPackItems c) && (0 <? DefaultSearchK c).
End config.

(* ================================================================== *)
(** * Part V: package memory                                           *)
(* ================================================================== *)

Module memory.
Import types.

(** [Service].  [namespaceExpr] is the compiled pattern, used only
    through [MatchString]; the logger is left out.  The clock
    ([time.Now]) and the id generator ([uuid.NewString]) are inputs of
    the operations that read them. *)
Record Service (S : Type) : Type := {
  store : store.Store S;
  cfg : config.Config;
  namespaceExpr : gostring -> bool
}.

Definition validateNamespace {S : Type} (s : Service S)
  (namespace : gostring) : option error :=
  let namespace := TrimSpace namespace in
  if isEmpty namespace then Some (Errorf (str "namespace is required"))
  else if negb (namespaceExpr s namespace)
  then Some (Errorf (str "namespace " ++ Quote namespace
                       ++ str " does not match required pattern"))
  else None.

(** [truncate(s, limit)].  Every call site passes a positive
    constant, so the limit is a natural number here. *)
Definition truncate (s : gostring) (limit : nat) : gostring :=
  if (length s <=? limit)%nat then s
  else if (limit <? 3)%nat then firstn limit s
  else firstn (limit - 3) s ++ str "...".

Definition autoSummary (content : gostring) : gostring :=
  let content := TrimSpace content in
  if isEmpty content then [] else truncate content 160.

Definition normalize {L : GoLib} (s : gostring) : gostring :=
  let s := ToLower (TrimSpace s) in
  let s := Join (Fields s) (str " ") in
  truncate s 180.

Definition recencyScore {L : GoLib} (now t : Time) : float :=
  let days := (Duration_Hours (Time_Sub now t) / 24.0)%float in
  if (days <=? 0)%float then 1.0%float
  else math_Exp (- days / 14.0)%float.

Definition estimateTokens (s : gostring) : Z :=
  let runes := len s in
  let t := int_of_float64 (math_Ceil (float64_of_int runes / 4.0)) in
  if t <? 1 then 1 else t.

(** ** Write *)
Definition Write {L : GoLib} {S : Type} (s : Service S) (st : S)
  (now : Time) (newID : gostring) (in_ : WriteInput.t)
  : S * result MemoryRecord.t :=
  match validateNamespace s (WriteInput.Namespace in_) with
  | Some e => (st, Err e)
  | None =>
      let scope := TrimSpace (ToLower (WriteInput.Scope in_)) in
      let scope := if isEmpty scope then str "short" else scope in
      if negb (gostring_eqb scope (str "short"))
         && negb (gostring_eqb scope (str "long"))
      then (st, Err (Errorf (str "invalid scope " ++ Quote scope)))
      else if isEmpty (TrimSpace (WriteInput.Content in_))
      then (st, Err (Errorf (str "content must not be empty")))
      else
        let importance := WriteInput.Importance in_ in
        let importance :=
          if (importance <? 1) || (importance >? 5) then 3
          else importance in
        let summary := TrimSpace (WriteInput.Summary in_) in
        let summary :=
          if isEmpty summary then autoSummary (WriteInput.Content in_)
          else summary in
        let expiresAt :=
          if gostring_eqb scope (str "short") then
            let ttlSeconds := WriteInput.TTLSeconds in_ in
            let ttlSeconds :=
              if ttlSeconds <=? 0
              then int_mul (config.DefaultShortTTLHours (cfg s)) 3600
              else ttlSeconds in
            Some (Time_Add now (int_mul ttlSeconds Second))
          else None in
        let rec :=
          MemoryRecord.mk newID (WriteInput.Namespace in_) scope
            (WriteInput.Content in_) summary importance
            (WriteInput.SourceAgent in_) (WriteInput.Metadata in_)
            now now expiresAt None in
        store.InsertMemory (store s) st rec
  end.

(** ** Search *)

(** The body of the loop over the candidates. *)
Definition scoreCandidate {L : GoLib} (now : Time)
  (c : store.Candidate.t) : SearchResult.t :=
  let record := store.Candidate.Record_ c in
  let recency := recencyScore now (MemoryRecord.CreatedAt record) in
  let importance :=
    (float64_of_int (MemoryRecord.Importance record) / 5.0)%float in
  let score :=
    ((0.60 * store.Candidate.LexicalScore c) + (0.25 * recency)
     + (0.15 * importance))%float in
  SearchResult.mk record score (store.Candidate.LexicalScore c)
    recency importance.

(** The [less] function handed to [sort.SliceStable]. *)
Definition byScore (a b : SearchResult.t) : bool :=
  (SearchResult.Score b <? SearchResult.Score a)%float.

Definition stripMetadata (r : SearchResult.t) : SearchResult.t :=
  let rec := SearchResult.Record_ r in
  SearchResult.mk
    (MemoryRecord.mk (MemoryRecord.ID rec) (MemoryRecord.Namespace rec)
       (MemoryRecord.Scope rec) (MemoryRecord.Content rec)
       (MemoryRecord.Summary rec) (MemoryRecord.Importance rec)
       (MemoryRecord.SourceAgent rec) None
       (MemoryRecord.CreatedAt rec) (MemoryRecord.LastAccessedAt rec)
       (MemoryRecord.ExpiresAt rec) (MemoryRecord.PromotedAt rec))
    (SearchResult.Score r) (SearchResult.LexicalScore r)
    (SearchResult.RecencyScore r) (SearchResult.ImportanceScore r).

(** The requested [K] after defaulting and clamping. *)
Definition searchK {S : Type} (s : Service S) (k : Z) : Z :=
  let k := if k <=? 0 then config.DefaultSearchK (cfg s) else k in
  if k >? 100 then 100 else k.

(** [results[:k]] when [len(results) > k]; a negative bound panics. *)
Definition cut {A : Type} (results : list A) (k : Z) : result (list A) :=
  if len results >? k
  then if k <? 0 then Panic else Ok (firstn (Z.to_nat k) results)
  else Ok results.

Definition Search {L : GoLib} {S : Type} (s : Service S) (st : S)
  (now : Time) (in_ : SearchInput.t)
  : S * result (list SearchResult.t) :=
  match validateNamespace s (SearchInput.Namespace in_) with
  | Some e => (st, Err e)
  | None =>
      let scope := TrimSpace (ToLower (SearchInput.Scope in_)) in
      if negb (isEmpty scope)
         && negb (gostring_eqb scope (str "short"))
         && negb (gostring_eqb scope (str "long"))
      then (st, Err (Errorf (str "invalid scope " ++ Quote scope)))
      else
        let k := searchK s (SearchInput.K in_) in
        let (st', found) :=
          store.SearchCandidates (store s) st (SearchInput.Namespace in_)
            (SearchInput.Query in_) scope (int_mul k 3) now in
        (st',
         bind found (fun cands =>
           let results := map (scoreCandidate now) cands in
           let results := SliceStable byScore results in
           bind (cut results k) (fun results =>
             Ok (if SearchInput.IncludeMetadata in_ then results
                 else map stripMetadata results))))
  end.

(** ** ContextPack *)

(** The text shown for a result: the trimmed summary, or the trimmed
    content when the summary is blank. *)
Definition displayText (r : SearchResult.t) : gostring :=
  let text := TrimSpace (MemoryRecord.Summary (SearchResult.Record_ r)) in
  if isEmpty text
  then TrimSpace (MemoryRecord.Content (SearchResult.Record_ r))
  else text.

(** [fmt.Sprintf("- [%s] %s", r.Record.ID, truncate(text, 300))] *)
Definition formatLine (r : SearchResult.t) (text : gostring) : gostring :=
  str "- [" ++ MemoryRecord.ID (SearchResult.Record_ r) ++ str "] "
    ++ truncate text 300.

(** The variables of the loop: the set [seen], the slices [lines] and
    [ids], and the counter [tokens]. *)
Module pack.
Record t : Type := mk {
  seen : list gostring;
  lines : list gostring;
  ids : list gostring;
  tokens : Z
}.
End pack.

(** The loop over the ranked results; [continue] goes on with the
    rest, [break] returns the state as it stands. *)
Fixpoint packLoop {L : GoLib} (budget : Z) (results : list SearchResult.t)
  (p : pack.t) : pack.t :=
  match results with
  | [] => p
  | r :: rest =>
      let text := displayText r in
      if isEmpty text then packLoop budget rest p
      else
        let norm := normalize text in
        if existsb (gostring_eqb norm) (pack.seen p)
        then packLoop budget rest p
        else
          let seen := norm :: pack.seen p in
          let line := formatLine r text in
          let lineTokens := estimateTokens line in
          if int_add (pack.tokens p) lineTokens >? budget
          then pack.mk seen (pack.lines p) (pack.ids p) (pack.tokens p)
          else
            packLoop budget rest
              (pack.mk seen (pack.lines p ++ [line])
                 (pack.ids p ++ [MemoryRecord.ID (SearchResult.Record_ r)])
                 (int_add (pack.tokens p) lineTokens))
  end.

(** The token budget and the candidate count after defaulting and
    clamping. *)
Definition packBudget (budget : Z) : Z :=
  if budget <=? 0 then 512 else budget.

Definition packK {S : Type} (s : Service S) (k : Z) : Z :=
  let k := if k <=? 0 then config.MaxContextPackItems (cfg s) else k in
  if k >? 50 then 50 else k.

Definition ContextPack {L : GoLib} {S : Type} (s : Service S) (st : S)
  (now : Time) (in_ : ContextPackInput.t)
  : S * result ContextPack.t :=
  let budget := packBudget (ContextPackInput.TokenBudget in_) in
  let k := packK s (ContextPackInput.K in_) in
  let (st', found) :=
    Search s st now
      (SearchInput.mk (ContextPackInput.Namespace in_)
         (ContextPackInput.Query in_) (ContextPackInput.Scope in_) k false)
  in
  (st',
   bind found (fun results =>
     let p := packLoop budget results (pack.mk [] [] [] 0) in
     Ok (ContextPack.mk (Join (pack.lines p) [10%N]) (pack.tokens p)
           (pack.ids p)))).

(** ** Promote *)
Definition Promote {S : Type} (s : Service S) (st : S) (now : Time)
  (in_ : PromoteInput.t) : S * result MemoryRecord.t :=
  if isEmpty (TrimSpace (PromoteInput.MemoryID in_))
  then (st, Err (Errorf (str "memory_id is required")))
  else
    let target := PromoteInput.TargetScope in_ in
    let target := if isEmpty target then str "long" else target in
    if negb (gostring_eqb target (str "long"))
    then (st, Err (Errorf (str "only target_scope=long is supported")))
    else
      let (st', err) :=
        store.Promote (store s) st (PromoteInput.MemoryID in_) now in
      match err with
      | Some ErrNoRows =>
          (st', Err (Errorf (str "memory " ++ PromoteInput.MemoryID in_
                               ++ str " not found")))
      | Some e => (st', Err e)
      | None => store.GetMemory (store s) st' (PromoteInput.MemoryID in_)
      end.

(** ** ExpireShort *)
Definition ExpireShort {S : Type} (s : Service S) (st : S) (now : Time)
  : S * result Z :=
  store.ExpireShort (store s) st now.

End memory.

(* ================================================================== *)
(** * Part VI: package mcp                                             *)
(* ================================================================== *)

Module mcp.
Import types.

(** The wire carries bytes. *)
Definition bytes : Type := list N.

Definition jsonRPCVersion : gostring := str "2.0".

Inductive wireMode : Type :=
| wireModeFramed
| wireModeJSONLine.

(** ** Reading bytes

    [bytes.TrimSpace] and [strings.TrimSpace] on raw bytes: white
    space is an ASCII space character or the UTF-8 encoding of one of
    the other white space code points. *)
Definition asciiSpace (c : N) : bool :=
  existsb (N.eqb c) [0x09; 0x0A; 0x0B; 0x0C; 0x0D; 0x20]%N.

Definition utf8Spaces : list bytes :=
  ([[0xC2; 0x85]; [0xC2; 0xA0]; [0xE1; 0x9A; 0x80]]
     ++ map (fun c => [0xE2; 0x80; c])
          [0x80; 0x81; 0x82; 0x83; 0x84; 0x85; 0x86; 0x87; 0x88; 0x89;
           0x8A; 0xA8; 0xA9; 0xAF]
     ++ [[0xE2; 0x81; 0x9F]; [0xE3; 0x80; 0x80]])%N.

Fixpoint cutPrefix (s prefix : bytes) : option bytes :=
  match prefix, s with
  | [], _ => Some s
  | p :: prefix', c :: s' =>
      if (p =? c)%N then cutPrefix s' prefix' else None
  | _ :: _, [] => None
  end.

(** One white space character off the front, given the encodings to
    look for. *)
Definition cutSpace (encodings : list bytes) (s : bytes) : option bytes :=
  match s with
  | [] => None
  | c :: s' =>
      if asciiSpace c then Some s'
      else
        fold_right (fun enc found =>
                      match cutPrefix s enc with
                      | Some rest => Some rest
                      | None => found
                      end) None encodings
  end.

Fixpoint trimLeft (fuel : nat) (encodings : list bytes) (s : bytes) : bytes :=
  match fuel with
  | O => s
  | S fuel' =>
      match cutSpace encodings s with
      | Some rest => trimLeft fuel' encodings rest
      | None => s
      end
  end.

Definition TrimSpaceBytes (s : bytes) : bytes :=
  let s := trimLeft (length s) utf8Spaces s in
  rev (trimLeft (length s) (map (@rev N) utf8Spaces) (rev s)).

(** [strings.TrimRight(line, "\r\n")] *)
Definition TrimRightCRLF (line : bytes) : bytes :=
  rev (dropWhile (fun c => (c =? 13)%N || (c =? 10)%N) (rev line)).

(** [r.ReadBytes('\n')] and [r.ReadString('\n')]: the bytes up to and
    including the first newline and the bytes left, or everything
    with [false] when the input ends first. *)
Fixpoint readLine (r : bytes) : bytes * bytes * bool :=
  match r with
  | [] => ([], [], false)
  | c :: r' =>
      if (c =? 10)%N then ([c], r', true)
      else let '(line, rest, found) := readLine r' in (c :: line, rest, found)
  end.

(** [strings.SplitN(line, ":", 2)] *)
Fixpoint splitColon (line : bytes) : bytes * option bytes :=
  match line with
  | [] => ([], None)
  | c :: line' =>
      if (c =? 58)%N then ([], Some line')
      else let (head, tail) := splitColon line' in (c :: head, tail)
  end.

(** [strings.EqualFold(s, "Content-Length")]: the name has no letter
    with a case variant outside ASCII. *)
Definition equalFoldContentLength (s : bytes) : bool :=
  gostring_eqb (map asciiToLower s) (str "content-length").

(** [strconv.Atoi] *)
Fixpoint digitsValue (acc : Z) (s : bytes) : option Z :=
  match s with
  | [] => Some acc
  | c :: s' =>
      if ((48 <=? c) && (c <=? 57))%N
      then digitsValue (10 * acc + (Z.of_N c - 48)) s'
      else None
  end.

Definition Atoi (s : bytes) : result Z :=
  let (negative, ds) :=
    match s with
    | 45%N :: ds => (true, ds)
    | 43%N :: ds => (false, ds)
    | _ => (false, s)
    end in
  match ds with
  | [] => Err (Errorf (str "strconv.Atoi: invalid syntax"))
  | _ =>
      match digitsValue 0 ds with
      | None => Err (Errorf (str "strconv.Atoi: invalid syntax"))
      | Some v =>
          let n := if negative then - v else v in
          if (n <? minInt64) || (n >? maxInt64)
          then Err (Errorf (str "strconv.Atoi: value out of range"))
          else Ok n
      end
  end.

(** [detectWireMode]: skips white space bytes, then looks at no more
    than 16 bytes without consuming them.  Lower-casing the peeked
    bytes matters only for the fifteen ASCII characters compared. *)
Definition detectWireMode (r : bytes) : result wireMode * bytes :=
  let r := dropWhile IsSpace r in
  match r with
  | [] => (Err EOF, r)
  | _ =>
      let peekLower := map asciiToLower (firstn 16 r) in
      (Ok (if HasPrefix peekLower (str "content-length:")
           then wireModeFramed else wireModeJSONLine), r)
  end.

(** [readJSONLineMessage] *)
Fixpoint readJSONLineMessage (fuel : nat) (r : bytes)
  : result (bytes * wireMode) * bytes :=
  match fuel with
  | O => (Err EOF, r)
  | S fuel' =>
      let '(line, rest, found) := readLine r in
      let line := TrimSpaceBytes line in
      if isEmpty line then
        if negb found then (Err EOF, rest)
        else readJSONLineMessage fuel' rest
      else (Ok (line, wireModeJSONLine), rest)
  end.

(** The header loop of [readFramedMessage]. *)
Fixpoint readHeaders (fuel : nat) (contentLength : Z) (r : bytes)
  : result Z * bytes :=
  match fuel with
  | O => (Err EOF, r)
  | S fuel' =>
      let '(line, rest, found) := readLine r in
      if negb found then (Err EOF, rest)
      else
        let line := TrimRightCRLF line in
        if isEmpty line then (Ok contentLength, rest)
        else
          match splitColon line with
          | (_, None) => readHeaders fuel' contentLength rest
          | (name, Some value) =>
              if equalFoldContentLength (TrimSpaceBytes name) then
                match Atoi (TrimSpaceBytes value) with
                | Ok n => readHeaders fuel' n rest
                | Err e =>
                    (Err (Errorf (str "invalid Content-Length: "
                                    ++ match e with
                                       | Errorf m => m
                                       | _ => []
                                       end)), rest)
                | Panic => (Panic, rest)
                end
              else readHeaders fuel' contentLength rest
          end
  end.

(** [readFramedMessage]: [make([]byte, contentLength)] panics when
    the runtime refuses the size, and the allocation of an accepted
    size is taken to succeed. *)
Definition readFramedMessage (r : bytes) : result bytes * bytes :=
  match readHeaders (S (length r)) 0 r with
  | (Ok contentLength, rest) =>
      if contentLength <=? 0
      then (Err (Errorf (str "missing or invalid Content-Length")), rest)
      else if contentLength >? maxAlloc then (Panic, rest)
      else
        let n := Z.to_nat contentLength in
        if (n <=? length rest)%nat
        then (Ok (firstn n rest), skipn n rest)
        else (Err (if isEmpty rest then EOF else ErrUnexpectedEOF), [])
  | (Err e, rest) => (Err e, rest)
  | (Panic, rest) => (Panic, rest)
  end.

(** [readMessage] *)
Definition readMessage (r : bytes) : result (bytes * wireMode) * bytes :=
  match detectWireMode r with
  | (Ok wireModeJSONLine, r') => readJSONLineMessage (S (length r')) r'
  | (Ok wireModeFramed, r') =>
      match readFramedMessage r' with
      | (Ok payload, rest) => (Ok (payload, wireModeFramed), rest)
      | (Err e, rest) => (Err e, rest)
      | (Panic, rest) => (Panic, rest)
      end
  | (Err e, r') => (Err e, r')
  | (Panic, r') => (Panic, r')
  end.

(** ** Messages *)

Module request.
Record t : Type := mk {
  JSONRPC : gostring;
  ID : bytes;            (* json.RawMessage *)
  Method : gostring;
  Params : bytes         (* json.RawMessage *)
}.
End request.

(** The Go values a response can carry besides maps and scalars. *)
Inductive payload : Type :=
| ToolDefinitions (names : list gostring)
| RecordValue (r : MemoryRecord.t)
| ResultsValue (l : list SearchResult.t)
| PackValue (p : ContextPack.t).

Definition value : Type := any payload.

Module rpcError.
Record t : Type := mk {
  Code : Z;
  Message : gostring;
  Data : value
}.
End rpcError.

Module response.
Record t : Type := mk {
  JSONRPC : gostring;
  ID : value;
  Result : value;
  Error : option rpcError.t
}.
(** [response{}] *)
Definition zero : t := mk [] Nil Nil None.
End response.

(** [encoding/json], a parameter of the embedding: what [Unmarshal]
    leaves in the destination the program hands it, and the bytes
    [Marshal] produces. *)
Class JSON : Type := {
  Unmarshal_request : bytes -> outcome request.t;
  Unmarshal_any : bytes -> outcome value;
  (** the field [ProtocolVersion] after [json.Unmarshal(params, &p)],
      whose error the program discards *)
  Unmarshal_protocolVersion : bytes -> gostring;
  Unmarshal_name : bytes -> outcome gostring;
  Unmarshal_toolCall : bytes -> outcome (gostring * bytes);
  Unmarshal_WriteInput : bytes -> outcome WriteInput.t;
  Unmarshal_SearchInput : bytes -> outcome SearchInput.t;
  Unmarshal_ContextPackInput : bytes -> outcome ContextPackInput.t;
  Unmarshal_PromoteInput : bytes -> outcome PromoteInput.t;
  MarshalIndent : payload -> outcome gostring;
  Marshal : response.t -> outcome bytes
}.

(** [err.Error()] *)
Definition Error_ (e : error) : gostring :=
  match e with
  | ErrNoRows => str "sql: no rows in result set"
  | EOF => str "EOF"
  | ErrUnexpectedEOF => str "unexpected EOF"
  | Errorf msg => msg
  end.

(** [fmt.Errorf(prefix + ": %w", err)] *)
Definition wrap (prefix : gostring) (e : error) : error :=
  Errorf (prefix ++ str ": " ++ Error_ e).

(** The readings of the clock and of the id generator while one
    message is handled, in the order the program takes them. *)
Module env.
Record t : Type := mk {
  started : Time;        (* time.Now() before handle *)
  now : Time;            (* time.Now() inside the service *)
  newID : gostring;      (* uuid.NewString() inside Write *)
  elapsed : Duration;    (* time.Since(started) *)
  loggedAt : Time        (* time.Now() inside recordRequest *)
}.
End env.

(** [Server]: the service, the sink ([None] for a nil sink) and, in
    [world], the store behind both and the two counters. *)
Module Server.
Record t (St : Type) : Type := mk {
  svc : memory.Service St;
  sink : option (St -> store.MCPRequestLog.t -> St * option error)
}.
End Server.

Module world.
Record t (St : Type) : Type := mk {
  db : St;
  requests : Z;
  errors : Z
}.
End world.

(** [atomic.AddUint64(&x, 1)] *)
Definition addUint64 (x : Z) : Z := (x + 1) mod 2 ^ 64.

Definition toolDefinitions : list gostring :=
  [str "memory_write"; str "memory_search";
   str "memory_get_context_pack"; str "memory_promote"].

Definition errorResponse (id : value) (code : Z) (msg : gostring)
  (data : value) : response.t :=
  response.mk jsonRPCVersion id Nil
    (Some (rpcError.mk code msg data)).

Definition decodeID {J : JSON} (raw : bytes) : value :=
  if isEmpty raw then Nil
  else match Unmarshal_any raw with
       | Done v => v
       | Failed _ => String raw
       end.

Definition toolSuccess {J : JSON} (v : payload) : result (gomap payload) :=
  match MarshalIndent v with
  | Failed err => Err err
  | Done b =>
      Ok [(str "content",
           MapSlice [[(str "type", String (str "text")); (str "text", String b)]]);
          (str "structuredContent", Struct v);
          (str "isError", Bool false)]
  end.

Definition handleToolCall {J : JSON} {L : GoLib} {St : Type}
  (s : Server.t St) (e : env.t) (db : St) (params : bytes)
  : St * result (gomap payload) :=
  match Unmarshal_toolCall params with
  | Failed err => (db, Err (wrap (str "invalid tools/call params") err))
  | Done (name, arguments) =>
      if gostring_eqb name (str "memory_write") then
        match Unmarshal_WriteInput arguments with
        | Failed err => (db, Err (wrap (str "invalid memory_write arguments") err))
        | Done in_ =>
            let (db', r) :=
              memory.Write (Server.svc s) db (env.now e) (env.newID e) in_ in
            (db', bind r (fun rec => toolSuccess (RecordValue rec)))
        end
      else if gostring_eqb name (str "memory_search") then
        match Unmarshal_SearchInput arguments with
        | Failed err => (db, Err (wrap (str "invalid memory_search arguments") err))
        | Done in_ =>
            let (db', r) := memory.Search (Server.svc s) db (env.now e) in_ in
            (db', bind r (fun items => toolSuccess (ResultsValue items)))
        end
      else if gostring_eqb name (str "memory_get_context_pack") then
        match Unmarshal_ContextPackInput arguments with
        | Failed err =>
            (db, Err (wrap (str "invalid memory_get_context_pack arguments") err))
        | Done in_ =>
            let (db', r) :=
              memory.ContextPack (Server.svc s) db (env.now e) in_ in
            (db', bind r (fun pack => toolSuccess (PackValue pack)))
        end
      else if gostring_eqb name (str "memory_promote") then
        match Unmarshal_PromoteInput arguments with
        | Failed err => (db, Err (wrap (str "invalid memory_promote arguments") err))
        | Done in_ =>
            let (db', r) := memory.Promote (Server.svc s) db (env.now e) in_ in
            (db', bind r (fun rec => toolSuccess (RecordValue rec)))
        end
      else (db, Err (Errorf (str "unknown tool " ++ Quote name)))
  end.

(** ** Dispatch *)

Definition handle {J : JSON} {L : GoLib} {St : Type} (s : Server.t St)
  (e : env.t) (w : world.t St) (req : request.t)
  : world.t St * result (response.t * bool) :=
  let w := world.mk (world.db w) (addUint64 (world.requests w))
             (world.errors w) in
  let hasID := negb (isEmpty (request.ID req)) in
  let id := decodeID (request.ID req) in
  let method := request.Method req in
  if gostring_eqb method (str "notifications/initialized")
  then (w, Ok (response.zero, false))
  else if gostring_eqb method (str "initialize") then
    let pv := Unmarshal_protocolVersion (request.Params req) in
    let pv := if isEmpty (TrimSpace pv) then str "2024-11-05" else pv in
    (w, Ok (response.mk jsonRPCVersion id
              (Map [(str "protocolVersion", String pv);
                    (str "capabilities",
                     Map [(str "tools",
                           Map [(str "listChanged", Bool false)])]);
                    (str "serverInfo",
                     Map [(str "name", String (str "memory-mcp"));
                          (str "version", String (str "0.1.0"))])])
              None, hasID))
  else if gostring_eqb method (str "ping") then
    (w, Ok (response.mk jsonRPCVersion id (Map []) None, hasID))
  else if gostring_eqb method (str "tools/list") then
    (w, Ok (response.mk jsonRPCVersion id
              (Map [(str "tools", Struct (ToolDefinitions toolDefinitions))])
              None, hasID))
  else if gostring_eqb method (str "tools/call") then
    let (db', r) := handleToolCall s e (world.db w) (request.Params req) in
    match r with
    | Err err =>
        (world.mk db' (world.requests w) (addUint64 (world.errors w)),
         Ok (response.mk jsonRPCVersion id
               (Map [(str "content",
                      MapSlice [[(str "type", String (str "text"));
                                 (str "text", String (Error_ err))]]);
                     (str "isError", Bool true)])
               None, hasID))
    | Ok res =>
        (world.mk db' (world.requests w) (world.errors w),
         Ok (response.mk jsonRPCVersion id (Map res) None, hasID))
    | Panic => (world.mk db' (world.requests w) (world.errors w), Panic)
    end
  else if negb hasID then (w, Ok (response.zero, false))
  else (w, Ok (errorResponse id (-32601) (str "method not found")
                 (String method), true)).

(** ** Observability *)

Definition toolNameFromParams {J : JSON} (method : gostring)
  (params : bytes) : gostring :=
  if negb (gostring_eqb method (str "tools/call")) || isEmpty params
  then []
  else match Unmarshal_name params with
       | Done name => TrimSpace name
       | Failed _ => []
       end.

Definition responseSuccessful (resp : response.t) : bool :=
  match response.Error resp with
  | Some _ => false
  | None =>
      match response.Result resp with
      | Map result =>
          match index result (str "isError") with
          | Bool isError => negb isError
          | _ => true
          end
      | _ => true
      end
  end.

Definition responseErrorText (resp : response.t) : gostring :=
  match response.Error resp with
  | Some err => TrimSpace (rpcError.Message err)
  | None =>
      match response.Result resp with
      | Map result =>
          match index result (str "isError") with
          | Bool true =>
              match index result (str "content") with
              | MapSlice (first :: _) =>
                  let text :=
                    match index first (str "text") with
                    | String text => text
                    | _ => []
                    end in
                  let text := TrimSpace text in
                  if isEmpty text then str "tool call failed" else text
              | _ => str "tool call failed"
              end
          | _ => []
          end
      | _ => []
      end
  end.

(** [recordRequest]: the new store state and the record handed to the
    sink, if there is a sink.  A failure of the sink is only logged. *)
Definition recordRequest {J : JSON} {St : Type} (s : Server.t St) (db : St)
  (req : request.t) (resp : response.t) (duration : Duration)
  (createdAt : Time) : St * list store.MCPRequestLog.t :=
  match Server.sink s with
  | None => (db, [])
  | Some insert =>
      let method := TrimSpace (request.Method req) in
      let method := if isEmpty (TrimSpace method) then str "unknown"
                    else method in
      let rec :=
        store.MCPRequestLog.mk 0 method
          (toolNameFromParams (request.Method req) (request.Params req))
          (responseSuccessful resp) (responseErrorText resp)
          (Z.quot duration 1000000) createdAt in
      (fst (insert db rec), [rec])
  end.

(** ** Writing *)

(** [writeFramedMessage]: the bytes written, or the error of
    [json.Marshal].  The writer itself is taken not to fail. *)
Definition writeFramedMessage {J : JSON} (msg : response.t) : outcome bytes :=
  match Marshal msg with
  | Failed err => Failed err
  | Done payload =>
      Done (str "Content-Length: " ++ decimal (len payload)
              ++ [13; 10; 13; 10]%N ++ payload)
  end.

Definition writeMessage {J : JSON} (msg : response.t) (mode : wireMode)
  : outcome bytes :=
  match mode with
  | wireModeJSONLine =>
      match Marshal msg with
      | Failed err => Failed err
      | Done payload => Done (payload ++ [10%N])
      end
  | wireModeFramed => writeFramedMessage msg
  end.

(** ** Serve *)

(** What handling one message did: the new state, the bytes written
    to the output, the records handed to the sink, and whether the
    loop goes on ([Ok tt]) or [Serve] returns. *)
Module step.
Record t (St : Type) : Type := mk {
  after : world.t St;
  written : bytes;
  logged : list store.MCPRequestLog.t;
  next : result unit
}.
End step.

(** The body of the loop of [Serve], from [json.Unmarshal] on. *)
Definition serveMessage {J : JSON} {L : GoLib} {St : Type} (s : Server.t St)
  (e : env.t) (w : world.t St) (payload : bytes) (mode : wireMode)
  : step.t St :=
  match Unmarshal_request payload with
  | Failed err =>
      let (db', logged) :=
        recordRequest s (world.db w)
          (request.mk [] [] (str "parse_error") [])
          (response.mk [] Nil Nil
             (Some (rpcError.mk (-32700) (str "parse error")
                      (String (Error_ err)))))
          0 (env.loggedAt e) in
      let w' := world.mk db' (world.requests w) (world.errors w) in
      let resp :=
        errorResponse Nil (-32700) (str "parse error")
          (String (Error_ err)) in
      match writeFramedMessage resp with
      | Done out => step.mk w' out logged (Ok tt)
      | Failed werr => step.mk w' [] logged (Err werr)
      end
  | Done req =>
      match handle s e w req with
      | (w1, Panic) => step.mk w1 [] [] Panic
      | (w1, Err err) => step.mk w1 [] [] (Err err)
      | (w1, Ok (resp, shouldRespond)) =>
          let (db', logged) :=
            recordRequest s (world.db w1) req resp (env.elapsed e)
              (env.loggedAt e) in
          let w' := world.mk db' (world.requests w1) (world.errors w1) in
          if negb shouldRespond then step.mk w' [] logged (Ok tt)
          else
            match writeMessage resp mode with
            | Done out => step.mk w' out logged (Ok tt)
            | Failed werr => step.mk w' [] logged (Err werr)
            end
      end
  end.

(** [Serve] on the whole input, with the environment of the n-th
    message given by [envs n].  It returns the final state, the
    output, the records handed to the sink and the result of [Serve]:
    [Ok tt] for nil.  The context is taken never to be cancelled. *)
Fixpoint serveLoop {J : JSON} {L : GoLib} {St : Type} (fuel : nat)
  (s : Server.t St) (envs : nat -> env.t) (n : nat) (w : world.t St)
  (input : bytes) : option (step.t St) :=
  match fuel with
  | O => None
  | S fuel' =>
      match readMessage input with
      | (Err EOF, _) => Some (step.mk w [] [] (Ok tt))
      | (Err err, _) => Some (step.mk w [] [] (Err err))
      | (Panic, _) => Some (step.mk w [] [] Panic)
      | (Ok (payload, mode), rest) =>
          let st := serveMessage s (envs n) w payload mode in
          match step.next st with
          | Ok _ =>
              match serveLoop fuel' s envs (S n) (step.after st) rest with
              | Some st' =>
                  Some (step.mk (step.after st')
                          (step.written st ++ step.written st')
                          (step.logged st ++ step.logged st')
                          (step.next st'))
              | None => None
              end
          | _ => Some st
          end
      end
  end.

Definition Serve {J : JSON} {L : GoLib} {St : Type} (s : Server.t St)
  (envs : nat -> env.t) (w : world.t St) (input : bytes)
  : option (step.t St) :=
  serveLoop (S (length input)) s envs 0 w input.

End mcp.

(* ================================================================== *)
(** * Part VII: packages bootstrap and admin                          *)
(* ================================================================== *)

Module bootstrap.

Module Options.
Record t : Type := mk {
  ConfigPath : gostring;
  Scope : gostring;
  ServerName : gostring;
  ServeCmd : gostring;
  All : bool;
  Codex : bool;
  Claude : bool;
  Gemini : bool;
  DryRun : bool
}.
End Options.

Module Command.
Record t : Type := mk {
  Name : gostring;
  Args : list gostring
}.
End Command.

(** [BuildCommands].  [commandExists] asks [exec.LookPath] whether a
    CLI is installed; the answer belongs to the machine and is a
    parameter here. *)
Definition BuildCommands (commandExists : gostring -> bool)
  (opts : Options.t) : outcome (list Command.t) :=
  if negb (gostring_eqb (Options.Scope opts) (str "user"))
     && negb (gostring_eqb (Options.Scope opts) (str "project"))
  then Failed (Errorf (str "invalid scope " ++ Quote (Options.Scope opts)
                         ++ str " (expected user or project)"))
  else if isEmpty (TrimSpace (Options.ConfigPath opts))
  then Failed (Errorf (str "config path is required"))
  else
    let serveCmd :=
      if isEmpty (TrimSpace (Options.ServeCmd opts))
      then str "memory-mcp serve" else Options.ServeCmd opts in
    let cmdParts := Fields serveCmd in
    if isEmpty cmdParts
    then Failed (Errorf (str "serve command is required"))
    else
      let memoryCmd := cmdParts ++ [str "--config"; Options.ConfigPath opts] in
      let addCodex := Options.All opts || Options.Codex opts in
      let addClaude := Options.All opts || Options.Claude opts in
      let addGemini := Options.All opts || Options.Gemini opts in
      let name := Options.ServerName opts in
      let scope := Options.Scope opts in
      Done
        ((if addCodex && commandExists (str "codex")
          then [Command.mk (str "codex") [str "mcp"; str "remove"; name];
                Command.mk (str "codex")
                  ([str "mcp"; str "add"; name; str "--"] ++ memoryCmd)]
          else [])
           ++ (if addClaude && commandExists (str "claude")
               then [Command.mk (str "claude")
                       [str "mcp"; str "remove"; str "-s"; scope; name];
                     Command.mk (str "claude")
                       ([str "mcp"; str "add"; str "-s"; scope; name;
                         str "--"] ++ memoryCmd)]
               else [])
           ++ (if addGemini && commandExists (str "gemini")
               then [Command.mk (str "gemini")
                       [str "mcp"; str "remove"; str "-s"; scope; name];
                     Command.mk (str "gemini")
                       ([str "mcp"; str "add"; str "-s"; scope; name]
                          ++ memoryCmd)]
               else [])).

End bootstrap.

Module admin.

(** The fields of the dashboard [model] that [appendLog] reads and
    writes. *)
Module model.
Record t : Type := mk {
  logLines : list gostring;
  maxLogs : Z
}.
End model.

(** [t.UTC().Format("15:04:05")] *)
Definition Format_Clock (t : Time) : gostring :=
  let s := (t / Second) mod 86400 in
  appendInt (s / 3600) 2 ++ [58%N] ++ appendInt (s mod 3600 / 60) 2
    ++ [58%N] ++ appendInt (s mod 60) 2.

(** [appendLog]; [now] is [time.Now()]. *)
Definition appendLog (now : Time) (m : model.t) (line : gostring)
  : model.t :=
  if isEmpty (TrimSpace line) then m
  else
    let entry := str "[" ++ Format_Clock now ++ str "] " ++ line in
    let logLines := model.logLines m ++ [entry] in
    let maxLogs := if model.maxLogs m <=? 0 then 10 else model.maxLogs m in
    model.mk
      (if len logLines >? maxLogs
       then skipn (Z.to_nat (len logLines - maxLogs)) logLines
       else logLines)
      maxLogs.

(** [truncateText]: slicing with a negative bound panics. *)
Definition truncateText (s : gostring) (limit : Z) : result gostring :=
  let s := TrimSpace s in
  if len s <=? limit then Ok s
  else if limit <=? 3
  then if limit <? 0 then Panic else Ok (firstn (Z.to_nat limit) s)
  else Ok (firstn (Z.to_nat (limit - 3)) s ++ str "...").

(** [compactWhitespace] *)
Definition compactWhitespace (s : gostring) : gostring :=
  Join (Fields (TrimSpace s)) (str " ").

End admin.

(* ================================================================== *)
(** * Part VIII: properties                                            *)
(* ================================================================== *)

Unset Implicit Arguments.

(** ** Integers, strings and lists *)

Lemma wrap64_id (z : Z) : minInt64 <= z <= maxInt64 -> wrap64 z = z.
Proof.
  unfold wrap64, minInt64, maxInt64; intros H.
  rewrite Z.mod_small; lia.
Qed.

Lemma int_add_exact (a b : Z) :
  minInt64 <= a + b <= maxInt64 -> int_add a b = a + b.
Proof. apply wrap64_id. Qed.

Lemma gostring_eqb_eq (a b : gostring) : gostring_eqb a b = true <-> a = b.
Proof.
  revert b; induction a as [|x a IH]; intros [|y b]; simpl;
    try (split; [discriminate | discriminate]); try tauto.
  rewrite andb_true_iff, N.eqb_eq, IH.
  split; [intros [-> ->]; reflexivity | intros E; inversion E; auto].
Qed.

Lemma gostring_eqb_refl (a : gostring) : gostring_eqb a a = true.
Proof. apply gostring_eqb_eq; reflexivity. Qed.

Lemma gostring_eqb_neq (a b : gostring) : gostring_eqb a b = false <-> a <> b.
Proof.
  rewrite <- gostring_eqb_eq.
  destruct (gostring_eqb a b); split; congruence.
Qed.

Lemma existsb_gostring_eqb (x : gostring) (l : list gostring) :
  existsb (gostring_eqb x) l = true <-> In x l.
Proof.
  rewrite existsb_exists; split.
  - intros [y [Hin E]]; apply gostring_eqb_eq in E; subst; assumption.
  - intros Hin; exists x; split; [assumption | apply gostring_eqb_refl].
Qed.

Lemma isEmpty_true (A : Type) (l : list A) : isEmpty l = true <-> l = [].
Proof. destruct l; simpl; split; congruence. Qed.

Lemma isEmpty_false (A : Type) (l : list A) : isEmpty l = false <-> l <> [].
Proof. destruct l; simpl; split; congruence. Qed.

Lemma len_nonneg (A : Type) (l : list A) : 0 <= len l.
Proof. unfold len; lia. Qed.

Lemma len_app (A : Type) (l1 l2 : list A) : len (l1 ++ l2) = len l1 + len l2.
Proof. unfold len; rewrite length_app; lia. Qed.

Lemma In_firstn (A : Type) (n : nat) (l : list A) (x : A) :
  In x (firstn n l) -> In x l.
Proof.
  intros H; rewrite <- (firstn_skipn n l); apply in_or_app; left; exact H.
Qed.

(** ** The stable sort *)

Section SortFacts.
Variable A : Type.
Variable less : A -> A -> bool.

(** Neither element goes before the other. *)
Definition tie (x y : A) : bool := negb (less x y) && negb (less y x).

(** No element is followed by one that [less] puts before it. *)
Definition descending (l : list A) : Prop :=
  StronglySorted (fun a b => less b a = false) l.

Lemma insertStable_perm (x : A) (l : list A) :
  Permutation (insertStable less x l) (x :: l).
Proof.
  induction l as [|y l IH]; simpl; [reflexivity|].
  destruct (less y x); [|reflexivity].
  rewrite IH; apply perm_swap.
Qed.

Lemma SliceStable_perm (l : list A) : Permutation (SliceStable less l) l.
Proof.
  induction l as [|x l IH]; simpl; [constructor|].
  rewrite insertStable_perm; constructor; assumption.
Qed.

Lemma SliceStable_length (l : list A) :
  length (SliceStable less l) = length l.
Proof. apply Permutation_length, SliceStable_perm. Qed.

(** [less] is a strict weak order on the elements satisfying [P]. *)
Variable P : A -> Prop.
Hypothesis less_asym : forall a b, less a b = true -> less b a = false.
Hypothesis less_negtrans :
  forall a b c, P b -> less a c = true -> less a b = true \/ less b c = true.

Lemma insertStable_descending (x : A) (l : list A) :
  Forall P l -> descending l -> descending (insertStable less x l).
Proof.
  unfold descending.
  induction l as [|y l IH]; simpl; intros HP Hs.
  - repeat constructor.
  - inversion HP as [|? ? Py HPl]; subst.
    inversion Hs as [|? ? Hsl Hy]; subst.
    destruct (less y x) eqn:E.
    + constructor; [apply IH; assumption|].
      apply (Permutation_Forall (Permutation_sym (insertStable_perm x l))).
      constructor; [apply less_asym; assumption | assumption].
    + constructor; [assumption|].
      constructor; [assumption|].
      rewrite Forall_forall in Hy |- *; intros z Hz.
      destruct (less z x) eqn:Ezx; [|reflexivity].
      destruct (less_negtrans z y x Py Ezx) as [H|H];
        [rewrite (Hy z Hz) in H | rewrite E in H]; discriminate.
Qed.

Lemma SliceStable_descending (l : list A) :
  Forall P l -> descending (SliceStable less l).
Proof.
  induction l as [|x l IH]; simpl; intros HP.
  - constructor.
  - inversion HP; subst.
    apply insertStable_descending; [|apply IH; assumption].
    apply (Permutation_Forall (Permutation_sym (SliceStable_perm l))).
    assumption.
Qed.

Lemma insertStable_stable (t x : A) (l : list A) :
  P t ->
  filter (tie t) (insertStable less x l) = filter (tie t) (x :: l).
Proof.
  intros Pt; induction l as [|y l IH]; simpl; [reflexivity|].
  destruct (less y x) eqn:E; [|reflexivity].
  simpl; rewrite IH; simpl.
  destruct (tie t x) eqn:Tx; [|reflexivity].
  destruct (tie t y) eqn:Ty; [|reflexivity].
  exfalso; unfold tie in Tx, Ty.
  apply andb_true_iff in Tx, Ty.
  rewrite !negb_true_iff in Tx, Ty.
  destruct (less_negtrans y t x Pt E) as [H|H]; [destruct Ty | destruct Tx];
    congruence.
Qed.

(** Elements that tie keep the order they had before the sort. *)
Lemma SliceStable_stable (t : A) (l : list A) :
  P t -> filter (tie t) (SliceStable less l) = filter (tie t) l.
Proof.
  intros Pt; induction l as [|x l IH]; simpl; [reflexivity|].
  rewrite insertStable_stable by assumption.
  simpl; rewrite IH; reflexivity.
Qed.
End SortFacts.

(** ** The service: what a successful Search returns *)

Section SearchFacts.
Context {L : GoLib} {S : Type}.
Import types.

(** The scope filter handed to the store. *)
Definition searchScope (in_ : SearchInput.t) : gostring :=
  TrimSpace (ToLower (SearchInput.Scope in_)).

Lemma Search_inversion (s : memory.Service S) (st st' : S) (now : Time)
  (in_ : SearchInput.t) (results : list SearchResult.t) :
  memory.Search s st now in_ = (st', Ok results) ->
  exists cands ranked,
    store.SearchCandidates (memory.store s) st (SearchInput.Namespace in_)
      (SearchInput.Query in_) (searchScope in_)
      (int_mul (memory.searchK s (SearchInput.K in_)) 3) now
    = (st', Ok cands)
    /\ memory.cut
         (SliceStable memory.byScore (map (memory.scoreCandidate now) cands))
         (memory.searchK s (SearchInput.K in_)) = Ok ranked
    /\ results = (if SearchInput.IncludeMetadata in_ then ranked
                  else map memory.stripMetadata ranked).
Proof.
  unfold memory.Search, searchScope.
  destruct (memory.validateNamespace s (SearchInput.Namespace in_));
    [discriminate|].
  match goal with
  | |- context [if ?c then _ else _] => destruct c; [discriminate|]
  end.
  destruct (store.SearchCandidates _ _ _ _ _ _ _) as [st1 found].
  destruct found as [cands| |]; simpl; try discriminate.
  destruct (memory.cut _ _) as [ranked| |] eqn:Hcut; simpl; try discriminate.
  intros H; inversion H; subst.
  exists cands, ranked; auto.
Qed.

Lemma searchK_le_100 (s : memory.Service S) (k : Z) :
  memory.searchK s k <= 100.
Proof.
  unfold memory.searchK.
  destruct (k <=? 0);
    match goal with
    | |- context [?x >? 100] => destruct (Z.gtb_spec x 100); lia
    end.
Qed.

(** The effective K: the configured default for a non-positive
    request, never more than 100. *)
Lemma searchK_spec (s : memory.Service S) (k : Z) :
  memory.searchK s k
  = Z.min 100 (if k <=? 0 then config.DefaultSearchK (memory.cfg s) else k).
Proof.
  unfold memory.searchK.
  destruct (k <=? 0);
    match goal with
    | |- context [?x >? 100] => destruct (Z.gtb_spec x 100); lia
    end.
Qed.

Lemma cut_Ok (A : Type) (l ranked : list A) (k : Z) :
  memory.cut l k = Ok ranked ->
  ranked = firstn (Z.to_nat k) l /\ (len l > k -> 0 <= k).
Proof.
  unfold memory.cut.
  destruct (Z.gtb_spec (len l) k) as [Hgt|Hle].
  - destruct (Z.ltb_spec k 0) as [Hneg|Hpos]; [discriminate|].
    intros E; inversion E; split; [reflexivity | lia].
  - intros E; inversion E; subst; split; [|lia].
    symmetry; apply firstn_all2. unfold len in Hle; lia.
Qed.

Lemma cut_length (A : Type) (l ranked : list A) (k : Z) :
  memory.cut l k = Ok ranked -> len ranked <= Z.max 0 k.
Proof.
  unfold memory.cut.
  destruct (Z.gtb_spec (len l) k) as [Hgt|Hle].
  - destruct (Z.ltb_spec k 0) as [Hneg|Hpos]; [discriminate|].
    intros E; inversion E; subst. unfold len in *; rewrite length_firstn; lia.
  - intros E; inversion E; subst. lia.
Qed.

Lemma stripMetadata_ID (r : SearchResult.t) :
  MemoryRecord.ID (SearchResult.Record_ (memory.stripMetadata r))
  = MemoryRecord.ID (SearchResult.Record_ r).
Proof. reflexivity. Qed.

(** Every result carries the id of one of the store's candidates, and
    there are at most 100 results. *)
Lemma Search_results_bounded (s : memory.Service S) (st st' : S)
  (now : Time) (in_ : SearchInput.t) (results : list SearchResult.t)
  (Q : gostring -> Prop) :
  memory.Search s st now in_ = (st', Ok results) ->
  (forall cands,
      store.SearchCandidates (memory.store s) st (SearchInput.Namespace in_)
        (SearchInput.Query in_) (searchScope in_)
        (int_mul (memory.searchK s (SearchInput.K in_)) 3) now
      = (st', Ok cands) ->
      Forall (fun c => Q (MemoryRecord.ID (store.Candidate.Record_ c))) cands) ->
  len results <= 100
  /\ Forall (fun r => Q (MemoryRecord.ID (SearchResult.Record_ r))) results.
Proof.
  intros H HQ.
  destruct (Search_inversion _ _ _ _ _ _ H) as (cands & ranked & Hc & Hcut & ->).
  specialize (HQ cands Hc).
  pose proof (cut_length _ _ _ _ Hcut) as Hlen.
  pose proof (searchK_le_100 s (SearchInput.K in_)) as Hk.
  apply cut_Ok in Hcut; destruct Hcut as [-> _].
  assert (HR : Forall (fun r => Q (MemoryRecord.ID (SearchResult.Record_ r)))
                 (firstn (Z.to_nat (memory.searchK s (SearchInput.K in_)))
                    (SliceStable memory.byScore
                       (map (memory.scoreCandidate now) cands)))).
  { rewrite Forall_forall; intros r Hr.
    apply In_firstn in Hr.
    apply (Permutation_in _ (SliceStable_perm _ memory.byScore _)) in Hr.
    apply in_map_iff in Hr; destruct Hr as [c [<- Hin]].
    rewrite Forall_forall in HQ; apply (HQ c Hin). }
  destruct (SearchInput.IncludeMetadata in_).
  - split; [lia | assumption].
  - split.
    + unfold len in *; rewrite length_map; lia.
    + rewrite Forall_map.
      eapply Forall_impl; [|exact HR]; intros r Hr; exact Hr.
Qed.
End SearchFacts.

(** ** The context pack *)

(** ** Exact binary64 arithmetic on small integers

    The conversion of an integer below 2^53, its division by 4 and
    the ceiling of the quotient are exact: [estimateTokens] computes
    the integer ceiling of a quarter of the character count. *)

Lemma fexp_normal (e : Z) : -1074 <= e -> fexp prec emax (53 + e) = e.
Proof. intros. unfold fexp, emin, prec, emax. lia. Qed.

Lemma digits2_pos_bounds (p : positive) :
  2 ^ (Zpos (digits2_pos p) - 1) <= Zpos p < 2 ^ Zpos (digits2_pos p).
Proof.
  induction p as [p IH|p IH|]; cbn [digits2_pos].
  - rewrite Pos2Z.inj_succ.
    replace (Z.succ (Z.pos (digits2_pos p)) - 1) with (Z.succ (Z.pos (digits2_pos p) - 1)) by lia.
    rewrite !Z.pow_succ_r by lia. lia.
  - rewrite Pos2Z.inj_succ.
    replace (Z.succ (Z.pos (digits2_pos p)) - 1) with (Z.succ (Z.pos (digits2_pos p) - 1)) by lia.
    rewrite !Z.pow_succ_r by lia. lia.
  - simpl. lia.
Qed.

Lemma round_exact (s : bool) (m : positive) (e : Z) :
  Zpos (digits2_pos m) = 53 -> -1074 <= e <= 971 ->
  binary_round_aux prec emax s (Zpos m) e loc_Exact = S754_finite s m e.
Proof.
  intros Hd He.
  unfold binary_round_aux, shr_fexp, Zdigits2. rewrite Hd, fexp_normal by lia.
  rewrite Z.sub_diag. cbn [shr shr_record_of_loc shr_m loc_of_shr_record round_nearest_even].
  unfold Zdigits2. rewrite Hd, fexp_normal by lia. rewrite Z.sub_diag.
  cbn [shr shr_record_of_loc shr_m].
  replace (e <=? emax - prec) with true; [reflexivity|].
  symmetry. apply Z.leb_le. unfold emax, prec. lia.
Qed.

Lemma iter_xO_value (p k : positive) :
  Zpos (Pos.iter xO p k) = Zpos p * 2 ^ Zpos k.
Proof.
  induction k as [|k IH] using Pos.peano_ind.
  - simpl. lia.
  - rewrite Pos.iter_succ, Pos2Z.inj_succ, Z.pow_succ_r by lia.
    rewrite Pos2Z.inj_xO, IH. lia.
Qed.

Lemma iter_xO_digits (p k : positive) :
  Zpos (digits2_pos (Pos.iter xO p k)) = Zpos (digits2_pos p) + Zpos k.
Proof.
  induction k as [|k IH] using Pos.peano_ind.
  - simpl. lia.
  - rewrite Pos.iter_succ. cbn [digits2_pos].
    rewrite !Pos2Z.inj_succ, IH. lia.
Qed.

(** The mantissa and exponent of the binary64 value of a positive
    integer below 2^53. *)
Definition aligned (p : positive) : positive * Z :=
  shl_align p 0 (Zpos (digits2_pos p) - 53).

Lemma aligned_spec (p : positive) :
  Zpos (digits2_pos p) <= 53 ->
  let (m, e) := aligned p in
  Zpos (digits2_pos m) = 53
  /\ e = Zpos (digits2_pos p) - 53
  /\ Zpos m = Zpos p * 2 ^ (- e).
Proof.
  intros Hd. unfold aligned, shl_align.
  rewrite Z.sub_0_r.
  destruct (Zpos (digits2_pos p) - 53) as [|q|q] eqn:E; cbv beta iota.
  - split; [lia|]. split; [reflexivity|]. simpl. lia.
  - lia.
  - rewrite iter_xO_digits, iter_xO_value.
    split; [lia|]. split; [reflexivity|].
    replace (- Z.neg q) with (Z.pos q) by lia. reflexivity.
Qed.

Lemma normalize_exact (p : positive) :
  Zpos (digits2_pos p) <= 53 ->
  binary_normalize prec emax (Zpos p) 0 false
  = S754_finite false (fst (aligned p)) (snd (aligned p)).
Proof.
  intros Hd. pose proof (aligned_spec p Hd) as Ha.
  cbn [binary_normalize]. unfold binary_round.
  replace (fexp prec emax (Z.pos (digits2_pos p) + 0))
    with (Zpos (digits2_pos p) - 53)
    by (unfold fexp, emin, prec, emax; lia).
  fold (aligned p). destruct (aligned p) as [m e].
  destruct Ha as (Hm & He & _). cbn [fst snd].
  apply round_exact; [exact Hm | lia].
Qed.

Lemma four_spec : Prim2SF 4.0 = S754_finite false 4503599627370496 (-50).
Proof. reflexivity. Qed.

Lemma div_four_exact (m : positive) (e : Z) :
  Zpos (digits2_pos m) = 53 -> -1000 <= e <= 900 ->
  SFdiv prec emax (S754_finite false m e)
    (S754_finite false 4503599627370496 (-50))
  = S754_finite false m (e - 2).
Proof.
  intros Hd He. cbn [SFdiv xorb]. unfold SFdiv_core_binary.
  cbn [Zdigits2]. rewrite Hd.
  change (Z.pos (digits2_pos 4503599627370496)) with 53.
  replace (Z.min (fexp prec emax (53 + e - (53 + -50))) (e - -50))
    with (e - 3)
    by (unfold fexp, emin, prec, emax; lia).
  replace (e - -50 - (e - 3)) with 53 by lia.
  cbv iota.
  rewrite Z.shiftl_mul_pow2 by lia.
  replace (Z.div_eucl (Z.pos m * 2 ^ 53) 4503599627370496)
    with (Zpos (xO m), 0).
  2:{ pose proof (Z.div_eucl_eq (Z.pos m * 2 ^ 53) 4503599627370496 ltac:(lia)) as Hq.
      pose proof (Z.mod_pos_bound (Z.pos m * 2 ^ 53) 4503599627370496 ltac:(lia)) as Hr.
      unfold Z.modulo in Hr.
      destruct (Z.div_eucl (Z.pos m * 2 ^ 53) 4503599627370496) as [q r].
      change (2 ^ 53) with (2 * 4503599627370496) in Hq.
      f_equal; lia. }
  change (new_location 4503599627370496 0) with loc_Exact.
  unfold binary_round_aux, shr_fexp, Zdigits2.
  cbn [digits2_pos]. rewrite Pos2Z.inj_succ, Hd.
  replace (fexp prec emax (Z.succ 53 + (e - 3)) - (e - 3)) with 1
    by (unfold fexp, emin, prec, emax; lia).
  cbn [shr shr_record_of_loc iter_pos shr_1 orb shr_m loc_of_shr_record
         round_nearest_even].
  unfold Zdigits2. rewrite Hd.
  replace (fexp prec emax (53 + (e - 3 + 1)) - (e - 3 + 1)) with 0
    by (unfold fexp, emin, prec, emax; lia).
  cbn [shr shr_record_of_loc shr_m].
  replace (e - 3 + 1 <=? emax - prec) with true
    by (symmetry; apply Z.leb_le; unfold emax, prec; lia).
  f_equal. lia.
Qed.

Lemma digits2_pos_le (p : positive) (k : Z) :
  0 <= k -> Zpos p < 2 ^ k -> Zpos (digits2_pos p) <= k.
Proof.
  intros Hk Hp. pose proof (digits2_pos_bounds p) as [Hl _].
  destruct (Z.le_gt_cases (Zpos (digits2_pos p)) k) as [H|H]; [exact H|].
  assert (2 ^ k <= 2 ^ (Zpos (digits2_pos p) - 1))
    by (apply Z.pow_le_mono_r; lia).
  lia.
Qed.

(** The binary64 value of a positive integer below 2^53. *)
Lemma of_int_exact (p : positive) :
  Zpos p < 2 ^ 53 ->
  Prim2SF (float64_of_int (Zpos p))
  = S754_finite false (fst (aligned p)) (snd (aligned p)).
Proof.
  intros Hp. unfold float64_of_int.
  change (Zpos p <? 0) with false. cbv iota.
  rewrite FloatAxioms.of_uint63_spec, Uint63.of_Z_spec.
  rewrite Z.mod_small
    by (split; [lia | apply Z.lt_trans with (2 ^ 53); [exact Hp | reflexivity]]).
  apply normalize_exact. apply digits2_pos_le; [lia | exact Hp].
Qed.

Lemma ceiling_quarter (n : Z) : - ((- n) / 4) = (n + 3) / 4.
Proof.
  pose proof (Z.div_mod (- n) 4 ltac:(lia)) as Hd.
  pose proof (Z.mod_pos_bound (- n) 4 ltac:(lia)) as Hm.
  apply Z.div_unique with (r := 3 - (- n) mod 4); lia.
Qed.

(** [int(math.Ceil(float64(n) / 4.0))] *)
Lemma int_Ceil_quarter (n : Z) :
  0 <= n < 2 ^ 53 ->
  int_of_float64 (math_Ceil (float64_of_int n / 4.0)) = (n + 3) / 4.
Proof.
  intros [H0 Hn].
  destruct n as [|p|p]; [vm_compute; reflexivity| |lia].
  pose proof (of_int_exact p Hn) as Hx.
  pose proof (aligned_spec p (digits2_pos_le p 53 ltac:(lia) Hn)) as Ha.
  destruct (aligned p) as [m e]. cbn [fst snd] in Hx.
  destruct Ha as (Hm & He & Hv).
  pose proof (digits2_pos_bounds p) as Hp.
  assert (Hd : 1 <= Zpos (digits2_pos p) <= 53).
  { split; [lia | apply digits2_pos_le; [lia | exact Hn]]. }
  assert (Hq : Prim2SF (float64_of_int (Z.pos p) / 4.0)
               = S754_finite false m (e - 2)).
  { rewrite FloatAxioms.div_spec, Hx, four_spec. apply div_four_exact; [exact Hm | lia]. }
  unfold math_Ceil. rewrite Hq.
  replace (0 <=? e - 2) with false by (symmetry; apply Z.leb_gt; lia).
  cbv zeta iota.
  assert (Hc : - (- Z.pos m / 2 ^ (- (e - 2))) = (Z.pos p + 3) / 4).
  { rewrite Hv.
    replace (- (e - 2)) with (2 + - e) by lia.
    rewrite Z.pow_add_r by lia.
    replace (- (Z.pos p * 2 ^ (- e))) with (- Z.pos p * 2 ^ (- e)) by lia.
    rewrite Z.div_mul_cancel_r by (try apply Z.pow_nonzero; lia).
    change (2 ^ 2) with 4. apply ceiling_quarter. }
  rewrite Hc.
  assert (Hk : 1 <= (Z.pos p + 3) / 4 < 2 ^ 53).
  { pose proof (Z.div_mod (Z.pos p + 3) 4 ltac:(lia)).
    pose proof (Z.mod_pos_bound (Z.pos p + 3) 4 ltac:(lia)). lia. }
  destruct ((Z.pos p + 3) / 4) as [|k|k] eqn:Ek; [lia| |lia].
  destruct Hk as [_ Hk].
  pose proof (aligned_spec k (digits2_pos_le k 53 ltac:(lia) Hk)) as Hb.
  rewrite (normalize_exact k (digits2_pos_le k 53 ltac:(lia) Hk)).
  destruct (aligned k) as [mk ek]. cbn [fst snd].
  destruct Hb as (Hmk & Hek & Hvk).
  pose proof (digits2_pos_bounds k) as Hkb.
  assert (Hdk : 1 <= Zpos (digits2_pos k) <= 53).
  { split; [lia | apply digits2_pos_le; [lia | exact Hk]]. }
  unfold int_of_float64. rewrite Prim2SF_SF2Prim.
  2:{ cbn [valid_binary]. unfold bounded, canonical_mantissa.
      rewrite Hmk, fexp_normal by lia. rewrite Z.eqb_refl. cbn [andb].
      apply Z.leb_le. unfold emax, prec. lia. }
  cbv zeta.
  assert (Hval : (if 0 <=? ek then Z.pos mk * 2 ^ ek
                  else Z.pos mk / 2 ^ (- ek)) = Zpos k).
  { destruct (Z.leb_spec 0 ek) as [Hz|Hz].
    - rewrite Hvk. replace ek with 0 by lia.
      rewrite Z.opp_0, Z.pow_0_r. lia.
    - rewrite Hvk. apply Z.div_mul. apply Z.pow_nonzero; lia. }
  rewrite Hval.
  replace ((Zpos k <? minInt64) || (Zpos k >? maxInt64)) with false;
    [reflexivity|].
  symmetry. apply orb_false_iff. split.
  - apply Z.ltb_ge. unfold minInt64. lia.
  - rewrite Z.gtb_ltb. apply Z.ltb_ge. unfold maxInt64.
    assert (2 ^ 53 < 2 ^ 63 - 1) by reflexivity. lia.
Qed.

Section ContextPackFacts.
Context {L : GoLib}.
Import types.

(** The line and the dedup key of a ranked result. *)
Definition lineOf (r : SearchResult.t) : gostring :=
  memory.formatLine r (memory.displayText r).
Definition keyOf (r : SearchResult.t) : gostring :=
  memory.normalize (memory.displayText r).

(** The candidate lines in rank order: the lines of the results whose
    text is not blank and whose key was not met before.  This is what
    the pack would hold under an unlimited budget. *)
Fixpoint candidateLines (seen : list gostring)
  (results : list SearchResult.t) : list gostring :=
  match results with
  | [] => []
  | r :: rest =>
      if isEmpty (memory.displayText r) then candidateLines seen rest
      else if existsb (gostring_eqb (keyOf r)) seen
      then candidateLines seen rest
      else lineOf r :: candidateLines (keyOf r :: seen) rest
  end.

Definition sumZ (l : list Z) : Z := fold_right Z.add 0 l.

Lemma truncate_length (s : gostring) (limit : nat) :
  (3 <= limit)%nat -> (length (memory.truncate s limit) <= limit)%nat.
Proof.
  intros Hl; unfold memory.truncate.
  destruct (Nat.leb_spec (length s) limit) as [H|H]; [exact H|].
  destruct (Nat.ltb_spec limit 3) as [H3|H3]; [lia|].
  rewrite length_app, length_firstn; simpl; lia.
Qed.

(** [estimateTokens] on a string of fewer than 2^53 characters. *)
Lemma estimateTokens_exact (s : gostring) :
  len s < 2 ^ 53 ->
  memory.estimateTokens s = Z.max 1 ((len s + 3) / 4).
Proof.
  intros Hs. unfold memory.estimateTokens; cbv zeta.
  rewrite int_Ceil_quarter by (split; [apply len_nonneg | exact Hs]).
  destruct (Z.ltb_spec ((len s + 3) / 4) 1); lia.
Qed.

(** [estimateTokens] is the ceiling of a quarter of the character
    count, and 1 at least. *)
Lemma estimateTokens_ceiling (s : gostring) :
  len s < 2 ^ 53 ->
  let t := memory.estimateTokens s in
  1 <= t /\ len s <= 4 * t /\ (1 < t -> 4 * (t - 1) < len s).
Proof.
  intros Hs. rewrite (estimateTokens_exact s Hs); cbv zeta.
  pose proof (len_nonneg _ s) as H0.
  pose proof (Z.div_mod (len s + 3) 4 ltac:(lia)) as Hd.
  pose proof (Z.mod_pos_bound (len s + 3) 4 ltac:(lia)) as Hm.
  lia.
Qed.

Lemma lineOf_length (r : SearchResult.t) :
  len (MemoryRecord.ID (SearchResult.Record_ r)) <= 2 ^ 48 ->
  len (lineOf r) <= 2 ^ 48 + 305.
Proof.
  intros Hid. unfold lineOf, memory.formatLine.
  rewrite !len_app.
  pose proof (truncate_length (memory.displayText r) 300 ltac:(lia)) as Ht.
  change (len (str "- [")) with 3.
  change (len (str "] ")) with 2.
  unfold len in *; lia.
Qed.

Lemma candidateLines_length (results : list SearchResult.t) :
  Forall (fun r => len (MemoryRecord.ID (SearchResult.Record_ r)) <= 2 ^ 48)
    results ->
  forall seen,
    Forall (fun line => len line < 2 ^ 53) (candidateLines seen results).
Proof.
  induction 1 as [|r results Hid _ IH]; intros seen; simpl; [constructor|].
  destruct (isEmpty (memory.displayText r)); [apply IH|].
  destruct (existsb _ seen); [apply IH|].
  constructor; [|apply IH].
  pose proof (lineOf_length r Hid).
  assert (2 ^ 48 + 305 < 2 ^ 53) by reflexivity. lia.
Qed.

Lemma lineOf_cost_bound (r : SearchResult.t) :
  len (MemoryRecord.ID (SearchResult.Record_ r)) <= 2 ^ 48 ->
  1 <= memory.estimateTokens (lineOf r) <= 2 ^ 47.
Proof.
  intros Hid.
  pose proof (lineOf_length r Hid) as Hlen.
  assert (Hshort : len (lineOf r) < 2 ^ 53).
  { assert (2 ^ 48 + 305 < 2 ^ 53) by reflexivity. lia. }
  pose proof (estimateTokens_ceiling (lineOf r) Hshort) as (H1 & H2 & H3).
  split; [exact H1|].
  destruct (Z.le_gt_cases (memory.estimateTokens (lineOf r)) 1) as [Hs|Hb];
    [lia|].
  specialize (H3 ltac:(lia)). lia.
Qed.

(** The loop emits a prefix of the candidate lines: it stops at the
    first one that does not fit, and its counter is the exact sum of
    the costs of the lines emitted. *)
Lemma packLoop_prefix (budget : Z) (results : list SearchResult.t) :
  forall p : memory.pack.t,
    0 <= memory.pack.tokens p <= budget ->
    memory.pack.tokens p + 2 ^ 47 * len results <= maxInt64 ->
    Forall (fun r => len (MemoryRecord.ID (SearchResult.Record_ r)) <= 2 ^ 48)
      results ->
    exists included rest,
      candidateLines (memory.pack.seen p) results = included ++ rest
      /\ memory.pack.lines (memory.packLoop budget results p)
         = memory.pack.lines p ++ included
      /\ memory.pack.tokens (memory.packLoop budget results p)
         = memory.pack.tokens p + sumZ (map memory.estimateTokens included)
      /\ memory.pack.tokens (memory.packLoop budget results p) <= budget
      /\ (forall next rest',
             rest = next :: rest' ->
             memory.pack.tokens (memory.packLoop budget results p)
             + memory.estimateTokens next > budget).
Proof.
  induction results as [|r results IH]; intros p Hp Hpot Hids.
  - exists [], []; simpl; repeat split; try rewrite app_nil_r; try lia;
      auto; intros; discriminate.
  - inversion Hids as [|? ? Hid Hids']; subst.
    assert (Hpot' : memory.pack.tokens p + 2 ^ 47 * len results <= maxInt64).
    { unfold len in *; simpl length in Hpot; lia. }
    simpl. fold (keyOf r). fold (lineOf r).
    destruct (isEmpty (memory.displayText r)); [apply IH; assumption|].
    destruct (existsb (gostring_eqb (keyOf r)) (memory.pack.seen p));
      [apply IH; assumption|].
    pose proof (lineOf_cost_bound r Hid) as Hcost.
    assert (Hadd : int_add (memory.pack.tokens p)
                     (memory.estimateTokens (lineOf r))
                   = memory.pack.tokens p + memory.estimateTokens (lineOf r)).
    { apply int_add_exact. unfold len in *; simpl length in Hpot.
      unfold minInt64, maxInt64 in *; lia. }
    rewrite Hadd.
    destruct (Z.gtb_spec (memory.pack.tokens p
                          + memory.estimateTokens (lineOf r)) budget)
      as [Hover|Hfits].
    + exists [], (lineOf r :: candidateLines (keyOf r :: memory.pack.seen p)
                                results).
      simpl; repeat split; try rewrite app_nil_r; try lia; auto.
      intros next rest' E; injection E as E1 E2; rewrite <- E1; lia.
    + destruct (IH (memory.pack.mk (keyOf r :: memory.pack.seen p)
                      (memory.pack.lines p ++ [lineOf r])
                      (memory.pack.ids p
                         ++ [MemoryRecord.ID (SearchResult.Record_ r)])
                      (memory.pack.tokens p
                       + memory.estimateTokens (lineOf r))))
        as (included & rest & Hc & Hl & Ht & Hb & Hn).
      * cbn [memory.pack.tokens]; lia.
      * cbn [memory.pack.tokens]. unfold len in *; simpl length in Hpot. lia.
      * assumption.
      * cbn [memory.pack.tokens memory.pack.lines memory.pack.seen] in *.
        exists (lineOf r :: included), rest.
        rewrite Hc, Hl, Ht; simpl.
        repeat split; try (rewrite <- app_assoc; reflexivity); try lia.
        intros next rest' E. specialize (Hn next rest' E). lia.
Qed.
End ContextPackFacts.

(** ** Fixtures: a small database and a service over it, for running
    the model on concrete inputs *)

Module fixture.
Import types.

(** An SQLite build without FTS5: every MATCH query fails. *)
Definition noFTS : store.FTS5 :=
  {| store.fts5_match := fun _ _ => Err (Errorf (str "no such module: fts5")) |}.

Definition t0 : Time := Date 2026 1 1 0 0 0 0.

Definition row (id scope content summary : gostring) (importance : Z)
  (created : Time) (expires : option Time) : store.Row.t :=
  store.Row.mk id (str "org/repo/task") scope content summary importance
    [] [] created created expires None.

(** The two entries of the token-budget test of the repository. *)
Definition twoSummaries : store.DB.t :=
  store.DB.mk
    [row (str "a") (str "long") (str "first") (str "first long summary entry")
       5 t0 None;
     row (str "b") (str "long") (str "second")
       (str "second long summary entry") 5 t0 None]
    [] [] false.

Definition service : memory.Service store.DB.t :=
  {| memory.store := @store.sqlite asciiLib noFTS;
     memory.cfg := config.Default;
     memory.namespaceExpr := fun _ => true |}.

(** A context pack request with room for one of the two lines. *)
Definition packRequest : ContextPackInput.t :=
  ContextPackInput.mk (str "org/repo/task") (str "summary") 10 [] 10.

Definition firstLineOnly : ContextPack.t :=
  ContextPack.mk (str "- [a] first long summary entry") 8 [str "a"].

(** Three entries, the second a repetition of the first up to case and
    spacing. *)
Definition withRepetition : store.DB.t :=
  store.DB.mk
    [row (str "a") (str "long") (str "first") (str "first long summary entry")
       5 t0 None;
     row (str "c") (str "long") (str "again")
       (str "First   LONG summary entry ") 5 t0 None;
     row (str "b") (str "long") (str "second")
       (str "second long summary entry") 5 t0 None]
    [] [] false.

Definition wideRequest : ContextPackInput.t :=
  ContextPackInput.mk (str "org/repo/task") (str "summary") 0 [] 0.

Definition searchRequest : SearchInput.t :=
  SearchInput.mk (str "org/repo/task") (str "summary") [] 2 true.

(** A short entry that expires 10 ms after the sweep runs, and one that
    expired 10 ms before it; both within one second. *)
Definition sweepEarly : Time := Date 2026 1 1 0 0 0 500000000.
Definition expiresLater : Time := Date 2026 1 1 0 0 0 510000000.

Definition notYetExpired : store.DB.t :=
  store.DB.mk
    [row (str "s") (str "short") (str "note") (str "note") 3 t0
       (Some expiresLater)]
    [] [] false.

Definition sweepLate : Time := Date 2026 1 1 0 0 0 510000000.
Definition expiredBefore : Time := Date 2026 1 1 0 0 0 500000000.

Definition alreadyExpired : store.DB.t :=
  store.DB.mk
    [row (str "s") (str "short") (str "note") (str "note") 3 t0
       (Some expiredBefore)]
    [] [] false.

Definition emptyDB : store.DB.t := store.DB.mk [] [] [] false.

(** Two promotions of the same entry, an hour apart, and the promotion
    of an entry that was written long. *)
Definition oneShort : store.DB.t :=
  store.DB.mk
    [row (str "s") (str "short") (str "note") (str "note") 3 t0
       (Some (t0 + 48 * Hour))]
    [] [] false.

Definition oneLong : store.DB.t :=
  store.DB.mk
    [row (str "l") (str "long") (str "design") (str "design") 3 t0 None]
    [] [] false.

Definition promoteS : PromoteInput.t := PromoteInput.mk (str "s") [] [].
Definition promoteL : PromoteInput.t := PromoteInput.mk (str "l") [] [].

Definition promotedOnce : store.DB.t :=
  fst (memory.Promote service oneShort (t0 + Hour) promoteS).

(** An entry whose text has capital letters. *)
Definition capitalised : store.DB.t :=
  store.DB.mk
    [row (str "m") (str "long") (str "Alpha deployment issue")
       (str "Alpha issue") 3 t0 None]
    [] [] false.

(** The write of the end-to-end example: no scope, importance 5. *)
Definition writeRequest : WriteInput.t :=
  WriteInput.mk (str "acme/svc/branch") [] (str "db migration completed") []
    5 [] 0 None.

Definition written : MemoryRecord.t :=
  MemoryRecord.mk (str "m-1") (str "acme/svc/branch") (str "short")
    (str "db migration completed") (str "db migration completed") 5 [] None
    t0 t0 (Some (t0 + 48 * Hour)) None.

Definition withoutRepetition : ContextPack.t :=
  ContextPack.mk
    (str "- [a] first long summary entry" ++ [10%N]
       ++ str "- [b] second long summary entry")
    16 [str "a"; str "b"].
(** ** A JSON codec and a server for the examples

    [json] decodes the payloads below as [encoding/json] does and
    takes every other payload for the malformed line; it renders the
    responses built from maps, strings, booleans and integers, with
    the keys of a map sorted.  No string of the examples needs an
    escape. *)

Definition member (key v : gostring) : gostring := Quote key ++ str ":" ++ v.

Definition object (members : list gostring) : gostring :=
  str "{" ++ Join members (str ",") ++ str "}".

Definition array (elements : list gostring) : gostring :=
  str "[" ++ Join elements (str ",") ++ str "]".

Definition initializeParams : mcp.bytes :=
  object [member (str "protocolVersion") (Quote (str "2025-03-26"))].

Definition initializeLine : mcp.bytes :=
  object [member (str "jsonrpc") (Quote (str "2.0"));
          member (str "id") (str "1");
          member (str "method") (Quote (str "initialize"));
          member (str "params") initializeParams].

Definition initializedLine : mcp.bytes :=
  object [member (str "jsonrpc") (Quote (str "2.0"));
          member (str "method") (Quote (str "notifications/initialized"))].

Definition malformedLine : mcp.bytes := str "oops".

Definition syntaxError : error :=
  Errorf (str "invalid character 'o' looking for beginning of value").

Definition renderNumber (f : float) : option gostring :=
  match Prim2SF f with
  | S754_zero _ => Some (str "0")
  | S754_finite s m e =>
      let n := Z.shiftl (Zpos m) e in
      if Z.shiftl n (- e) =? Zpos m
      then Some ((if s then str "-" else []) ++ decimal n)
      else None
  | _ => None
  end.

Fixpoint sequence {A : Type} (l : list (option A)) : option (list A) :=
  match l with
  | [] => Some []
  | x :: l' =>
      match x, sequence l' with
      | Some a, Some r => Some (a :: r)
      | _, _ => None
      end
  end.

Definition renderObject (members : list (gostring * option gostring))
  : option gostring :=
  option_map
    (fun ms =>
       object (map (fun kv => member (fst kv) (snd kv))
                 (SliceStable (fun a b => text_ltb (fst a) (fst b)) ms)))
    (sequence (map (fun kv => option_map (pair (fst kv)) (snd kv)) members)).

Fixpoint render (v : mcp.value) : option gostring :=
  match v with
  | Nil => Some (str "null")
  | Bool b => Some (if b then str "true" else str "false")
  | Number f => renderNumber f
  | String s => Some (Quote s)
  | Map m => renderObject (map (fun kv => (fst kv, render (snd kv))) m)
  | Slice l => option_map array (sequence (map render l))
  | MapSlice l =>
      option_map array
        (sequence
           (map (fun m =>
                   renderObject (map (fun kv => (fst kv, render (snd kv))) m))
              l))
  | Struct _ => None
  end.

Definition optional (key : gostring) (v : mcp.value)
  : option (list gostring) :=
  match v with
  | Nil => Some []
  | _ => option_map (fun t => [member key t]) (render v)
  end.

Definition renderError (err : mcp.rpcError.t) : option gostring :=
  option_map
    (fun data =>
       object ([member (str "code") (appendInt (mcp.rpcError.Code err) 0);
                member (str "message") (Quote (mcp.rpcError.Message err))]
                 ++ data))
    (optional (str "data") (mcp.rpcError.Data err)).

Definition renderResponse (r : mcp.response.t) : option gostring :=
  match optional (str "id") (mcp.response.ID r),
        optional (str "result") (mcp.response.Result r),
        match mcp.response.Error r with
        | None => Some []
        | Some err =>
            option_map (fun t => [member (str "error") t]) (renderError err)
        end with
  | Some id, Some result, Some err =>
      Some (object ([member (str "jsonrpc") (Quote (mcp.response.JSONRPC r))]
                      ++ id ++ result ++ err))
  | _, _, _ => None
  end.

(** The body of the reply to [malformedLine]. *)
Definition parseErrorBody : mcp.bytes :=
  object [member (str "jsonrpc") (Quote (str "2.0"));
          member (str "error")
            (object [member (str "code") (str "-32700");
                     member (str "message") (Quote (str "parse error"));
                     member (str "data") (Quote (mcp.Error_ syntaxError))])].

Definition initializeRequest : mcp.request.t :=
  mcp.request.mk (str "2.0") (str "1") (str "initialize") initializeParams.

(** The body of the reply to [initializeLine]. *)
Definition initializeBody : mcp.bytes :=
  object [member (str "jsonrpc") (Quote (str "2.0"));
          member (str "id") (str "1");
          member (str "result")
            (object [member (str "capabilities")
                       (object [member (str "tools")
                                  (object [member (str "listChanged")
                                             (str "false")])]);
                     member (str "protocolVersion") (Quote (str "2025-03-26"));
                     member (str "serverInfo")
                       (object [member (str "name") (Quote (str "memory-mcp"));
                                member (str "version") (Quote (str "0.1.0"))])])].

Definition unsupported : error := Errorf (str "json: unsupported type").

Definition json : mcp.JSON :=
  {| mcp.Unmarshal_request := fun p =>
       if gostring_eqb p initializeLine
       then Done initializeRequest
       else if gostring_eqb p initializedLine
       then Done (mcp.request.mk (str "2.0") []
                    (str "notifications/initialized") [])
       else Failed syntaxError;
     mcp.Unmarshal_any := fun raw =>
       if gostring_eqb raw (str "1") then Done (Number 1) else Failed syntaxError;
     mcp.Unmarshal_protocolVersion := fun params =>
       if gostring_eqb params initializeParams then str "2025-03-26" else [];
     mcp.Unmarshal_name := fun _ => Failed syntaxError;
     mcp.Unmarshal_toolCall := fun _ => Failed syntaxError;
     mcp.Unmarshal_WriteInput := fun _ => Failed syntaxError;
     mcp.Unmarshal_SearchInput := fun _ => Failed syntaxError;
     mcp.Unmarshal_ContextPackInput := fun _ => Failed syntaxError;
     mcp.Unmarshal_PromoteInput := fun _ => Failed syntaxError;
     mcp.MarshalIndent := fun _ => Failed unsupported;
     mcp.Marshal := fun r =>
       match renderResponse r with
       | Some t => Done t
       | None => Failed unsupported
       end |}.

Definition server : mcp.Server.t store.DB.t :=
  mcp.Server.mk service (Some (store.SQLiteStore.InsertMCPRequestLog t0)).

Definition clock (n : nat) : mcp.env.t :=
  mcp.env.mk t0 t0 (str "id") 2000000 t0.

Definition start : mcp.world.t store.DB.t := mcp.world.mk emptyDB 0 0.

End fixture.

Section ContextPackTheorems.
Context {L : GoLib} {S : Type}.
Import types.

(** The search a context pack request runs. *)
Definition packSearchInput (s : memory.Service S)
  (in_ : ContextPackInput.t) : SearchInput.t :=
  SearchInput.mk (ContextPackInput.Namespace in_)
    (ContextPackInput.Query in_) (ContextPackInput.Scope in_)
    (memory.packK s (ContextPackInput.K in_)) false.

Lemma ContextPack_inversion (s : memory.Service S) (st st' : S)
  (now : Time) (in_ : ContextPackInput.t) (pack : ContextPack.t) :
  memory.ContextPack s st now in_ = (st', Ok pack) ->
  exists results,
    memory.Search s st now (packSearchInput s in_) = (st', Ok results)
    /\ pack =
       let p := memory.packLoop
                  (memory.packBudget (ContextPackInput.TokenBudget in_))
                  results (memory.pack.mk [] [] [] 0) in
       ContextPack.mk (Join (memory.pack.lines p) [10%N])
         (memory.pack.tokens p) (memory.pack.ids p).
Proof.
  unfold memory.ContextPack. fold (packSearchInput s in_).
  destruct (memory.Search s st now (packSearchInput s in_)) as [st1 found].
  destruct found as [results| |]; simpl; try discriminate.
  intros H; inversion H; subst. exists results; auto.
Qed.

(** C1. A context pack never exceeds its token budget, 512 when the
    request gives a non-positive one: the estimated tokens reported
    are the sum of the costs of the lines included, each cost being
    the ceiling of a quarter of the line's character count and at
    least 1; the lines included are a prefix of the candidate lines
    in rank order, and the first candidate line left out, if any,
    would exceed the budget.  The ids the store hands out are taken
    to be shorter than 2^48 characters, so that the 64-bit counter
    cannot wrap and the binary64 arithmetic of [estimateTokens] is
    exact on every line. *)
Theorem ContextPack_within_token_budget (s : memory.Service S) (st st' : S)
  (now : Time) (in_ : ContextPackInput.t) (pack : ContextPack.t) :
  (forall cands,
      store.SearchCandidates (memory.store s) st
        (ContextPackInput.Namespace in_) (ContextPackInput.Query in_)
        (searchScope (packSearchInput s in_))
        (int_mul (memory.searchK s (memory.packK s (ContextPackInput.K in_)))
           3) now
      = (st', Ok cands) ->
      Forall (fun c =>
                len (MemoryRecord.ID (store.Candidate.Record_ c)) <= 2 ^ 48)
        cands) ->
  memory.ContextPack s st now in_ = (st', Ok pack) ->
  let budget :=
    if ContextPackInput.TokenBudget in_ <=? 0 then 512
    else ContextPackInput.TokenBudget in_ in
  exists results included rest,
    memory.Search s st now (packSearchInput s in_) = (st', Ok results)
    /\ candidateLines [] results = included ++ rest
    /\ ContextPack.Text pack = Join included [10%N]
    /\ ContextPack.EstimatedTokens pack
       = sumZ (map memory.estimateTokens included)
    /\ ContextPack.EstimatedTokens pack <= budget
    /\ (forall next rest',
           rest = next :: rest' ->
           ContextPack.EstimatedTokens pack + memory.estimateTokens next
           > budget)
    /\ Forall (fun line => len line < 2 ^ 53) (included ++ rest)
    /\ (forall line,
           len line < 2 ^ 53 ->
           1 <= memory.estimateTokens line
           /\ len line <= 4 * memory.estimateTokens line
           /\ (1 < memory.estimateTokens line ->
               4 * (memory.estimateTokens line - 1) < len line)).
Proof.
  intros Hids H budget.
  destruct (ContextPack_inversion _ _ _ _ _ _ H) as (results & Hs & ->).
  destruct (Search_results_bounded _ _ _ _ _ _
              (fun id => len id <= 2 ^ 48) Hs Hids) as [Hn Hb].
  assert (Hbudget : 0 <= budget).
  { subst budget.
    destruct (Z.leb_spec (ContextPackInput.TokenBudget in_) 0); lia. }
  destruct (@packLoop_prefix L budget results (memory.pack.mk [] [] [] 0))
    as (included & rest & Hc & Hl & Ht & Hle & Hnext).
  - cbn [memory.pack.tokens]; lia.
  - cbn [memory.pack.tokens]. unfold maxInt64. lia.
  - exact Hb.
  - exists results, included, rest.
    cbn [memory.pack.seen memory.pack.lines memory.pack.tokens] in *.
    unfold memory.packBudget; fold budget.
    cbn [ContextPack.Text ContextPack.EstimatedTokens].
    rewrite Hl, Ht; simpl.
    repeat split; auto; try lia.
    + intros next rest' E. specialize (Hnext next rest' E). lia.
    + rewrite <- Hc. apply candidateLines_length. exact Hb.
    + apply (estimateTokens_ceiling line). assumption.
    + apply (estimateTokens_ceiling line). assumption.
    + apply (estimateTokens_ceiling line). assumption.
Qed.
End ContextPackTheorems.

Lemma ContextPack_within_token_budget_witness :
  memory.ContextPack (L := asciiLib) fixture.service fixture.twoSummaries
    fixture.t0 fixture.packRequest
  = (fixture.twoSummaries, Ok fixture.firstLineOnly)
  /\ types.ContextPack.EstimatedTokens fixture.firstLineOnly <= 10.
Proof.
  assert (E : memory.ContextPack (L := asciiLib) fixture.service
                fixture.twoSummaries fixture.t0 fixture.packRequest
              = (fixture.twoSummaries, Ok fixture.firstLineOnly))
    by (vm_compute; reflexivity).
  split; [exact E|].
  assert (Hids : forall cands,
             store.SearchCandidates (memory.store fixture.service)
               fixture.twoSummaries
               (types.ContextPackInput.Namespace fixture.packRequest)
               (types.ContextPackInput.Query fixture.packRequest)
               (searchScope (L := asciiLib)
                  (packSearchInput fixture.service fixture.packRequest))
               (int_mul
                  (memory.searchK fixture.service
                     (memory.packK fixture.service
                        (types.ContextPackInput.K fixture.packRequest))) 3)
               fixture.t0
             = (fixture.twoSummaries, Ok cands) ->
             Forall (fun c =>
                       len (types.MemoryRecord.ID (store.Candidate.Record_ c))
                       <= 2 ^ 48) cands).
  { intros cands Hc; vm_compute in Hc; injection Hc as <-.
    repeat constructor; vm_compute; discriminate. }
  destruct (ContextPack_within_token_budget (L := asciiLib) fixture.service
              fixture.twoSummaries fixture.twoSummaries fixture.t0
              fixture.packRequest fixture.firstLineOnly Hids E)
    as (results & included & rest & _ & _ & _ & _ & Hle & _).
  exact Hle.
Defined.

(** ** Deduplication in the context pack *)

Section ContextPackDedup.
Context {L : GoLib}.
Import types.

(** Which results the loop emits a line for: one flag per result, in
    rank order.  It follows [packLoop] step by step; after a [break]
    nothing more is emitted. *)
Fixpoint chosen (budget : Z) (results : list SearchResult.t)
  (p : memory.pack.t) : list bool :=
  match results with
  | [] => []
  | r :: rest =>
      if isEmpty (memory.displayText r) then false :: chosen budget rest p
      else if existsb (gostring_eqb (keyOf r)) (memory.pack.seen p)
      then false :: chosen budget rest p
      else if int_add (memory.pack.tokens p) (memory.estimateTokens (lineOf r))
              >? budget
      then repeat false (length results)
      else
        true :: chosen budget rest
                  (memory.pack.mk (keyOf r :: memory.pack.seen p)
                     (memory.pack.lines p ++ [lineOf r])
                     (memory.pack.ids p
                        ++ [MemoryRecord.ID (SearchResult.Record_ r)])
                     (int_add (memory.pack.tokens p)
                        (memory.estimateTokens (lineOf r))))
  end.

(** The elements of [l] whose flag is set. *)
Fixpoint select {A : Type} (flags : list bool) (l : list A) : list A :=
  match flags, l with
  | true :: flags', x :: l' => x :: select flags' l'
  | false :: flags', _ :: l' => select flags' l'
  | _, _ => []
  end.

Lemma select_repeat_false (A : Type) (n : nat) (l : list A) :
  select (repeat false n) l = [].
Proof.
  revert l; induction n as [|n IH]; intros [|x l]; simpl; auto.
Qed.

Lemma nth_repeat_false (n j : nat) : nth j (repeat false n) false = false.
Proof.
  revert j; induction n as [|n IH]; intros [|j]; simpl; auto.
Qed.

Lemma chosen_length (budget : Z) (results : list SearchResult.t) :
  forall p, length (chosen budget results p) = length results.
Proof.
  induction results as [|r results IH]; intros p; [reflexivity|].
  cbn [chosen].
  destruct (isEmpty (memory.displayText r)); [simpl; rewrite IH; reflexivity|].
  destruct (existsb _ _); [simpl; rewrite IH; reflexivity|].
  destruct (_ >? _); [apply repeat_length|].
  simpl; rewrite IH; reflexivity.
Qed.

(** The lines, the ids and the token counter come from the chosen
    results alone. *)
Lemma packLoop_chosen (budget : Z) (results : list SearchResult.t) :
  forall p,
    let out := memory.packLoop budget results p in
    let kept := select (chosen budget results p) results in
    memory.pack.lines out = memory.pack.lines p ++ map lineOf kept
    /\ memory.pack.ids out
       = memory.pack.ids p
           ++ map (fun r => MemoryRecord.ID (SearchResult.Record_ r)) kept
    /\ memory.pack.tokens out
       = fold_left int_add
           (map (fun r => memory.estimateTokens (lineOf r)) kept)
           (memory.pack.tokens p).
Proof.
  induction results as [|r results IH]; intros p.
  - simpl; rewrite !app_nil_r; auto.
  - cbn [memory.packLoop chosen]. fold (keyOf r). fold (lineOf r).
    destruct (isEmpty (memory.displayText r)); [apply IH|].
    destruct (existsb _ _); [apply IH|].
    destruct (_ >? _).
    + rewrite select_repeat_false; simpl; rewrite !app_nil_r; auto.
    + cbn [select].
      destruct (IH (memory.pack.mk (keyOf r :: memory.pack.seen p)
                      (memory.pack.lines p ++ [lineOf r])
                      (memory.pack.ids p
                         ++ [MemoryRecord.ID (SearchResult.Record_ r)])
                      (int_add (memory.pack.tokens p)
                         (memory.estimateTokens (lineOf r)))))
        as (Hl & Hi & Ht).
      cbn [memory.pack.lines memory.pack.ids memory.pack.tokens] in *.
      rewrite Hl, Hi, Ht; simpl.
      rewrite <- !app_assoc; auto.
Qed.

(** A chosen result is the first, in rank order, of the results with
    its key. *)
Lemma chosen_first (budget : Z) (results : list SearchResult.t) :
  forall p j rj,
    nth_error results j = Some rj ->
    nth j (chosen budget results p) false = true ->
    ~ In (keyOf rj) (memory.pack.seen p)
    /\ forall i ri,
         (i < j)%nat -> nth_error results i = Some ri ->
         memory.displayText ri <> [] -> keyOf ri <> keyOf rj.
Proof.
  induction results as [|r results IH]; intros p j rj Hj Hc.
  - destruct j; discriminate.
  - cbn [chosen] in Hc.
    destruct (isEmpty (memory.displayText r)) eqn:Hempty.
    { destruct j as [|j]; [discriminate|]. simpl in Hj, Hc.
      destruct (IH p j rj Hj Hc) as [Hs Hf]. split; [exact Hs|].
      intros [|i] ri Hlt Hi Hne; simpl in Hi.
      - inversion Hi; subst. apply isEmpty_true in Hempty. contradiction.
      - apply (Hf i ri); [lia | assumption | assumption]. }
    destruct (existsb (gostring_eqb (keyOf r)) (memory.pack.seen p)) eqn:Hseen.
    { destruct j as [|j]; [discriminate|]. simpl in Hj, Hc.
      destruct (IH p j rj Hj Hc) as [Hs Hf]. split; [exact Hs|].
      intros [|i] ri Hlt Hi Hne; simpl in Hi.
      - inversion Hi; subst. apply existsb_gostring_eqb in Hseen.
        intros E; rewrite E in Hseen; contradiction.
      - apply (Hf i ri); [lia | assumption | assumption]. }
    destruct (_ >? _).
    { rewrite nth_repeat_false in Hc; discriminate. }
    destruct j as [|j]; simpl in Hj, Hc.
    + inversion Hj; subst. split.
      * intros Hin. apply existsb_gostring_eqb in Hin. congruence.
      * intros i ri Hlt; lia.
    + destruct (IH _ j rj Hj Hc) as [Hs Hf].
      cbn [memory.pack.seen] in Hs. split.
      * intros Hin; apply Hs; right; exact Hin.
      * intros [|i] ri Hlt Hi Hne; simpl in Hi.
        -- inversion Hi; subst. intros E; apply Hs; left; exact E.
        -- apply (Hf i ri); [lia | assumption | assumption].
Qed.

(** The key has at most 180 characters. *)
Lemma normalize_length (s : gostring) :
  (length (memory.normalize s) <= 180)%nat.
Proof. unfold memory.normalize; apply truncate_length; lia. Qed.
End ContextPackDedup.

Section ContextPackDedupTheorem.
Context {L : GoLib} {S : Type}.
Import types.

(** C9. In a context pack, two ranked entries with the same normalized
    display text (lower-cased, white space runs collapsed, truncated to
    180 characters) contribute at most one line, that of the first in
    rank order: the text, the ids and the token total of the pack are
    those of a selection of the ranked results in which no entry is
    selected when an earlier entry has the same key. *)
Theorem ContextPack_deduplicates (s : memory.Service S) (st st' : S)
  (now : Time) (in_ : ContextPackInput.t) (pack : ContextPack.t) :
  memory.ContextPack s st now in_ = (st', Ok pack) ->
  exists results flags,
    memory.Search s st now (packSearchInput s in_) = (st', Ok results)
    /\ length flags = length results
    /\ ContextPack.Text pack
       = Join (map lineOf (select flags results)) [10%N]
    /\ ContextPack.MemoryIDs pack
       = map (fun r => MemoryRecord.ID (SearchResult.Record_ r))
           (select flags results)
    /\ ContextPack.EstimatedTokens pack
       = fold_left int_add
           (map (fun r => memory.estimateTokens (lineOf r))
              (select flags results)) 0
    /\ (forall i j ri rj,
           (i < j)%nat ->
           nth_error results i = Some ri ->
           nth_error results j = Some rj ->
           memory.displayText ri <> [] ->
           memory.normalize (memory.displayText ri)
           = memory.normalize (memory.displayText rj) ->
           nth j flags false = false)
    /\ (forall r, (length (memory.normalize (memory.displayText r)) <= 180)%nat).
Proof.
  intros H.
  destruct (ContextPack_inversion _ _ _ _ _ _ H) as (results & Hs & ->).
  set (budget := memory.packBudget (ContextPackInput.TokenBudget in_)).
  set (p0 := memory.pack.mk [] [] [] 0).
  exists results, (chosen budget results p0).
  destruct (packLoop_chosen budget results p0) as (Hl & Hi & Ht).
  cbn [ContextPack.Text ContextPack.MemoryIDs ContextPack.EstimatedTokens].
  rewrite Hl, Hi, Ht.
  repeat split; auto using chosen_length.
  - intros i j ri rj Hlt Hri Hrj Hne Hkey.
    destruct (nth j (chosen budget results p0) false) eqn:Hc; [|reflexivity].
    destruct (chosen_first budget results p0 j rj Hrj Hc) as [_ Hf].
    exfalso; apply (Hf i ri Hlt Hri Hne). exact Hkey.
  - intros r; apply normalize_length.
Qed.
End ContextPackDedupTheorem.

Lemma ContextPack_deduplicates_witness :
  memory.ContextPack (L := asciiLib) fixture.service fixture.withRepetition
    fixture.t0 fixture.wideRequest
  = (fixture.withRepetition, Ok fixture.withoutRepetition)
  /\ exists results flags,
       memory.Search (L := asciiLib) fixture.service fixture.withRepetition
         fixture.t0 (packSearchInput fixture.service fixture.wideRequest)
       = (fixture.withRepetition, Ok results)
       /\ length flags = length results
       /\ types.ContextPack.MemoryIDs fixture.withoutRepetition
          = map (fun r => types.MemoryRecord.ID (types.SearchResult.Record_ r))
              (select flags results).
Proof.
  assert (E : memory.ContextPack (L := asciiLib) fixture.service
                fixture.withRepetition fixture.t0 fixture.wideRequest
              = (fixture.withRepetition, Ok fixture.withoutRepetition))
    by (vm_compute; reflexivity).
  split; [exact E|].
  destruct (ContextPack_deduplicates (L := asciiLib) fixture.service
              fixture.withRepetition fixture.withRepetition fixture.t0
              fixture.wideRequest fixture.withoutRepetition E)
    as (results & flags & Hs & Hlen & _ & Hids & _).
  exists results, flags; auto.
Defined.

(** ** The order of binary64 values

    [<?] on floats that are not NaN is a strict weak order: two floats
    compare as their keys do in the lexicographic order of integer
    triples. *)

Definition sfKey (f : spec_float) : Z * Z * Z :=
  match f with
  | S754_nan => (0, 0, 0)
  | S754_zero _ => (0, 0, 0)
  | S754_infinity true => (-2, 0, 0)
  | S754_infinity false => (2, 0, 0)
  | S754_finite true m e => (-1, - e, - Zpos m)
  | S754_finite false m e => (1, e, Zpos m)
  end.

Definition lexLt (a b : Z * Z * Z) : Prop :=
  let '(a1, a2, a3) := a in
  let '(b1, b2, b3) := b in
  a1 < b1 \/ (a1 = b1 /\ (a2 < b2 \/ (a2 = b2 /\ a3 < b3))).

Ltac float_cases :=
  repeat match goal with
         | |- context [Z.compare ?a ?b] =>
             destruct (Z.compare_spec a b); cbn
         | |- context [Pos.compare_cont Eq ?a ?b] =>
             change (Pos.compare_cont Eq a b) with (Pos.compare a b);
             destruct (Pos.compare_spec a b); cbn
         end.

Lemma SFcompare_lex (a b : spec_float) :
  a <> S754_nan -> b <> S754_nan ->
  (SFcompare a b = Some Lt <-> lexLt (sfKey a) (sfKey b))
  /\ (SFcompare a b = Some Eq <-> sfKey a = sfKey b)
  /\ (SFcompare a b = Some Gt <-> lexLt (sfKey b) (sfKey a)).
Proof.
  intros Ha Hb.
  destruct a as [sa|sa| |sa ma ea]; destruct b as [sb|sb| |sb mb eb];
    try congruence;
    try destruct sa; try destruct sb; cbn; float_cases;
    repeat split; intros Hc; try discriminate; try reflexivity;
    try (injection Hc; intros); try lia; try (subst; reflexivity);
    try (f_equal; lia).
Qed.

Lemma is_nan_Prim2SF (x : float) :
  is_nan x = false <-> Prim2SF x <> S754_nan.
Proof.
  unfold is_nan. rewrite negb_false_iff, eqb_spec. unfold SFeqb.
  destruct (Prim2SF x) as [s|s| |s m e]; cbn.
  - split; [discriminate | reflexivity].
  - destruct s; split; try discriminate; reflexivity.
  - split; [discriminate | congruence].
  - destruct s; rewrite Z.compare_refl;
      change (Pos.compare_cont Eq m m) with (Pos.compare m m);
      rewrite Pos.compare_refl; cbn; split; try discriminate; reflexivity.
Qed.

Lemma ltb_lex (x y : float) :
  is_nan x = false -> is_nan y = false ->
  ((x <? y)%float = true <-> lexLt (sfKey (Prim2SF x)) (sfKey (Prim2SF y))).
Proof.
  intros Hx Hy. apply is_nan_Prim2SF in Hx, Hy.
  destruct (SFcompare_lex _ _ Hx Hy) as (Hlt & Heq & Hgt).
  rewrite ltb_spec; unfold SFltb. rewrite <- Hlt.
  destruct (SFcompare (Prim2SF x) (Prim2SF y)) as [[| |]|];
    split; congruence.
Qed.

Lemma ltb_true_not_nan (x y : float) :
  (x <? y)%float = true -> is_nan x = false /\ is_nan y = false.
Proof.
  rewrite ltb_spec; unfold SFltb; intros H.
  split; apply is_nan_Prim2SF; intros E; rewrite E in H;
    [|destruct (Prim2SF x)]; discriminate.
Qed.

Lemma ltb_asym (x y : float) :
  (x <? y)%float = true -> (y <? x)%float = false.
Proof.
  intros H. destruct (ltb_true_not_nan _ _ H) as [Hx Hy].
  apply (ltb_lex _ _ Hx Hy) in H.
  destruct (y <? x)%float eqn:E; [|reflexivity].
  apply (ltb_lex _ _ Hy Hx) in E.
  unfold lexLt in *.
  destruct (sfKey (Prim2SF x)) as [[a1 a2] a3].
  destruct (sfKey (Prim2SF y)) as [[b1 b2] b3]. lia.
Qed.

Lemma ltb_negtrans (x y z : float) :
  is_nan y = false -> (x <? z)%float = true ->
  (x <? y)%float = true \/ (y <? z)%float = true.
Proof.
  intros Hy H. destruct (ltb_true_not_nan _ _ H) as [Hx Hz].
  rewrite (ltb_lex _ _ Hx Hy), (ltb_lex _ _ Hy Hz).
  apply (ltb_lex _ _ Hx Hz) in H.
  unfold lexLt in *.
  destruct (sfKey (Prim2SF x)) as [[a1 a2] a3].
  destruct (sfKey (Prim2SF y)) as [[b1 b2] b3].
  destruct (sfKey (Prim2SF z)) as [[c1 c2] c3]. lia.
Qed.

Lemma leb_lex (x y : float) :
  is_nan x = false -> is_nan y = false ->
  ((x <=? y)%float = true
   <-> lexLt (sfKey (Prim2SF x)) (sfKey (Prim2SF y))
       \/ sfKey (Prim2SF x) = sfKey (Prim2SF y)).
Proof.
  intros Hx Hy. apply is_nan_Prim2SF in Hx, Hy.
  destruct (SFcompare_lex _ _ Hx Hy) as (Hlt & Heq & Hgt).
  rewrite leb_spec; unfold SFleb. rewrite <- Hlt, <- Heq.
  destruct (SFcompare (Prim2SF x) (Prim2SF y)) as [[| |]|];
    split; try congruence; try tauto; intros [H|H]; congruence.
Qed.

Lemma eqb_lex (x y : float) :
  is_nan x = false -> is_nan y = false ->
  ((x =? y)%float = true <-> sfKey (Prim2SF x) = sfKey (Prim2SF y)).
Proof.
  intros Hx Hy. apply is_nan_Prim2SF in Hx, Hy.
  destruct (SFcompare_lex _ _ Hx Hy) as (Hlt & Heq & Hgt).
  rewrite eqb_spec; unfold SFeqb. rewrite <- Heq.
  destruct (SFcompare (Prim2SF x) (Prim2SF y)) as [[| |]|];
    split; congruence.
Qed.

Lemma lex_total (a b : Z * Z * Z) : lexLt a b \/ a = b \/ lexLt b a.
Proof.
  destruct a as [[a1 a2] a3], b as [[b1 b2] b3]; unfold lexLt.
  destruct (Z.lt_trichotomy a1 b1) as [|[|]];
    destruct (Z.lt_trichotomy a2 b2) as [|[|]];
    destruct (Z.lt_trichotomy a3 b3) as [|[|]]; subst; auto; lia.
Qed.

Lemma lex_irrefl (a b : Z * Z * Z) : lexLt a b -> a <> b.
Proof.
  destruct a as [[a1 a2] a3], b as [[b1 b2] b3]; unfold lexLt.
  intros H E; inversion E; lia.
Qed.

(** Not below means at least, when neither is NaN. *)
Lemma not_ltb_leb (x y : float) :
  is_nan x = false -> is_nan y = false ->
  (x <? y)%float = false -> (y <=? x)%float = true.
Proof.
  intros Hx Hy H. apply (leb_lex _ _ Hy Hx).
  destruct (lex_total (sfKey (Prim2SF x)) (sfKey (Prim2SF y))) as [Hl|[He|Hg]].
  - apply (ltb_lex _ _ Hx Hy) in Hl. congruence.
  - right; congruence.
  - left; assumption.
Qed.

(** Two floats tie under [<?] exactly when they are equal as floats. *)
Lemma tie_eqb (x y : float) :
  is_nan x = false -> is_nan y = false ->
  (negb (x <? y)%float && negb (y <? x)%float) = (x =? y)%float.
Proof.
  intros Hx Hy.
  pose proof (ltb_lex _ _ Hx Hy) as Hxy. pose proof (ltb_lex _ _ Hy Hx) as Hyx.
  pose proof (eqb_lex _ _ Hx Hy) as He.
  destruct (lex_total (sfKey (Prim2SF x)) (sfKey (Prim2SF y))) as [Hl|[Hq|Hg]].
  - pose proof (lex_irrefl _ _ Hl) as Hn.
    apply Hxy in Hl. rewrite Hl; cbn.
    destruct (x =? y)%float; [|reflexivity].
    exfalso; apply Hn, He; reflexivity.
  - assert (E : (x =? y)%float = true) by (apply He; exact Hq).
    rewrite E.
    assert (E1 : (x <? y)%float = false).
    { apply not_true_iff_false; intros E1.
      apply Hxy in E1. apply lex_irrefl in E1. contradiction. }
    assert (E2 : (y <? x)%float = false).
    { apply not_true_iff_false; intros E2.
      apply Hyx in E2. apply lex_irrefl in E2. congruence. }
    rewrite E1, E2; reflexivity.
  - pose proof (lex_irrefl _ _ Hg) as Hn.
    apply Hyx in Hg. rewrite Hg. rewrite andb_false_r.
    destruct (x =? y)%float; [|reflexivity].
    exfalso; apply Hn; symmetry; apply He; reflexivity.
Qed.

(** ** Ranking *)

Lemma StronglySorted_nth_error (A : Type) (R : A -> A -> Prop) (l : list A) :
  StronglySorted R l ->
  forall i j a b,
    (i < j)%nat -> nth_error l i = Some a -> nth_error l j = Some b -> R a b.
Proof.
  induction 1 as [|x l Hs IH Hx]; intros i j a b Hlt Hi Hj.
  - destruct i; discriminate.
  - destruct j as [|j]; [lia|].
    destruct i as [|i]; simpl in Hi, Hj.
    + inversion Hi; subst.
      rewrite Forall_forall in Hx. apply Hx.
      apply (nth_error_In _ _ Hj).
    + apply (IH i j); [lia | assumption | assumption].
Qed.

Section SearchTheorem.
Context {L : GoLib} {S : Type}.
Import types.

Lemma byScore_asym (a b : SearchResult.t) :
  memory.byScore a b = true -> memory.byScore b a = false.
Proof. unfold memory.byScore; apply ltb_asym. Qed.

Lemma byScore_negtrans (a b c : SearchResult.t) :
  is_nan (SearchResult.Score b) = false ->
  memory.byScore a c = true ->
  memory.byScore a b = true \/ memory.byScore b c = true.
Proof.
  unfold memory.byScore; intros Hb H.
  destruct (ltb_negtrans _ _ _ Hb H); auto.
Qed.

(** The fields of a scored candidate. *)
Definition fused (now : Time) (r : SearchResult.t) : Prop :=
  SearchResult.Score r
  = (0.60 * SearchResult.LexicalScore r + 0.25 * SearchResult.RecencyScore r
     + 0.15 * SearchResult.ImportanceScore r)%float
  /\ SearchResult.ImportanceScore r
     = (float64_of_int (MemoryRecord.Importance (SearchResult.Record_ r))
        / 5.0)%float
  /\ SearchResult.RecencyScore r
     = (let days :=
          (Duration_Hours
             (Time_Sub now (MemoryRecord.CreatedAt (SearchResult.Record_ r)))
           / 24.0)%float in
        if (days <=? 0)%float then 1.0%float
        else math_Exp (- days / 14.0)%float).

Lemma scoreCandidate_fused (now : Time) (c : store.Candidate.t) :
  fused now (memory.scoreCandidate now c)
  /\ fused now (memory.stripMetadata (memory.scoreCandidate now c)).
Proof. repeat split. Qed.

(** C2. Every result of a search carries the fused score
    0.60*lexical + 0.25*recency + 0.15*(importance/5), with recency
    exp(-days/14) and 1.0 when no time has elapsed; the results are the
    first K of the scored candidates sorted by descending score, ties
    kept in the order the store returned them; K is the configured
    default for a non-positive request and never more than 100.  The
    scores are taken not to be NaN, as they are for lexical scores in
    [0,1]. *)
Theorem Search_ranks_by_fused_score (s : memory.Service S) (st st' : S)
  (now : Time) (in_ : SearchInput.t) (results : list SearchResult.t) :
  let k :=
    Z.min 100 (if SearchInput.K in_ <=? 0
               then config.DefaultSearchK (memory.cfg s)
               else SearchInput.K in_) in
  (forall cands,
      store.SearchCandidates (memory.store s) st (SearchInput.Namespace in_)
        (SearchInput.Query in_) (searchScope in_) (int_mul k 3) now
      = (st', Ok cands) ->
      Forall (fun c =>
                is_nan (SearchResult.Score (memory.scoreCandidate now c))
                = false) cands) ->
  memory.Search s st now in_ = (st', Ok results) ->
  exists cands ranked,
    store.SearchCandidates (memory.store s) st (SearchInput.Namespace in_)
      (SearchInput.Query in_) (searchScope in_) (int_mul k 3) now
    = (st', Ok cands)
    /\ Permutation ranked (map (memory.scoreCandidate now) cands)
    /\ (forall i j a b,
           (i < j)%nat ->
           nth_error ranked i = Some a -> nth_error ranked j = Some b ->
           (SearchResult.Score b <=? SearchResult.Score a)%float = true)
    /\ (forall x,
           In x ranked ->
           filter (fun y => (SearchResult.Score x =? SearchResult.Score y)%float)
             ranked
           = filter
               (fun y => (SearchResult.Score x =? SearchResult.Score y)%float)
               (map (memory.scoreCandidate now) cands))
    /\ results
       = (if SearchInput.IncludeMetadata in_
          then firstn (Z.to_nat k) ranked
          else map memory.stripMetadata (firstn (Z.to_nat k) ranked))
    /\ Forall (fused now) results.
Proof.
  intros k Hnan H.
  destruct (Search_inversion _ _ _ _ _ _ H) as (cands & top & Hc & Hcut & ->).
  rewrite searchK_spec in Hc, Hcut. fold k in Hc, Hcut.
  specialize (Hnan cands Hc).
  set (scored := map (memory.scoreCandidate now) cands) in *.
  set (ranked := SliceStable memory.byScore scored) in *.
  assert (Hperm : Permutation ranked scored)
    by apply SliceStable_perm.
  assert (HP : Forall (fun r => is_nan (SearchResult.Score r) = false) scored).
  { subst scored. rewrite Forall_map. exact Hnan. }
  assert (HPr : Forall (fun r => is_nan (SearchResult.Score r) = false) ranked).
  { apply (Permutation_Forall (Permutation_sym Hperm)). exact HP. }
  apply cut_Ok in Hcut. destruct Hcut as [-> _].
  exists cands, ranked. split; [exact Hc|]. split; [exact Hperm|].
  split; [|split; [|split; [reflexivity|]]].
  - intros i j a b Hlt Hi Hj.
    rewrite Forall_forall in HPr.
    apply not_ltb_leb;
      [apply HPr, (nth_error_In _ _ Hi) | apply HPr, (nth_error_In _ _ Hj) |].
    pose proof (SliceStable_descending _ memory.byScore
                  (fun r => is_nan (SearchResult.Score r) = false)
                  byScore_asym byScore_negtrans scored HP) as Hs.
    apply (StronglySorted_nth_error _ _ _ Hs i j a b Hlt Hi Hj).
  - intros x Hx.
    assert (Px : is_nan (SearchResult.Score x) = false).
    { rewrite Forall_forall in HPr. apply HPr, Hx. }
    pose proof (SliceStable_stable _ memory.byScore
                  (fun r => is_nan (SearchResult.Score r) = false)
                  byScore_negtrans x scored Px) as Hst.
    fold ranked in Hst.
    rewrite (filter_ext_in
               (fun y => (SearchResult.Score x =? SearchResult.Score y)%float)
               (tie _ memory.byScore x) ranked).
    + rewrite Hst. apply filter_ext_in.
      intros y Hy. unfold tie, memory.byScore.
      rewrite Forall_forall in HP.
      rewrite andb_comm. apply tie_eqb; [exact Px | apply HP, Hy].
    + intros y Hy. unfold tie, memory.byScore.
      rewrite Forall_forall in HPr.
      rewrite andb_comm. symmetry. apply tie_eqb; [exact Px | apply HPr, Hy].
  - assert (Hin : forall r, In r (firstn (Z.to_nat k) ranked) ->
                            exists c, r = memory.scoreCandidate now c).
    { intros r Hr. apply In_firstn in Hr.
      apply (Permutation_in _ Hperm) in Hr.
      subst scored. apply in_map_iff in Hr. destruct Hr as [c [E _]].
      exists c; auto. }
    destruct (SearchInput.IncludeMetadata in_).
    + rewrite Forall_forall; intros r Hr.
      destruct (Hin r Hr) as [c ->]. apply scoreCandidate_fused.
    + rewrite Forall_map. rewrite Forall_forall; intros r Hr.
      destruct (Hin r Hr) as [c ->]. apply scoreCandidate_fused.
Qed.
End SearchTheorem.

Lemma Search_ranks_by_fused_score_witness :
  exists results,
    memory.Search (L := asciiLib) fixture.service fixture.withRepetition
      (fixture.t0 + 3 * Hour) fixture.searchRequest
    = (fixture.withRepetition, Ok results)
    /\ length results = 2%nat
    /\ Forall (fused (L := asciiLib) (fixture.t0 + 3 * Hour)) results.
Proof.
  pose (r := snd (memory.Search (L := asciiLib) fixture.service
                    fixture.withRepetition (fixture.t0 + 3 * Hour)
                    fixture.searchRequest)).
  pose (results := match r with Ok x => x | _ => [] end).
  assert (E : memory.Search (L := asciiLib) fixture.service
                fixture.withRepetition (fixture.t0 + 3 * Hour)
                fixture.searchRequest
              = (fixture.withRepetition, Ok results))
    by (vm_compute; reflexivity).
  exists results. split; [exact E|]. split; [vm_compute; reflexivity|].
  assert (Hnan : forall cands,
             store.SearchCandidates (memory.store fixture.service)
               fixture.withRepetition
               (types.SearchInput.Namespace fixture.searchRequest)
               (types.SearchInput.Query fixture.searchRequest)
               (searchScope (L := asciiLib) fixture.searchRequest)
               (int_mul
                  (Z.min 100
                     (if types.SearchInput.K fixture.searchRequest <=? 0
                      then config.DefaultSearchK (memory.cfg fixture.service)
                      else types.SearchInput.K fixture.searchRequest)) 3)
               (fixture.t0 + 3 * Hour)
             = (fixture.withRepetition, Ok cands) ->
             Forall (fun c =>
                       is_nan (types.SearchResult.Score
                                 (memory.scoreCandidate (L := asciiLib)
                                    (fixture.t0 + 3 * Hour) c))
                       = false) cands).
  { intros cands Hc; vm_compute in Hc; injection Hc as <-.
    repeat (constructor; [vm_compute; reflexivity|]). constructor. }
  destruct (Search_ranks_by_fused_score (L := asciiLib) fixture.service
              fixture.withRepetition fixture.withRepetition
              (fixture.t0 + 3 * Hour) fixture.searchRequest results Hnan E)
    as (cands & ranked & _ & _ & _ & _ & _ & Hf).
  exact Hf.
Defined.

(** ** Writing *)

Section WriteTheorem.
Context {L : GoLib} {F : store.FTS5}.
Import types.

(** The service over the SQLite store, as [main] builds it. *)
Definition sqliteService (cfg : config.Config) (expr : gostring -> bool)
  : memory.Service store.DB.t :=
  {| memory.store := store.sqlite;
     memory.cfg := cfg;
     memory.namespaceExpr := expr |}.

Lemma InsertMemory_returns_record (db db' : store.DB.t)
  (rec stored : MemoryRecord.t) :
  store.SQLiteStore.InsertMemory db rec = (db', Ok stored) ->
  stored = rec
  /\ store.DB.memories db' = store.DB.memories db ++ [store.rowOfRecord rec]
  /\ store.hasID (MemoryRecord.ID rec) (store.DB.memories db) = false.
Proof.
  unfold store.SQLiteStore.InsertMemory.
  destruct (store.hasID _ _) eqn:Hid; simpl; [discriminate|].
  destruct (negb _); [discriminate|].
  intros H; inversion H; subst; auto.
Qed.

(** C4. A write that succeeds returns an entry whose scope is "long"
    when the request says so (up to case and surrounding white space)
    and "short" otherwise; the entry has an expiry exactly when its
    scope is "short"; its importance is the requested one when that
    lies between 1 and 5, and 3 otherwise. *)
Theorem Write_scope_expiry_importance (cfg : config.Config)
  (expr : gostring -> bool) (db db' : store.DB.t) (now : Time)
  (newID : gostring) (in_ : WriteInput.t) (rec : MemoryRecord.t) :
  memory.Write (sqliteService cfg expr) db now newID in_ = (db', Ok rec) ->
  let requested := TrimSpace (ToLower (WriteInput.Scope in_)) in
  ((requested = str "long" /\ MemoryRecord.Scope rec = str "long")
   \/ (requested <> str "long" /\ MemoryRecord.Scope rec = str "short"))
  /\ (MemoryRecord.ExpiresAt rec <> None
      <-> MemoryRecord.Scope rec = str "short")
  /\ MemoryRecord.Importance rec
     = (if (1 <=? WriteInput.Importance in_)
           && (WriteInput.Importance in_ <=? 5)
        then WriteInput.Importance in_ else 3).
Proof.
  unfold memory.Write.
  destruct (memory.validateNamespace _ _); [discriminate|].
  set (requested := TrimSpace (ToLower (WriteInput.Scope in_))).
  set (scope := if isEmpty requested then str "short" else requested).
  destruct (negb (gostring_eqb scope (str "short"))
            && negb (gostring_eqb scope (str "long"))) eqn:Hvalid;
    [discriminate|].
  destruct (isEmpty (TrimSpace (WriteInput.Content in_))); [discriminate|].
  cbn [memory.store sqliteService store.InsertMemory store.sqlite].
  intros H. apply InsertMemory_returns_record in H.
  destruct H as (-> & _ & _).
  cbn [MemoryRecord.Scope MemoryRecord.ExpiresAt MemoryRecord.Importance].
  assert (Hscope : (scope = str "long" /\ requested = str "long")
                   \/ (scope = str "short" /\ requested <> str "long")).
  { apply andb_false_iff in Hvalid.
    rewrite !negb_false_iff, !gostring_eqb_eq in Hvalid.
    subst scope. destruct (isEmpty requested) eqn:He.
    - apply isEmpty_true in He. right; split; [reflexivity|].
      rewrite He; discriminate.
    - destruct Hvalid as [Hs|Hl].
      + right; split; [exact Hs|]. rewrite Hs; discriminate.
      + left; split; exact Hl. }
  repeat split.
  - destruct Hscope as [[Hs Hr]|[Hs Hr]]; [left | right]; auto.
  - destruct (gostring_eqb scope (str "short")) eqn:E.
    + intros _. apply gostring_eqb_eq. exact E.
    + intros Hn. exfalso; apply Hn; reflexivity.
  - intros Hs. apply gostring_eqb_eq in Hs. rewrite Hs. discriminate.
  - destruct (Z.ltb_spec (WriteInput.Importance in_) 1);
      destruct (Z.gtb_spec (WriteInput.Importance in_) 5);
      destruct (Z.leb_spec 1 (WriteInput.Importance in_));
      destruct (Z.leb_spec (WriteInput.Importance in_) 5);
      simpl; lia.
Qed.
End WriteTheorem.

Lemma Write_scope_expiry_importance_witness :
  memory.Write (L := asciiLib)
    (sqliteService (L := asciiLib) (F := fixture.noFTS) config.Default
       (fun _ => true))
    fixture.twoSummaries fixture.t0 (str "m-1") fixture.writeRequest
  = (fst (store.SQLiteStore.InsertMemory fixture.twoSummaries fixture.written),
     Ok fixture.written)
  /\ (types.MemoryRecord.ExpiresAt fixture.written <> None
      <-> types.MemoryRecord.Scope fixture.written = str "short").
Proof.
  assert (E : memory.Write (L := asciiLib)
                (sqliteService (L := asciiLib) (F := fixture.noFTS)
                   config.Default (fun _ => true))
                fixture.twoSummaries fixture.t0 (str "m-1")
                fixture.writeRequest
              = (fst (store.SQLiteStore.InsertMemory fixture.twoSummaries
                        fixture.written),
                 Ok fixture.written))
    by (vm_compute; reflexivity).
  split; [exact E|].
  destruct (Write_scope_expiry_importance (L := asciiLib) (F := fixture.noFTS)
              config.Default (fun _ => true) fixture.twoSummaries _
              fixture.t0 (str "m-1") fixture.writeRequest fixture.written E)
    as (_ & Hexp & _).
  exact Hexp.
Defined.

(** ** The expiry sweep *)

Section ExpireFacts.
Import types.



(** The sweep removes the rows that satisfy the WHERE clause of its
    DELETE, keeps the others, and reports how many it removed. *)
Lemma ExpireShort_removes (db : store.DB.t) (now : Time) :
  exists db',
    store.SQLiteStore.ExpireShort db now
    = (db', Ok (len (filter (store.SQLiteStore.expired now)
                       (store.DB.memories db))))
    /\ store.DB.memories db'
       = filter (fun r => negb (store.SQLiteStore.expired now r))
           (store.DB.memories db).
Proof. eexists; split; reflexivity. Qed.

(** No long entry and no entry without an expiry is removed. *)
Lemma ExpireShort_keeps_long (db : store.DB.t) (now : Time) (r : store.Row.t) :
  In r (store.DB.memories db) ->
  store.Row.scope r <> str "short" \/ store.Row.expires_at r = None ->
  In r (store.DB.memories (fst (store.SQLiteStore.ExpireShort db now))).
Proof.
  intros Hin Hr. simpl. apply filter_In. split; [exact Hin|].
  unfold store.SQLiteStore.expired.
  destruct Hr as [Hs|He].
  - apply gostring_eqb_neq in Hs. rewrite Hs. reflexivity.
  - rewrite He. rewrite andb_false_r. reflexivity.
Qed.


(** C3. The sweep compares the stored text of [expires_at] with the
    text of the sweep time, and RFC3339Nano drops trailing zeros of the
    fractional second: run at 00:00:00.5 it deletes a short entry that
    expires at 00:00:00.51, ten milliseconds later; run at 00:00:00.51
    it keeps a short entry that expired at 00:00:00.5. *)
Theorem ExpireShort_compares_text :
  fixture.sweepEarly < fixture.expiresLater
  /\ store.SQLiteStore.ExpireShort fixture.notYetExpired fixture.sweepEarly
     = (fixture.emptyDB, Ok 1)
  /\ fixture.expiredBefore <= fixture.sweepLate
  /\ store.SQLiteStore.ExpireShort fixture.alreadyExpired fixture.sweepLate
     = (fixture.alreadyExpired, Ok 0)
  /\ store.sqlText fixture.expiresLater = str "2026-01-01T00:00:00.51Z"
  /\ store.sqlText fixture.sweepEarly = str "2026-01-01T00:00:00.5Z".
Proof. repeat split; vm_compute; congruence. Qed.
End ExpireFacts.

(** ** Promotion *)

Section PromoteFacts.
Context {L : GoLib} {F : store.FTS5}.
Import types.

(** The operations of the service, with the clock reading and the id
    each one takes. *)
Inductive op : Type :=
| OpWrite (now : Time) (newID : gostring) (in_ : WriteInput.t)
| OpSearch (now : Time) (in_ : SearchInput.t)
| OpContextPack (now : Time) (in_ : ContextPackInput.t)
| OpPromote (now : Time) (in_ : PromoteInput.t)
| OpExpire (now : Time).

(** The database after an operation of the service over SQLite. *)
Definition after (cfg : config.Config) (expr : gostring -> bool)
  (o : op) (db : store.DB.t) : store.DB.t :=
  match o with
  | OpWrite now newID in_ =>
      fst (memory.Write (sqliteService cfg expr) db now newID in_)
  | OpSearch now in_ => fst (memory.Search (sqliteService cfg expr) db now in_)
  | OpContextPack now in_ =>
      fst (memory.ContextPack (sqliteService cfg expr) db now in_)
  | OpPromote now in_ =>
      fst (memory.Promote (sqliteService cfg expr) db now in_)
  | OpExpire now => fst (memory.ExpireShort (sqliteService cfg expr) db now)
  end.

(** Once [promoted_at] is set, the row is long and has no expiry. *)
Definition promotedRowsAreLong (db : store.DB.t) : Prop :=
  forall r,
    In r (store.DB.memories db) ->
    store.Row.promoted_at r <> None ->
    store.Row.scope r = str "long" /\ store.Row.expires_at r = None.

Lemma Search_keeps_db (cfg : config.Config) (expr : gostring -> bool)
  (db : store.DB.t) (now : Time) (in_ : SearchInput.t) :
  fst (memory.Search (sqliteService cfg expr) db now in_) = db.
Proof.
  unfold memory.Search.
  destruct (memory.validateNamespace _ _); [reflexivity|].
  match goal with
  | |- context [if ?c then _ else _] => destruct c; [reflexivity|]
  end.
  reflexivity.
Qed.

Lemma ContextPack_keeps_db (cfg : config.Config) (expr : gostring -> bool)
  (db : store.DB.t) (now : Time) (in_ : ContextPackInput.t) :
  fst (memory.ContextPack (sqliteService cfg expr) db now in_) = db.
Proof.
  unfold memory.ContextPack.
  match goal with
  | |- context [memory.Search ?s ?d ?n ?i] =>
      pose proof (Search_keeps_db cfg expr d n i) as H;
      destruct (memory.Search s d n i) as [st' found]
  end.
  exact H.
Qed.

Lemma Write_appends (cfg : config.Config) (expr : gostring -> bool)
  (db : store.DB.t) (now : Time) (newID : gostring) (in_ : WriteInput.t) :
  let db' := fst (memory.Write (sqliteService cfg expr) db now newID in_) in
  db' = db
  \/ exists rec,
       MemoryRecord.PromotedAt rec = None
       /\ store.DB.memories db' = store.DB.memories db ++ [store.rowOfRecord rec].
Proof.
  unfold memory.Write.
  destruct (memory.validateNamespace _ _); [left; reflexivity|].
  match goal with
  | |- context [if ?c then _ else _] => destruct c; [left; reflexivity|]
  end.
  match goal with
  | |- context [if ?c then _ else _] => destruct c; [left; reflexivity|]
  end.
  cbn [memory.store sqliteService store.InsertMemory store.sqlite].
  unfold store.SQLiteStore.InsertMemory.
  match goal with
  | |- context [if ?c then _ else _] => destruct c; [left; reflexivity|]
  end.
  right. eexists. split; [|reflexivity]. reflexivity.
Qed.

(** The rows after the UPDATE of a promotion. *)
Definition promoteRows (id : gostring) (now : Time) (rows : list store.Row.t)
  : list store.Row.t :=
  map (fun r => if gostring_eqb (store.Row.id r) id
                then store.SQLiteStore.promoteRow now r else r) rows.

Lemma Promote_updates (cfg : config.Config) (expr : gostring -> bool)
  (db : store.DB.t) (now : Time) (in_ : PromoteInput.t) :
  let db' := fst (memory.Promote (sqliteService cfg expr) db now in_) in
  db' = db
  \/ store.DB.memories db'
     = promoteRows (PromoteInput.MemoryID in_) now (store.DB.memories db).
Proof.
  unfold memory.Promote.
  destruct (isEmpty (TrimSpace _)); [left; reflexivity|].
  match goal with
  | |- context [if ?c then _ else _] => destruct c; [left; reflexivity|]
  end.
  cbn [memory.store sqliteService store.Promote store.sqlite
         store.GetMemory].
  unfold store.SQLiteStore.Promote.
  match goal with
  | |- context [if ?c then Some ErrNoRows else None] => destruct c
  end; right; reflexivity.
Qed.

Lemma promoteRows_In (id : gostring) (now : Time) (rows : list store.Row.t)
  (r' : store.Row.t) :
  In r' (promoteRows id now rows) ->
  (In r' rows /\ store.Row.id r' <> id)
  \/ exists r0, In r0 rows /\ store.Row.id r0 = id
                /\ r' = store.SQLiteStore.promoteRow now r0.
Proof.
  unfold promoteRows. rewrite in_map_iff. intros [r0 [E Hin]].
  destruct (gostring_eqb (store.Row.id r0) id) eqn:Hid.
  - right. exists r0. apply gostring_eqb_eq in Hid. auto.
  - left. subst r'. apply gostring_eqb_neq in Hid. auto.
Qed.

Lemma promoteRows_keeps (id : gostring) (now : Time)
  (rows : list store.Row.t) (r : store.Row.t) :
  In r rows -> store.Row.id r <> id -> In r (promoteRows id now rows).
Proof.
  intros Hin Hid. unfold promoteRows. apply in_map_iff.
  exists r. apply gostring_eqb_neq in Hid. rewrite Hid. auto.
Qed.
End PromoteFacts.

Section PromoteTheorem.
Context {L : GoLib} {F : store.FTS5}.
Import types.

Lemma Promote_result (cfg : config.Config) (expr : gostring -> bool)
  (db db' : store.DB.t) (now : Time) (in_ : PromoteInput.t)
  (rec : MemoryRecord.t) :
  memory.Promote (sqliteService cfg expr) db now in_ = (db', Ok rec) ->
  MemoryRecord.Scope rec = str "long"
  /\ MemoryRecord.ExpiresAt rec = None
  /\ MemoryRecord.PromotedAt rec = Some now.
Proof.
  unfold memory.Promote.
  destruct (isEmpty (TrimSpace _)); [discriminate|].
  match goal with
  | |- context [if ?c then _ else _] => destruct c; [discriminate|]
  end.
  cbn [memory.store sqliteService store.Promote store.sqlite
         store.GetMemory].
  unfold store.SQLiteStore.Promote.
  match goal with
  | |- context [if ?c then Some ErrNoRows else None] => destruct c
  end; [discriminate|].
  unfold store.SQLiteStore.GetMemory. cbn [store.DB.memories].
  fold (promoteRows (PromoteInput.MemoryID in_) now (store.DB.memories db)).
  destruct (find _ _) as [r'|] eqn:Hfind; [|discriminate].
  intros H; inversion H; subst.
  apply find_some in Hfind. destruct Hfind as [Hin Hid].
  apply gostring_eqb_eq in Hid.
  apply promoteRows_In in Hin.
  destruct Hin as [[_ Hne]|[r0 [_ [_ ->]]]]; [contradiction|].
  repeat split.
Qed.

(** C6, as the code has it.  [promoted_at] is set by a promote call
    and by nothing else: a row with [promoted_at] set after an
    operation either had it before, unchanged, or is the row the
    promote call just rewrote (whatever its scope was); the promote
    call returns the entry with scope "long", no expiry and
    [promotedAt] equal to the time of the call; a row with
    [promoted_at] set is long and has no expiry, and every operation
    other than a promote call on its id leaves it in place. *)
Theorem promotedAt_follows_promote (cfg : config.Config)
  (expr : gostring -> bool) (o : op) (db : store.DB.t) :
  promotedRowsAreLong db ->
  promotedRowsAreLong (after cfg expr o db)
  /\ (forall r',
         In r' (store.DB.memories (after cfg expr o db)) ->
         store.Row.promoted_at r' <> None ->
         In r' (store.DB.memories db)
         \/ exists now in_ r0,
              o = OpPromote now in_
              /\ In r0 (store.DB.memories db)
              /\ store.Row.id r0 = PromoteInput.MemoryID in_
              /\ r' = store.SQLiteStore.promoteRow now r0)
  /\ (forall r,
         In r (store.DB.memories db) ->
         store.Row.promoted_at r <> None ->
         (forall now in_,
             o = OpPromote now in_ ->
             PromoteInput.MemoryID in_ <> store.Row.id r) ->
         In r (store.DB.memories (after cfg expr o db)))
  /\ (forall now in_ db' rec,
         memory.Promote (sqliteService cfg expr) db now in_ = (db', Ok rec) ->
         MemoryRecord.Scope rec = str "long"
         /\ MemoryRecord.ExpiresAt rec = None
         /\ MemoryRecord.PromotedAt rec = Some now).
Proof.
  intros Inv.
  assert (Hsrc : forall r',
             In r' (store.DB.memories (after cfg expr o db)) ->
             store.Row.promoted_at r' <> None ->
             In r' (store.DB.memories db)
             \/ exists now in_ r0,
                  o = OpPromote now in_
                  /\ In r0 (store.DB.memories db)
                  /\ store.Row.id r0 = PromoteInput.MemoryID in_
                  /\ r' = store.SQLiteStore.promoteRow now r0).
  { intros r' Hin Hp. destruct o as [now id in_|now in_|now in_|now in_|now];
      cbn [after] in Hin.
    - destruct (Write_appends cfg expr db now id in_) as [E|[rec [Hn E]]].
      + rewrite E in Hin. left; exact Hin.
      + rewrite E in Hin. apply in_app_or in Hin.
        destruct Hin as [Hin|[<-|[]]]; [left; exact Hin|].
        exfalso; apply Hp. exact Hn.
    - rewrite Search_keeps_db in Hin. left; exact Hin.
    - rewrite ContextPack_keeps_db in Hin. left; exact Hin.
    - destruct (Promote_updates cfg expr db now in_) as [E|E].
      + rewrite E in Hin. left; exact Hin.
      + rewrite E in Hin. apply promoteRows_In in Hin.
        destruct Hin as [[Hin _]|[r0 [Hin [Hid ->]]]]; [left; exact Hin|].
        right. exists now, in_, r0. auto.
    - cbn in Hin. apply filter_In in Hin. left; apply Hin. }
  split; [|split; [exact Hsrc|split]].
  - intros r' Hin Hp.
    destruct (Hsrc r' Hin Hp) as [Hold|(now & in_ & r0 & _ & _ & _ & ->)].
    + apply Inv; assumption.
    + split; reflexivity.
  - intros r Hin Hp Hother.
    destruct o as [now id in_|now in_|now in_|now in_|now]; cbn [after].
    + destruct (Write_appends cfg expr db now id in_) as [E|[rec [Hn E]]];
        rewrite E; [exact Hin | apply in_or_app; left; exact Hin].
    + rewrite Search_keeps_db. exact Hin.
    + rewrite ContextPack_keeps_db. exact Hin.
    + destruct (Promote_updates cfg expr db now in_) as [E|E]; rewrite E;
        [exact Hin|].
      apply promoteRows_keeps; [exact Hin|].
      intros E'. apply (Hother now in_ eq_refl). symmetry; exact E'.
    + apply (ExpireShort_keeps_long db now r Hin).
      left. destruct (Inv r Hin Hp) as [Hs _]. rewrite Hs. discriminate.
  - intros now in_ db' rec H. apply (Promote_result cfg expr db db' now in_ rec H).
Qed.
End PromoteTheorem.

Lemma promotedAt_follows_promote_witness :
  promotedRowsAreLong fixture.oneShort
  /\ promotedRowsAreLong
       (after (L := asciiLib) (F := fixture.noFTS) config.Default
          (fun _ => true) (OpPromote (fixture.t0 + Hour) fixture.promoteS)
          fixture.oneShort).
Proof.
  assert (Inv : promotedRowsAreLong fixture.oneShort).
  { intros r [<-|[]] Hp. exfalso; apply Hp; reflexivity. }
  split; [exact Inv|].
  apply (promotedAt_follows_promote (L := asciiLib) (F := fixture.noFTS)
           config.Default (fun _ => true)
           (OpPromote (fixture.t0 + Hour) fixture.promoteS)
           fixture.oneShort Inv).
Defined.

(** C6 as stated fails: a second promote call on the same id changes
    [promotedAt] again, and promoting an entry that was written long
    sets [promotedAt] although no short entry became long. *)
Lemma Promote_again_overwrites_promotedAt :
  (exists rec,
      memory.Promote fixture.service fixture.oneShort (fixture.t0 + Hour)
        fixture.promoteS
      = (fixture.promotedOnce, Ok rec)
      /\ types.MemoryRecord.PromotedAt rec = Some (fixture.t0 + Hour))
  /\ (exists db rec,
        memory.Promote fixture.service fixture.promotedOnce
          (fixture.t0 + 2 * Hour) fixture.promoteS
        = (db, Ok rec)
        /\ types.MemoryRecord.PromotedAt rec = Some (fixture.t0 + 2 * Hour)
        /\ fixture.t0 + 2 * Hour <> fixture.t0 + Hour)
  /\ (exists db rec,
        memory.Promote fixture.service fixture.oneLong (fixture.t0 + Hour)
          fixture.promoteL
        = (db, Ok rec)
        /\ types.MemoryRecord.PromotedAt rec = Some (fixture.t0 + Hour)).
Proof.
  split; [|split].
  - eexists. split; vm_compute; reflexivity.
  - do 2 eexists. split; [vm_compute; reflexivity|].
    split; [reflexivity | vm_compute; discriminate].
  - do 2 eexists. split; vm_compute; reflexivity.
Qed.

(** ** LIKE as a substring test *)

Section LikeFacts.

(** [term] occurs in [x], up to the case of ASCII letters. *)
Definition containsFold (term x : gostring) : Prop :=
  exists pre mid post,
    x = pre ++ mid ++ post
    /\ map asciiToLower mid = map asciiToLower term.

(** No [%] and no [_]. *)
Definition noWildcard (term : gostring) : Prop :=
  Forall (fun c => c <> 37%N /\ c <> 95%N) term.

(** [strings.Contains]: the exact substring test. *)
Fixpoint Contains (s substr : gostring) : bool :=
  HasPrefix s substr
  || match s with
     | [] => false
     | _ :: s' => Contains s' substr
     end.

Lemma like_percent_unfold (pattern x : gostring) :
  like (37%N :: pattern) x
  = like pattern x
    || match x with
       | [] => false
       | _ :: x' => like (37%N :: pattern) x'
       end.
Proof. destruct x; reflexivity. Qed.

Lemma like_percent_any (x : gostring) : like [37%N] x = true.
Proof.
  induction x as [|c x IH]; [reflexivity|].
  rewrite like_percent_unfold. rewrite IH. apply orb_true_r.
Qed.

(** A pattern without wildcards followed by [%] matches the strings
    that start with the pattern, up to case. *)
Lemma like_prefix (term x : gostring) :
  noWildcard term ->
  (like (term ++ [37%N]) x = true
   <-> exists mid post, x = mid ++ post
                        /\ map asciiToLower mid = map asciiToLower term).
Proof.
  intros Hw; revert x; induction Hw as [|p term [Hp Hu] Hw IH]; intros x.
  - simpl app. rewrite like_percent_any. split; [|reflexivity].
    intros _. exists [], x. auto.
  - cbn [app like].
    apply N.eqb_neq in Hp. apply N.eqb_neq in Hu. rewrite Hp, Hu.
    cbn [orb]. destruct x as [|c x].
    + split; [discriminate|].
      intros (mid & post & E & Hm). destruct mid; discriminate.
    + rewrite andb_true_iff, N.eqb_eq, IH. split.
      * intros [Hc (mid & post & -> & Hm)].
        exists (c :: mid), post. split; [reflexivity|].
        simpl. congruence.
      * intros (mid & post & E & Hm).
        destruct mid as [|c' mid]; [discriminate|].
        simpl in E, Hm. inversion E; subst. inversion Hm.
        split; [congruence|]. exists mid, post. auto.
Qed.

Lemma like_percent_somewhere (pattern x : gostring) :
  like (37%N :: pattern) x = true
  <-> exists pre suf, x = pre ++ suf /\ like pattern suf = true.
Proof.
  induction x as [|c x IH].
  - rewrite like_percent_unfold, orb_false_r. split.
    + intros H. exists [], []. auto.
    + intros (pre & suf & E & H).
      symmetry in E. apply app_eq_nil in E. destruct E; subst. exact H.
  - rewrite like_percent_unfold, orb_true_iff, IH. split.
    + intros [H|(pre & suf & -> & H)].
      * exists [], (c :: x). auto.
      * exists (c :: pre), suf. auto.
    + intros (pre & suf & E & H). destruct pre as [|c' pre].
      * left. simpl in E. subst. exact H.
      * right. simpl in E. inversion E; subst. exists pre, suf. auto.
Qed.

(** [x LIKE '%term%'] is the substring test up to ASCII case, for a
    term without wildcards. *)
Lemma like_contains (term x : gostring) :
  noWildcard term ->
  (like ([37%N] ++ term ++ [37%N]) x = true <-> containsFold term x).
Proof.
  intros Hw. cbn [app]. rewrite like_percent_somewhere. unfold containsFold.
  split.
  - intros (pre & suf & -> & H). apply (like_prefix term suf Hw) in H.
    destruct H as (mid & post & -> & Hm). exists pre, mid, post. auto.
  - intros (pre & mid & post & -> & Hm). exists pre, (mid ++ post).
    split; [reflexivity|]. apply (like_prefix term _ Hw). exists mid, post. auto.
Qed.
End LikeFacts.

(** ** The order of stored text *)

Section TextOrder.

Lemma text_compare_opp (a b : gostring) :
  text_compare b a = CompOpp (text_compare a b).
Proof.
  revert b; induction a as [|x a IH]; intros [|y b]; simpl; try reflexivity.
  rewrite (N.compare_antisym x y).
  destruct (N.compare x y); simpl; auto.
Qed.

Lemma text_compare_eq (a b : gostring) : text_compare a b = Eq -> a = b.
Proof.
  revert b; induction a as [|x a IH]; intros [|y b]; simpl;
    try discriminate; [reflexivity|].
  destruct (N.compare x y) eqn:E; try discriminate.
  apply N.compare_eq in E. intros H. f_equal; auto.
Qed.

Lemma text_compare_lt_trans (a b c : gostring) :
  text_compare a b = Lt -> text_compare b c = Lt -> text_compare a c = Lt.
Proof.
  revert b c; induction a as [|x a IH]; intros [|y b] [|z c]; simpl;
    try discriminate; try reflexivity.
  destruct (N.compare_spec x y) as [Exy|Lxy|Gxy]; try discriminate;
    destruct (N.compare_spec y z) as [Eyz|Lyz|Gyz]; try discriminate;
    intros H1 H2.
  - subst. rewrite N.compare_refl. apply (IH b c H1 H2).
  - subst. apply N.compare_lt_iff in Lyz. rewrite Lyz. reflexivity.
  - subst. apply N.compare_lt_iff in Lxy. rewrite Lxy. reflexivity.
  - assert (Lxz : (x < z)%N) by lia.
    apply N.compare_lt_iff in Lxz. rewrite Lxz. reflexivity.
Qed.

Lemma text_ltb_asym (a b : gostring) :
  text_ltb a b = true -> text_ltb b a = false.
Proof.
  unfold text_ltb. rewrite (text_compare_opp a b).
  destruct (text_compare a b); simpl; congruence.
Qed.

Lemma text_ltb_negtrans (a b c : gostring) :
  text_ltb a c = true -> text_ltb a b = true \/ text_ltb b c = true.
Proof.
  unfold text_ltb.
  destruct (text_compare a c) eqn:Eac; try discriminate. intros _.
  destruct (text_compare a b) eqn:Eab.
  - apply text_compare_eq in Eab. subst. rewrite Eac. auto.
  - auto.
  - right.
    assert (Eba : text_compare b a = Lt)
      by (rewrite (text_compare_opp a b), Eab; reflexivity).
    rewrite (text_compare_lt_trans b a c Eba Eac). reflexivity.
Qed.
End TextOrder.

(** ** The substring fallback of the search *)

Section FallbackFacts.
Context {L : GoLib} {F : store.FTS5}.
Import types.

(** A property of Go's [unicode] tables: lower-casing a letter or a
    digit never gives [%] or [_]. *)
Definition lettersAreNotWildcards : Prop :=
  forall r,
    unicode_IsLetter r || unicode_IsDigit r = true ->
    unicode_ToLower r <> 37%N /\ unicode_ToLower r <> 95%N.

Lemma flush_noWildcard (sb : gostring) (terms : list gostring) :
  noWildcard sb -> Forall noWildcard terms ->
  Forall noWildcard (store.SQLiteStore.flush sb terms).
Proof.
  intros Hsb Ht. unfold store.SQLiteStore.flush.
  destruct (isEmpty sb); [exact Ht|].
  destruct (existsb _ _); [exact Ht|].
  apply Forall_app. split; [exact Ht | constructor; [exact Hsb | constructor]].
Qed.

Lemma tokenizeLoop_noWildcard (query : gostring) :
  lettersAreNotWildcards ->
  forall sb terms,
    noWildcard sb -> Forall noWildcard terms ->
    Forall noWildcard (store.SQLiteStore.tokenizeLoop query sb terms).
Proof.
  intros Hlib. induction query as [|r query IH]; intros sb terms Hsb Ht.
  - apply flush_noWildcard; assumption.
  - cbn [store.SQLiteStore.tokenizeLoop].
    destruct (unicode_IsLetter r || unicode_IsDigit r) eqn:E.
    + apply IH; [|exact Ht].
      apply Forall_app. split; [exact Hsb|].
      constructor; [apply Hlib; exact E | constructor].
    + apply IH; [constructor | apply flush_noWildcard; assumption].
Qed.

(** The terms of a query hold no wildcard. *)
Lemma tokenizeQueryTerms_noWildcard (query : gostring) :
  lettersAreNotWildcards ->
  Forall noWildcard (store.SQLiteStore.tokenizeQueryTerms query).
Proof.
  intros Hlib. unfold store.SQLiteStore.tokenizeQueryTerms.
  destruct (isEmpty (TrimSpace query)); [constructor|].
  apply tokenizeLoop_noWildcard; [exact Hlib | constructor | constructor].
Qed.

(** The ORDER BY of the fallback: [created_at DESC], on the stored text. *)
Definition newerText (a b : store.Row.t) : bool :=
  text_ltb (store.sqlText (store.Row.created_at b))
    (store.sqlText (store.Row.created_at a)).

(** The WHERE clause of the fallback. *)
Definition likeWhere (namespace query : gostring) (terms : list gostring)
  (scope : gostring) (now : Time) (r : store.Row.t) : bool :=
  store.SQLiteStore.baseWhere namespace scope now r
  && (if negb (isEmpty terms)
      then forallb (fun term => store.SQLiteStore.likeEither term r) terms
      else if negb (isEmpty query)
           then store.SQLiteStore.likeEither query r
           else true).

Lemma searchLIKE_rows (db : store.DB.t) (namespace query : gostring)
  (terms : list gostring) (scope : gostring) (limit : Z) (now : Time) :
  0 <= limit ->
  store.SQLiteStore.searchLIKE db namespace query terms scope limit now
  = Ok (map (fun r =>
               store.Candidate.mk (store.scanMemoryRow r)
                 (if isEmpty query then 0.25%float else 0.4%float))
          (firstn (Z.to_nat limit)
             (SliceStable newerText
                (filter (likeWhere namespace query terms scope now)
                   (store.DB.memories db))))).
Proof.
  intros Hl. unfold store.SQLiteStore.searchLIKE, store.SQLiteStore.sqlLimit.
  destruct (Z.ltb_spec limit 0); [lia | reflexivity].
Qed.

Lemma newerText_descending (rows : list store.Row.t) :
  descending _ newerText (SliceStable newerText rows).
Proof.
  apply (SliceStable_descending _ newerText (fun _ => True)).
  - intros a b. unfold newerText. apply text_ltb_asym.
  - intros a b c _. unfold newerText. intros H.
    destruct (text_ltb_negtrans _ (store.sqlText (store.Row.created_at b)) _ H);
      auto.
  - apply Forall_forall. auto.
Qed.

Lemma likeEither_contains (term : gostring) (r : store.Row.t) :
  noWildcard term ->
  (store.SQLiteStore.likeEither term r = true
   <-> containsFold term (store.Row.content r)
       \/ containsFold term (store.Row.summary r)).
Proof.
  intros Hw. unfold store.SQLiteStore.likeEither.
  rewrite orb_true_iff.
  rewrite (like_contains term (store.Row.content r) Hw).
  rewrite (like_contains term (store.Row.summary r) Hw).
  tauto.
Qed.

(** When a search falls back. *)
Definition fallsBack (db : store.DB.t) (namespace : gostring)
  (terms : list gostring) (scope : gostring) (limit : Z) (now : Time) : Prop :=
  store.DB.ftsEnabled db = false
  \/ terms = []
  \/ (exists e,
         store.SQLiteStore.searchFTS db namespace
           (store.SQLiteStore.buildFTSMatchQuery terms) scope limit now
         = Err e)
  \/ store.SQLiteStore.searchFTS db namespace
       (store.SQLiteStore.buildFTSMatchQuery terms) scope limit now
     = Ok [].

Lemma SearchCandidates_fallback (db : store.DB.t)
  (namespace query scope : gostring) (limit : Z) (now : Time) :
  let q := TrimSpace query in
  let terms := store.SQLiteStore.tokenizeQueryTerms q in
  let lim := if limit <=? 0 then 10 else limit in
  fallsBack db namespace terms scope lim now ->
  store.SQLiteStore.SearchCandidates db namespace query scope limit now
  = (db, store.SQLiteStore.searchLIKE db namespace q terms scope lim now).
Proof.
  intros q terms lim H. unfold store.SQLiteStore.SearchCandidates.
  fold q. fold terms. fold lim.
  destruct (negb (isEmpty terms) && store.DB.ftsEnabled db) eqn:E;
    [|reflexivity].
  apply andb_true_iff in E. destruct E as [Ht He].
  apply negb_true_iff, isEmpty_false in Ht.
  destruct H as [H|[H|[[e H]|H]]]; try congruence; rewrite H; reflexivity.
Qed.
End FallbackFacts.

Section FallbackTheorem.
Context {L : GoLib} {F : store.FTS5}.
Import types.

(** C7, as the code has it.  When the index is unavailable, or the
    query has no token, or the index query fails or returns no row,
    the candidates are those of the LIKE scan: at most [limit] rows of
    the namespace (unexpired, of the requested scope) such that every
    token occurs in the content or in the summary up to the case of
    ASCII letters, or, for a query without tokens and without the
    wildcards [%] and [_], such that the whole trimmed query so
    occurs; every row that passes is returned unless the limit cuts
    the list; the rows come in descending order of their stored
    [created_at] text, which is descending [createdAt] wherever the
    two orders agree; each candidate gets the lexical score 0.4, or
    0.25 when the trimmed query is empty. *)
Theorem SearchCandidates_substring_fallback (db : store.DB.t)
  (namespace query scope : gostring) (limit : Z) (now : Time) :
  let q := TrimSpace query in
  let terms := store.SQLiteStore.tokenizeQueryTerms q in
  let lim := if limit <=? 0 then 10 else limit in
  let found (r : store.Row.t) (term : gostring) :=
    containsFold term (store.Row.content r)
    \/ containsFold term (store.Row.summary r) in
  lettersAreNotWildcards ->
  fallsBack db namespace terms scope lim now ->
  exists rows,
    store.SQLiteStore.SearchCandidates db namespace query scope limit now
    = (db,
       Ok (map (fun r =>
                  store.Candidate.mk (store.scanMemoryRow r)
                    (if isEmpty q then 0.25%float else 0.4%float)) rows))
    /\ len rows <= lim
    /\ (forall r,
           In r rows ->
           In r (store.DB.memories db)
           /\ store.SQLiteStore.baseWhere namespace scope now r = true
           /\ (forall term, In term terms -> found r term)
           /\ (terms = [] -> q <> [] -> noWildcard q -> found r q))
    /\ (forall r,
           len rows < lim ->
           In r (store.DB.memories db) ->
           store.SQLiteStore.baseWhere namespace scope now r = true ->
           (forall term, In term terms -> found r term) ->
           (terms = [] -> q <> [] -> noWildcard q /\ found r q) ->
           In r rows)
    /\ (forall i j a b,
           (i < j)%nat ->
           nth_error rows i = Some a -> nth_error rows j = Some b ->
           text_ltb (store.sqlText (store.Row.created_at a))
             (store.sqlText (store.Row.created_at b)) = false)
    /\ ((forall a b,
            In a rows -> In b rows ->
            (text_ltb (store.sqlText (store.Row.created_at a))
               (store.sqlText (store.Row.created_at b)) = true
             <-> store.Row.created_at a < store.Row.created_at b)) ->
        forall i j a b,
          (i < j)%nat ->
          nth_error rows i = Some a -> nth_error rows j = Some b ->
          store.Row.created_at b <= store.Row.created_at a).
Proof.
  intros q terms lim found Hlib Hfall.
  pose proof (tokenizeQueryTerms_noWildcard q Hlib) as Hterms.
  fold terms in Hterms. rewrite Forall_forall in Hterms.
  set (passing := filter (likeWhere namespace q terms scope now)
                    (store.DB.memories db)).
  set (sorted := SliceStable newerText passing).
  exists (firstn (Z.to_nat lim) sorted).
  assert (Hlim : 1 <= lim).
  { subst lim. destruct (Z.leb_spec limit 0); lia. }
  assert (Hpass : forall r,
             In r passing
             <-> In r (store.DB.memories db)
                 /\ likeWhere namespace q terms scope now r = true).
  { intros r. apply filter_In. }
  assert (Hsorted : forall r, In r sorted <-> In r passing).
  { intros r. split; apply Permutation_in;
      [|apply Permutation_sym]; apply SliceStable_perm. }
  assert (Hwhere : forall r,
             likeWhere namespace q terms scope now r = true
             <-> store.SQLiteStore.baseWhere namespace scope now r = true
                 /\ (forall term, In term terms ->
                                   store.SQLiteStore.likeEither term r = true)
                 /\ (terms = [] -> q <> [] ->
                     store.SQLiteStore.likeEither q r = true)).
  { intros r. unfold likeWhere. rewrite andb_true_iff.
    destruct terms as [|t ts] eqn:Et; cbn [isEmpty negb].
    - destruct (isEmpty q) eqn:Eq; cbn [negb].
      + apply isEmpty_true in Eq. split.
        * intros [Hb _].
          split; [exact Hb | split; [intros ? [] | intros _ Hne; congruence]].
        * intros [Hb _]. auto.
      + apply isEmpty_false in Eq. split.
        * intros [Hb Hl].
          split; [exact Hb | split; [intros ? [] | intros _ _; exact Hl]].
        * intros (Hb & _ & Hl). auto.
    - rewrite forallb_forall. split.
      + intros [Hb Hl].
        split; [exact Hb | split; [exact Hl | intros; discriminate]].
      + intros (Hb & Hl & _). auto. }
  assert (Hdesc : forall i j a b,
             (i < j)%nat ->
             nth_error (firstn (Z.to_nat lim) sorted) i = Some a ->
             nth_error (firstn (Z.to_nat lim) sorted) j = Some b ->
             text_ltb (store.sqlText (store.Row.created_at a))
               (store.sqlText (store.Row.created_at b)) = false).
  { intros i j a b Hlt Hi Hj.
    rewrite nth_error_firstn in Hi, Hj.
    destruct (i <? Z.to_nat lim)%nat; [|discriminate].
    destruct (j <? Z.to_nat lim)%nat; [|discriminate].
    apply (StronglySorted_nth_error _ _ _ (newerText_descending passing)
             i j a b Hlt Hi Hj). }
  split; [|split; [|split; [|split; [|split]]]].
  - rewrite (SearchCandidates_fallback db namespace query scope limit now Hfall).
    rewrite searchLIKE_rows by lia. reflexivity.
  - unfold len. pose proof (firstn_le_length (Z.to_nat lim) sorted). lia.
  - intros r Hr. apply In_firstn in Hr.
    apply Hsorted, Hpass in Hr. destruct Hr as [Hin Hw].
    apply Hwhere in Hw. destruct Hw as (Hb & Ht & Hq).
    split; [exact Hin | split; [exact Hb | split]].
    + intros term Hterm.
      apply (likeEither_contains term r (Hterms term Hterm)).
      apply Ht; exact Hterm.
    + intros E Hne Hnw.
      apply (likeEither_contains q r Hnw). apply Hq; assumption.
  - intros r Hcut Hin Hb Ht Hq.
    assert (Hall : firstn (Z.to_nat lim) sorted = sorted).
    { apply firstn_all2.
      unfold len in Hcut. rewrite length_firstn in Hcut. lia. }
    rewrite Hall. apply Hsorted, Hpass. split; [exact Hin|].
    apply Hwhere. split; [exact Hb | split].
    + intros term Hterm.
      apply (likeEither_contains term r (Hterms term Hterm)).
      apply Ht; exact Hterm.
    + intros E Hne. destruct (Hq E Hne) as [Hnw Hf].
      apply (likeEither_contains q r Hnw). exact Hf.
  - exact Hdesc.
  - intros Hagree i j a b Hlt Hi Hj.
    pose proof (Hdesc i j a b Hlt Hi Hj) as Hd.
    destruct (Z.le_gt_cases (store.Row.created_at b) (store.Row.created_at a))
      as [Hle|Hgt]; [exact Hle|].
    exfalso.
    assert (Ht : text_ltb (store.sqlText (store.Row.created_at a))
                   (store.sqlText (store.Row.created_at b)) = true).
    { apply Hagree;
        [apply (nth_error_In _ _ Hi) | apply (nth_error_In _ _ Hj) | lia]. }
    congruence.
Qed.
End FallbackTheorem.

Lemma asciiLib_lettersAreNotWildcards :
  lettersAreNotWildcards (L := asciiLib).
Proof.
  intros r. cbn [unicode_IsLetter unicode_IsDigit unicode_ToLower asciiLib].
  unfold asciiIsLetter, asciiIsDigit, asciiToLower.
  destruct (N.leb_spec 65 r); destruct (N.leb_spec r 90);
    destruct (N.leb_spec 97 r); destruct (N.leb_spec r 122);
    destruct (N.leb_spec 48 r); destruct (N.leb_spec r 57);
    cbn; intros Hc; try discriminate; lia.
Qed.

Lemma SearchCandidates_substring_fallback_witness :
  lettersAreNotWildcards (L := asciiLib)
  /\ exists rows,
       store.SQLiteStore.SearchCandidates (L := asciiLib) (F := fixture.noFTS)
         fixture.withRepetition (str "org/repo/task") (str "Summary LONG")
         [] 0 fixture.t0
       = (fixture.withRepetition,
          Ok (map (fun r =>
                     store.Candidate.mk (store.scanMemoryRow r) 0.4%float)
                rows))
       /\ len rows <= 10.
Proof.
  split; [exact asciiLib_lettersAreNotWildcards|].
  destruct (SearchCandidates_substring_fallback (L := asciiLib)
              (F := fixture.noFTS) fixture.withRepetition
              (str "org/repo/task") (str "Summary LONG") [] 0 fixture.t0
              asciiLib_lettersAreNotWildcards (or_introl eq_refl))
    as (rows & Hs & Hlen & _).
  exists rows. split; [exact Hs | exact Hlen].
Defined.

(** C7 as stated fails: the token "alpha" is a substring neither of
    the content nor of the summary of the row, and the fallback
    returns the row. *)
Lemma searchLIKE_ignores_case :
  store.SQLiteStore.tokenizeQueryTerms (L := asciiLib) (str "alpha")
  = [str "alpha"]
  /\ store.SQLiteStore.SearchCandidates (L := asciiLib) (F := fixture.noFTS)
       fixture.capitalised (str "org/repo/task") (str "alpha") [] 10 fixture.t0
     = (fixture.capitalised,
        Ok (map (fun r => store.Candidate.mk (store.scanMemoryRow r) 0.4%float)
              (store.DB.memories fixture.capitalised)))
  /\ Contains (str "Alpha deployment issue") (str "alpha") = false
  /\ Contains (str "Alpha issue") (str "alpha") = false.
Proof. repeat split; vm_compute; reflexivity. Qed.

(** ** The transport: replies, records and the handshake *)

Section TransportFacts.
Context {J : mcp.JSON} {L : GoLib} {St : Type}.

(** The response carries the tool-level error flag. *)
Definition toolError (resp : mcp.response.t) : Prop :=
  exists m,
    mcp.response.Result resp = Map m
    /\ index m (str "isError") = Bool true.

(** The response to a message: the parse-error reply, or what [handle]
    returns. *)
Definition responseTo (s : mcp.Server.t St) (e : mcp.env.t)
  (w : mcp.world.t St) (payload : mcp.bytes) (resp : mcp.response.t) : Prop :=
  match mcp.Unmarshal_request payload with
  | Failed err =>
      resp = mcp.errorResponse Nil (-32700) (str "parse error")
               (String (mcp.Error_ err))
  | Done req =>
      exists w1 shouldRespond,
        mcp.handle s e w req = (w1, Ok (resp, shouldRespond))
  end.

Lemma responseSuccessful_false (resp : mcp.response.t) :
  mcp.responseSuccessful resp = false
  <-> (mcp.response.Error resp <> None \/ toolError resp).
Proof.
  unfold mcp.responseSuccessful, toolError.
  destruct (mcp.response.Error resp) as [err|].
  - split; [intros _; left; discriminate | reflexivity].
  - split.
    + intros H. right.
      destruct (mcp.response.Result resp) as [| | | |m| | |]; try discriminate.
      exists m. split; [reflexivity|].
      destruct (index m (str "isError")) as [|b| | | | | |]; try discriminate.
      destruct b; [reflexivity | discriminate].
    + intros [H | (m & Hm & Hi)]; [congruence|].
      rewrite Hm, Hi. reflexivity.
Qed.

Lemma toolCallFailed_nonempty : str "tool call failed" <> [].
Proof. vm_compute; discriminate. Qed.

Lemma responseErrorText_nonempty (resp : mcp.response.t) :
  mcp.responseSuccessful resp = false ->
  (forall err,
      mcp.response.Error resp = Some err ->
      TrimSpace (mcp.rpcError.Message err) <> []) ->
  mcp.responseErrorText resp <> [].
Proof.
  unfold mcp.responseSuccessful, mcp.responseErrorText.
  intros Hs Hmsg.
  destruct (mcp.response.Error resp) as [err|]; [apply Hmsg; reflexivity|].
  destruct (mcp.response.Result resp) as [| | | |m| | |]; try discriminate.
  destruct (index m (str "isError")) as [|b| | | | | |]; try discriminate.
  destruct b; [|discriminate].
  destruct (index m (str "content")) as [| | | | | |l|];
    try exact toolCallFailed_nonempty.
  destruct l as [|first l]; [exact toolCallFailed_nonempty|].
  cbv zeta.
  destruct (isEmpty (TrimSpace _)) eqn:E; [exact toolCallFailed_nonempty|].
  apply isEmpty_false. exact E.
Qed.

(** [handle] returns a response or panics. *)
Lemma handle_never_errs (s : mcp.Server.t St) (e : mcp.env.t)
  (w : mcp.world.t St) (req : mcp.request.t) (err : error) :
  snd (mcp.handle s e w req) <> Err err.
Proof.
  unfold mcp.handle. cbv zeta.
  repeat (destruct (gostring_eqb _ _); [simpl; discriminate|]).
  destruct (gostring_eqb _ _).
  - destruct (mcp.handleToolCall _ _ _ _) as [db' [res|err'|]];
      simpl; discriminate.
  - destruct (negb _); simpl; discriminate.
Qed.

(** The only protocol error [handle] reports. *)
Lemma handle_error_message (s : mcp.Server.t St) (e : mcp.env.t)
  (w w1 : mcp.world.t St) (req : mcp.request.t) (resp : mcp.response.t)
  (shouldRespond : bool) (err : mcp.rpcError.t) :
  mcp.handle s e w req = (w1, Ok (resp, shouldRespond)) ->
  mcp.response.Error resp = Some err ->
  mcp.rpcError.Message err = str "method not found".
Proof.
  unfold mcp.handle. cbv zeta.
  repeat (destruct (gostring_eqb _ _);
          [intros E; injection E as _ <- _; simpl; discriminate|]).
  destruct (gostring_eqb _ _).
  - destruct (mcp.handleToolCall _ _ _ _) as [db' [res|err'|]];
      intros E; try discriminate;
      injection E as _ <- _; simpl; discriminate.
  - destruct (negb _); intros E; injection E as _ <- _; simpl;
      [discriminate|].
    intros E; injection E as <-. reflexivity.
Qed.

(** With a sink, [recordRequest] hands it one record. *)
Lemma recordRequest_with_sink (s : mcp.Server.t St)
  (insert : St -> store.MCPRequestLog.t -> St * option error) (db : St)
  (req : mcp.request.t) (resp : mcp.response.t) (duration : Duration)
  (createdAt : Time) :
  mcp.Server.sink s = Some insert ->
  exists rec,
    mcp.recordRequest s db req resp duration createdAt
    = (fst (insert db rec), [rec])
    /\ store.MCPRequestLog.Success rec = mcp.responseSuccessful resp
    /\ store.MCPRequestLog.ErrorText rec = mcp.responseErrorText resp
    /\ store.MCPRequestLog.ToolName rec
       = mcp.toolNameFromParams (mcp.request.Method req)
           (mcp.request.Params req)
    /\ store.MCPRequestLog.DurationMS rec = Z.quot duration 1000000.
Proof.
  intros Hs. unfold mcp.recordRequest. rewrite Hs. cbv zeta.
  eexists. split; [reflexivity|]. simpl. auto.
Qed.

Lemma recordRequest_without_sink (s : mcp.Server.t St) (db : St)
  (req : mcp.request.t) (resp : mcp.response.t) (duration : Duration)
  (createdAt : Time) :
  mcp.Server.sink s = None ->
  mcp.recordRequest s db req resp duration createdAt = (db, []).
Proof. intros Hs. unfold mcp.recordRequest. rewrite Hs. reflexivity. Qed.

(** The records one message leaves. *)
Lemma serveMessage_logged (s : mcp.Server.t St) (e : mcp.env.t)
  (w : mcp.world.t St) (payload : mcp.bytes) (mode : mcp.wireMode) :
  mcp.step.logged (mcp.serveMessage s e w payload mode)
  = match mcp.Unmarshal_request payload with
    | Failed err =>
        snd (mcp.recordRequest s (mcp.world.db w)
               (mcp.request.mk [] [] (str "parse_error") [])
               (mcp.response.mk [] Nil Nil
                  (Some (mcp.rpcError.mk (-32700) (str "parse error")
                           (String (mcp.Error_ err)))))
               0 (mcp.env.loggedAt e))
    | Done req =>
        match mcp.handle s e w req with
        | (w1, Ok (resp, _)) =>
            snd (mcp.recordRequest s (mcp.world.db w1) req resp
                   (mcp.env.elapsed e) (mcp.env.loggedAt e))
        | _ => []
        end
    end.
Proof.
  unfold mcp.serveMessage.
  destruct (mcp.Unmarshal_request payload) as [req|err].
  - destruct (mcp.handle s e w req) as [w1 [[resp should]|err|]];
      [|reflexivity|reflexivity].
    destruct (mcp.recordRequest _ _ _ _ _ _) as [db' logged].
    destruct (negb should); [reflexivity|].
    destruct (mcp.writeMessage resp mode); reflexivity.
  - destruct (mcp.recordRequest _ _ _ _ _ _) as [db' logged].
    destruct (mcp.writeFramedMessage _); reflexivity.
Qed.

(** The bytes one message makes the server write. *)
Lemma serveMessage_written (s : mcp.Server.t St) (e : mcp.env.t)
  (w : mcp.world.t St) (payload : mcp.bytes) (mode : mcp.wireMode) :
  mcp.step.written (mcp.serveMessage s e w payload mode)
  = match mcp.Unmarshal_request payload with
    | Failed err =>
        match mcp.writeFramedMessage
                (mcp.errorResponse Nil (-32700) (str "parse error")
                   (String (mcp.Error_ err))) with
        | Done out => out
        | Failed _ => []
        end
    | Done req =>
        match mcp.handle s e w req with
        | (_, Ok (resp, true)) =>
            match mcp.writeMessage resp mode with
            | Done out => out
            | Failed _ => []
            end
        | _ => []
        end
    end.
Proof.
  unfold mcp.serveMessage.
  destruct (mcp.Unmarshal_request payload) as [req|err].
  - destruct (mcp.handle s e w req) as [w1 [[resp should]|err|]];
      [|reflexivity|reflexivity].
    destruct (mcp.recordRequest _ _ _ _ _ _) as [db' logged].
    destruct should; [|reflexivity].
    simpl. destruct (mcp.writeMessage resp mode); reflexivity.
  - destruct (mcp.recordRequest _ _ _ _ _ _) as [db' logged].
    destruct (mcp.writeFramedMessage _); reflexivity.
Qed.

(** A request that parses is answered in the mode it came in. *)
Lemma serveMessage_reply_follows_mode (s : mcp.Server.t St) (e : mcp.env.t)
  (w w1 : mcp.world.t St) (payload body : mcp.bytes) (mode : mcp.wireMode)
  (req : mcp.request.t) (resp : mcp.response.t) :
  mcp.Unmarshal_request payload = Done req ->
  mcp.handle s e w req = (w1, Ok (resp, true)) ->
  mcp.Marshal resp = Done body ->
  mcp.step.written (mcp.serveMessage s e w payload mode)
  = match mode with
    | mcp.wireModeJSONLine => body ++ [10%N]
    | mcp.wireModeFramed =>
        str "Content-Length: " ++ decimal (len body)
          ++ [13; 10; 13; 10]%N ++ body
    end.
Proof.
  intros Hr Hh Hm. rewrite serveMessage_written, Hr, Hh.
  unfold mcp.writeMessage, mcp.writeFramedMessage. rewrite Hm.
  destruct mode; reflexivity.
Qed.

(** C5, evaluated on a message that fails to parse: whatever the mode
    the message came in, the parse-error reply is a framed message;
    for a JSON line this is not the JSON-line encoding of the reply. *)
Theorem parse_error_reply_is_framed (s : mcp.Server.t St) (e : mcp.env.t)
  (w : mcp.world.t St) (payload body : mcp.bytes) (err : error) :
  let resp :=
    mcp.errorResponse Nil (-32700) (str "parse error")
      (String (mcp.Error_ err)) in
  mcp.Unmarshal_request payload = Failed err ->
  mcp.Marshal resp = Done body ->
  mcp.step.written (mcp.serveMessage s e w payload mcp.wireModeJSONLine)
  = str "Content-Length: " ++ decimal (len body) ++ [13; 10; 13; 10]%N ++ body
  /\ mcp.writeMessage resp mcp.wireModeJSONLine = Done (body ++ [10%N])
  /\ mcp.step.written (mcp.serveMessage s e w payload mcp.wireModeJSONLine)
     <> body ++ [10%N].
Proof.
  intros resp Hr Hm.
  assert (Hw : mcp.step.written
                 (mcp.serveMessage s e w payload mcp.wireModeJSONLine)
               = str "Content-Length: " ++ decimal (len body)
                   ++ [13; 10; 13; 10]%N ++ body).
  { rewrite serveMessage_written, Hr. fold resp.
    unfold mcp.writeFramedMessage. rewrite Hm. reflexivity. }
  split; [exact Hw|]. split.
  - unfold mcp.writeMessage. rewrite Hm. reflexivity.
  - rewrite Hw. intros E. apply (f_equal (@length N)) in E.
    rewrite !length_app in E. simpl in E. lia.
Qed.

(** C8.  With a sink configured, a message whose handling returns
    leaves exactly one record, whether it parses or not and whether a
    reply is sent or not; the record's success flag is false exactly
    when the response carries an error object or the tool-level
    [isError] flag, and then its error text is not empty. *)
Theorem serveMessage_records_once (s : mcp.Server.t St)
  (insert : St -> store.MCPRequestLog.t -> St * option error)
  (e : mcp.env.t) (w : mcp.world.t St) (payload : mcp.bytes)
  (mode : mcp.wireMode) :
  mcp.Server.sink s = Some insert ->
  (forall req,
      mcp.Unmarshal_request payload = Done req ->
      snd (mcp.handle s e w req) <> Panic) ->
  exists rec resp,
    mcp.step.logged (mcp.serveMessage s e w payload mode) = [rec]
    /\ responseTo s e w payload resp
    /\ (store.MCPRequestLog.Success rec = false
        <-> (mcp.response.Error resp <> None \/ toolError resp))
    /\ (store.MCPRequestLog.Success rec = false ->
        store.MCPRequestLog.ErrorText rec <> []).
Proof.
  intros Hs Hnp. rewrite serveMessage_logged. unfold responseTo.
  destruct (mcp.Unmarshal_request payload) as [req|err].
  - specialize (Hnp req eq_refl).
    pose proof (handle_never_errs s e w req) as Hne.
    destruct (mcp.handle s e w req) as [w1 [[resp should]|err|]] eqn:Eh.
    + destruct (recordRequest_with_sink s insert (mcp.world.db w1) req resp
                  (mcp.env.elapsed e) (mcp.env.loggedAt e) Hs)
        as (rec & Hrec & Hsucc & Htext & _).
      exists rec, resp. rewrite Hrec. simpl.
      split; [reflexivity|]. split; [exists w1, should; reflexivity|].
      rewrite Hsucc, Htext. split; [apply responseSuccessful_false|].
      intros Hf. apply responseErrorText_nonempty; [exact Hf|].
      intros err Herr. rewrite (handle_error_message _ _ _ _ _ _ _ _ Eh Herr).
      vm_compute; discriminate.
    + exfalso. apply (Hne err). reflexivity.
    + exfalso. apply Hnp. reflexivity.
  - destruct (recordRequest_with_sink s insert (mcp.world.db w)
                (mcp.request.mk [] [] (str "parse_error") [])
                (mcp.response.mk [] Nil Nil
                   (Some (mcp.rpcError.mk (-32700) (str "parse error")
                            (String (mcp.Error_ err)))))
                0 (mcp.env.loggedAt e) Hs)
      as (rec & Hrec & Hsucc & Htext & _).
    exists rec. eexists. rewrite Hrec. simpl.
    split; [reflexivity|]. split; [reflexivity|].
    rewrite Hsucc, Htext. split.
    + split; [intros _; left; simpl; discriminate | reflexivity].
    + intros _. vm_compute; discriminate.
Qed.

(** C10.  The result of [initialize] carries the protocol version of
    the request as it was sent when that is not blank, and 2024-11-05
    when the parameter is missing, cannot be decoded or is blank: in
    the first two cases the decoder leaves the empty string. *)
Theorem initialize_protocolVersion (s : mcp.Server.t St) (e : mcp.env.t)
  (w : mcp.world.t St) (req : mcp.request.t) :
  let pv := mcp.Unmarshal_protocolVersion (mcp.request.Params req) in
  mcp.request.Method req = str "initialize" ->
  exists w1 m,
    mcp.handle s e w req
    = (w1,
       Ok (mcp.response.mk mcp.jsonRPCVersion
             (mcp.decodeID (mcp.request.ID req)) (Map m) None,
           negb (isEmpty (mcp.request.ID req))))
    /\ (TrimSpace pv <> [] ->
        index m (str "protocolVersion") = String pv)
    /\ (TrimSpace pv = [] ->
        index m (str "protocolVersion") = String (str "2024-11-05")).
Proof.
  intros pv Hm. unfold mcp.handle. cbv zeta. rewrite Hm.
  change (gostring_eqb (str "initialize") (str "notifications/initialized"))
    with false.
  change (gostring_eqb (str "initialize") (str "initialize")) with true.
  cbv iota. fold pv.
  eexists. eexists. split; [reflexivity|].
  change (index _ (str "protocolVersion"))
    with (@String mcp.payload
            (if isEmpty (TrimSpace pv) then str "2024-11-05" else pv)).
  split; intros H.
  - apply isEmpty_false in H. rewrite H. reflexivity.
  - apply isEmpty_true in H. rewrite H. reflexivity.
Qed.

End TransportFacts.

(** The malformed line [oops], received as a JSON line. *)
Lemma parse_error_reply_is_framed_witness :
  @mcp.Unmarshal_request fixture.json fixture.malformedLine
  = Failed fixture.syntaxError
  /\ mcp.step.written
       (mcp.serveMessage (J := fixture.json) (L := asciiLib) fixture.server
          (fixture.clock 0) fixture.start fixture.malformedLine mcp.wireModeJSONLine)
     = str "Content-Length: 127" ++ [13; 10; 13; 10]%N ++ fixture.parseErrorBody.
Proof.
  split; [reflexivity|].
  exact (proj1 (parse_error_reply_is_framed (J := fixture.json) (L := asciiLib)
                  fixture.server (fixture.clock 0) fixture.start fixture.malformedLine
                  fixture.parseErrorBody fixture.syntaxError eq_refl eq_refl)).
Defined.

(** The run of [Serve] on the malformed JSON line: the reply on the
    wire is a framed message. *)
Lemma Serve_frames_reply_to_malformed_line :
  option_map (@mcp.step.written store.DB.t)
    (mcp.Serve (J := fixture.json) (L := asciiLib) fixture.server fixture.clock
       fixture.start (fixture.malformedLine ++ [10%N]))
  = Some (str "Content-Length: 127" ++ [13; 10; 13; 10]%N
            ++ fixture.parseErrorBody).
Proof. vm_compute. reflexivity. Qed.

(** The run of [Serve] on a well-formed JSON line: the reply is a JSON
    line. *)
Lemma Serve_answers_initialize_line :
  option_map (@mcp.step.written store.DB.t)
    (mcp.Serve (J := fixture.json) (L := asciiLib) fixture.server fixture.clock
       fixture.start (fixture.initializeLine ++ [10%N]))
  = Some (fixture.initializeBody ++ [10%N]).
Proof. vm_compute. reflexivity. Qed.

(** The record of an [initialize] request. *)
Lemma serveMessage_records_once_witness :
  mcp.Server.sink fixture.server
  = Some (store.SQLiteStore.InsertMCPRequestLog fixture.t0)
  /\ snd (mcp.handle (J := fixture.json) (L := asciiLib) fixture.server (fixture.clock 0)
            fixture.start fixture.initializeRequest) <> Panic
  /\ exists rec resp,
       mcp.step.logged
         (mcp.serveMessage (J := fixture.json) (L := asciiLib) fixture.server
            (fixture.clock 0) fixture.start fixture.initializeLine mcp.wireModeJSONLine)
       = [rec]
       /\ responseTo (J := fixture.json) (L := asciiLib) fixture.server (fixture.clock 0)
            fixture.start fixture.initializeLine resp
       /\ (store.MCPRequestLog.Success rec = false
           <-> (mcp.response.Error resp <> None \/ toolError resp))
       /\ (store.MCPRequestLog.Success rec = false ->
           store.MCPRequestLog.ErrorText rec <> []).
Proof.
  split; [reflexivity|].
  split; [vm_compute; discriminate|].
  apply (serveMessage_records_once (J := fixture.json) (L := asciiLib) fixture.server
           (store.SQLiteStore.InsertMCPRequestLog fixture.t0)
           (fixture.clock 0) fixture.start
           fixture.initializeLine mcp.wireModeJSONLine eq_refl).
  intros req E. vm_compute in E. injection E as <-.
  vm_compute. discriminate.
Defined.

(** An [initialize] request that names a protocol version. *)
Lemma initialize_protocolVersion_witness :
  mcp.request.Method fixture.initializeRequest = str "initialize"
  /\ exists w1 m,
       mcp.handle (J := fixture.json) (L := asciiLib) fixture.server (fixture.clock 0)
         fixture.start fixture.initializeRequest
       = (w1,
          Ok (mcp.response.mk mcp.jsonRPCVersion
                (mcp.decodeID (J := fixture.json)
                   (mcp.request.ID fixture.initializeRequest))
                (Map m) None, true))
       /\ index m (str "protocolVersion") = String (str "2025-03-26").
Proof.
  split; [reflexivity|].
  destruct (initialize_protocolVersion (J := fixture.json) (L := asciiLib)
              fixture.server (fixture.clock 0) fixture.start fixture.initializeRequest eq_refl)
    as (w1 & m & Hh & Hv & _).
  exists w1, m. split; [exact Hh|].
  apply Hv. vm_compute. discriminate.
Defined.

(** ** The loop of [Serve] terminates

    Every message read takes at least one byte off the input, so the
    fuel given to the readers and to the loop never runs out. *)

Lemma readLine_split (r line rest : mcp.bytes) (found : bool) :
  mcp.readLine r = (line, rest, found) ->
  r = line ++ rest /\ (found = true -> line <> []).
Proof.
  revert line rest found.
  induction r as [|c r IH]; intros line rest found; simpl.
  - intros E. injection E as <- <- <-. split; [reflexivity | discriminate].
  - destruct (c =? 10)%N.
    + intros E. injection E as <- <- <-. split; [reflexivity | discriminate].
    + destruct (mcp.readLine r) as [[line' rest'] found'].
      intros E. injection E as <- <- <-.
      destruct (IH line' rest' found' eq_refl) as [-> _].
      split; [reflexivity | discriminate].
Qed.

Lemma readLine_length (r line rest : mcp.bytes) (found : bool) :
  mcp.readLine r = (line, rest, found) ->
  (length rest <= length r)%nat
  /\ (line <> [] -> (length rest < length r)%nat).
Proof.
  intros E. destruct (readLine_split r line rest found E) as [-> _].
  rewrite length_app. split; [lia|].
  destruct line; [congruence | simpl; lia].
Qed.

Lemma readJSONLineMessage_consumes (fuel : nat) (r line rest : mcp.bytes)
  (mode : mcp.wireMode) :
  mcp.readJSONLineMessage fuel r = (Ok (line, mode), rest) ->
  (length rest < length r)%nat.
Proof.
  revert r. induction fuel as [|fuel IH]; intros r; simpl; [discriminate|].
  destruct (mcp.readLine r) as [[l rest'] found] eqn:El.
  destruct (readLine_split r l rest' found El) as [Hr Hf].
  destruct (readLine_length r l rest' found El) as [Hle Hlt].
  destruct (isEmpty (mcp.TrimSpaceBytes l)) eqn:Ee.
  - destruct found; simpl; [|discriminate].
    intros E. apply IH in E. specialize (Hlt (Hf eq_refl)). lia.
  - intros E. injection E as _ _ <-. apply Hlt.
    intros ->. discriminate Ee.
Qed.

(** With more fuel than bytes the result of [readJSONLineMessage] does
    not depend on the fuel. *)
Lemma readJSONLineMessage_fuel (fuel1 fuel2 : nat) (r : mcp.bytes) :
  (length r < fuel1)%nat -> (length r < fuel2)%nat ->
  mcp.readJSONLineMessage fuel1 r = mcp.readJSONLineMessage fuel2 r.
Proof.
  revert fuel2 r. induction fuel1 as [|fuel1 IH]; intros fuel2 r H1 H2; [lia|].
  destruct fuel2 as [|fuel2]; [lia|]. simpl.
  destruct (mcp.readLine r) as [[l rest] found] eqn:El.
  destruct (readLine_split r l rest found El) as [Hr Hf].
  destruct (readLine_length r l rest found El) as [Hle Hlt].
  destruct (isEmpty (mcp.TrimSpaceBytes l)); [|reflexivity].
  destruct found; simpl; [|reflexivity].
  specialize (Hlt (Hf eq_refl)). apply IH; lia.
Qed.

Lemma readHeaders_consumes (fuel : nat) (contentLength n : Z)
  (r rest : mcp.bytes) :
  mcp.readHeaders fuel contentLength r = (Ok n, rest) ->
  (length rest < length r)%nat.
Proof.
  revert contentLength r.
  induction fuel as [|fuel IH]; intros contentLength r; simpl; [discriminate|].
  destruct (mcp.readLine r) as [[l rest'] found] eqn:El.
  destruct (readLine_split r l rest' found El) as [Hr Hf].
  destruct (readLine_length r l rest' found El) as [Hle Hlt].
  destruct found; simpl; [|discriminate].
  specialize (Hlt (Hf eq_refl)).
  destruct (isEmpty (mcp.TrimRightCRLF l)).
  - intros E. injection E as _ <-. exact Hlt.
  - destruct (mcp.splitColon (mcp.TrimRightCRLF l)) as [name [value|]].
    + destruct (mcp.equalFoldContentLength (mcp.TrimSpaceBytes name)).
      * destruct (mcp.Atoi (mcp.TrimSpaceBytes value)); try discriminate.
        intros E. apply IH in E. lia.
      * intros E. apply IH in E. lia.
    + intros E. apply IH in E. lia.
Qed.

(** With more fuel than bytes the result of [readHeaders] does not
    depend on the fuel. *)
Lemma readHeaders_fuel (fuel1 fuel2 : nat) (contentLength : Z)
  (r : mcp.bytes) :
  (length r < fuel1)%nat -> (length r < fuel2)%nat ->
  mcp.readHeaders fuel1 contentLength r = mcp.readHeaders fuel2 contentLength r.
Proof.
  revert fuel2 contentLength r.
  induction fuel1 as [|fuel1 IH]; intros fuel2 contentLength r H1 H2; [lia|].
  destruct fuel2 as [|fuel2]; [lia|]. simpl.
  destruct (mcp.readLine r) as [[l rest] found] eqn:El.
  destruct (readLine_split r l rest found El) as [Hr Hf].
  destruct (readLine_length r l rest found El) as [Hle Hlt].
  destruct found; simpl; [|reflexivity].
  specialize (Hlt (Hf eq_refl)).
  destruct (isEmpty (mcp.TrimRightCRLF l)); [reflexivity|].
  destruct (mcp.splitColon (mcp.TrimRightCRLF l)) as [name [value|]].
  - destruct (mcp.equalFoldContentLength (mcp.TrimSpaceBytes name)).
    + destruct (mcp.Atoi (mcp.TrimSpaceBytes value)); try reflexivity.
      apply IH; lia.
    + apply IH; lia.
  - apply IH; lia.
Qed.

Lemma dropWhile_length (A : Type) (f : A -> bool) (l : list A) :
  (length (dropWhile f l) <= length l)%nat.
Proof.
  induction l as [|x l IH]; simpl; [lia|].
  destruct (f x); simpl; lia.
Qed.

Lemma readMessage_consumes (r payload rest : mcp.bytes) (mode : mcp.wireMode) :
  mcp.readMessage r = (Ok (payload, mode), rest) ->
  (length rest < length r)%nat.
Proof.
  unfold mcp.readMessage, mcp.detectWireMode.
  pose proof (dropWhile_length _ IsSpace r) as Hd.
  destruct (dropWhile IsSpace r) as [|c r'] eqn:Er; [discriminate|].
  destruct (HasPrefix _ _).
  - unfold mcp.readFramedMessage.
    destruct (mcp.readHeaders _ _ _) as [[n| |] rest'] eqn:Eh;
      try discriminate.
    apply readHeaders_consumes in Eh.
    destruct (n <=? 0); [discriminate|].
    destruct (n >? maxAlloc); [discriminate|].
    destruct (_ <=? _)%nat; [|discriminate].
    intros E. injection E as _ _ <-.
    rewrite length_skipn. unfold mcp.bytes, rune in *. lia.
  - intros E. apply readJSONLineMessage_consumes in E.
    unfold mcp.bytes, rune in *. lia.
Qed.

Section ServeFacts.
Context {J : mcp.JSON} {L : GoLib} {St : Type}.

Lemma serveLoop_returns (fuel : nat) (s : mcp.Server.t St)
  (envs : nat -> mcp.env.t) (n : nat) (w : mcp.world.t St)
  (input : mcp.bytes) :
  (length input < fuel)%nat ->
  exists st, mcp.serveLoop fuel s envs n w input = Some st.
Proof.
  revert n w input.
  induction fuel as [|fuel IH]; intros n w input Hf; [lia|]. simpl.
  destruct (mcp.readMessage input) as [[[payload mode]|err|] rest] eqn:Er.
  - apply readMessage_consumes in Er.
    destruct (mcp.step.next (mcp.serveMessage s (envs n) w payload mode));
      try (eexists; reflexivity).
    destruct (IH (S n)
                (mcp.step.after (mcp.serveMessage s (envs n) w payload mode))
                rest ltac:(lia)) as [st' ->].
    eexists; reflexivity.
  - destruct err; eexists; reflexivity.
  - eexists; reflexivity.
Qed.

(** [Serve] returns on every input. *)
Lemma Serve_returns (s : mcp.Server.t St) (envs : nat -> mcp.env.t)
  (w : mcp.world.t St) (input : mcp.bytes) :
  exists st, mcp.Serve s envs w input = Some st.
Proof. apply serveLoop_returns. lia. Qed.

(** The records [Serve] leaves are those of its messages, in order:
    after a first message the loop goes on with the rest of the
    input. *)
Lemma Serve_unfold (s : mcp.Server.t St) (envs : nat -> mcp.env.t)
  (w : mcp.world.t St) (input payload rest : mcp.bytes)
  (mode : mcp.wireMode) :
  mcp.readMessage input = (Ok (payload, mode), rest) ->
  let st := mcp.serveMessage s (envs 0%nat) w payload mode in
  mcp.step.next st = Ok tt ->
  exists st',
    mcp.serveLoop (length input) s envs 1 (mcp.step.after st) rest = Some st'
    /\ mcp.Serve s envs w input
       = Some (mcp.step.mk (mcp.step.after st')
                 (mcp.step.written st ++ mcp.step.written st')
                 (mcp.step.logged st ++ mcp.step.logged st')
                 (mcp.step.next st')).
Proof.
  intros Er st Hn. unfold mcp.Serve. simpl. rewrite Er. fold st. rewrite Hn.
  apply readMessage_consumes in Er.
  destruct (serveLoop_returns (length input) s envs 1 (mcp.step.after st)
              rest Er) as [st' Hs].
  exists st'. rewrite Hs. split; reflexivity.
Qed.

End ServeFacts.

(** ** White space at the ends of a string *)

Lemma dropWhile_idem (A : Type) (f : A -> bool) (l : list A) :
  dropWhile f (dropWhile f l) = dropWhile f l.
Proof.
  induction l as [|x l IH]; simpl; [reflexivity|].
  destruct (f x) eqn:E; [exact IH|]. simpl. rewrite E. reflexivity.
Qed.

Lemma dropWhile_suffix (A : Type) (f : A -> bool) (l : list A) :
  exists pre, l = pre ++ dropWhile f l /\ forallb f pre = true.
Proof.
  induction l as [|x l IH]; simpl; [exists []; auto|].
  destruct (f x) eqn:E.
  - destruct IH as (pre & Hl & Hp). exists (x :: pre). simpl.
    rewrite E, <- Hl. auto.
  - exists []. auto.
Qed.

Lemma dropWhile_head (A : Type) (f : A -> bool) (l : list A) (x : A)
  (t : list A) :
  dropWhile f l = x :: t -> f x = false.
Proof.
  induction l as [|y l IH]; simpl; [discriminate|].
  destruct (f y) eqn:E; [exact IH|].
  intros H; inversion H; subst. exact E.
Qed.

Lemma dropWhile_fixed (A : Type) (f : A -> bool) (x : A) (t : list A) :
  f x = false -> dropWhile f (x :: t) = x :: t.
Proof. intros E. simpl. rewrite E. reflexivity. Qed.

(** Neither the first nor the last character is white space. *)
Definition trimmed (s : gostring) : Prop :=
  dropWhile IsSpace s = s /\ dropWhile IsSpace (rev s) = rev s.

Lemma trimmed_TrimSpace (s : gostring) : trimmed s -> TrimSpace s = s.
Proof.
  intros [H1 H2]. unfold TrimSpace. rewrite H1, H2. apply rev_involutive.
Qed.

Lemma TrimSpace_trimmed (s : gostring) : trimmed (TrimSpace s).
Proof.
  unfold trimmed, TrimSpace.
  set (a := dropWhile IsSpace s).
  set (b := dropWhile IsSpace (rev a)).
  rewrite rev_involutive. split; [|apply dropWhile_idem].
  destruct (dropWhile_suffix _ IsSpace (rev a)) as (pre & Hr & _).
  fold b in Hr.
  assert (Ha : a = rev b ++ rev pre).
  { rewrite <- rev_app_distr, <- Hr, rev_involutive. reflexivity. }
  destruct (rev b) as [|x t] eqn:Eb; [reflexivity|].
  apply dropWhile_fixed.
  destruct a as [|y a'] eqn:Ea; [discriminate|].
  simpl in Ha. injection Ha as -> _.
  apply (dropWhile_head _ IsSpace s x a'). exact Ea.
Qed.

Lemma TrimSpace_idem (s : gostring) : TrimSpace (TrimSpace s) = TrimSpace s.
Proof. apply trimmed_TrimSpace, TrimSpace_trimmed. Qed.







Lemma NoDup_snoc (A : Type) (l : list A) (x : A) :
  NoDup l -> ~ In x l -> NoDup (l ++ [x]).
Proof.
  intros Hl Hx. induction Hl as [|y l Hy Hl IH]; simpl.
  - constructor; [intros []|constructor].
  - constructor.
    + intros Hin. apply in_app_or in Hin.
      destruct Hin as [Hin|[->|[]]]; [contradiction|].
      apply Hx. left. reflexivity.
    + apply IH. intros Hin. apply Hx. right. exact Hin.
Qed.

(** ** A write and what can be read back *)

Section WriteProperties.
Context {L : GoLib} {F : store.FTS5}.
Import types.




End WriteProperties.


(** ** When the service refuses *)

Section FailureProperties.
Context {L : GoLib} {F : store.FTS5}.
Import types.

Lemma DB_eta (db : store.DB.t) :
  store.DB.mk (store.DB.memories db) (store.DB.memories_fts db)
    (store.DB.mcp_requests db) (store.DB.ftsEnabled db) = db.
Proof. destruct db; reflexivity. Qed.

Lemma map_unchanged (A : Type) (hit : A -> bool) (f : A -> A) (l : list A) :
  existsb hit l = false ->
  map (fun x => if hit x then f x else x) l = l.
Proof.
  induction l as [|x l IH]; simpl; [reflexivity|].
  intros H. apply orb_false_iff in H. destruct H as [Hx Hl].
  rewrite Hx, IH by exact Hl. reflexivity.
Qed.

Lemma filter_none_length (A : Type) (hit : A -> bool) (l : list A) :
  existsb hit l = false -> filter hit l = [].
Proof.
  induction l as [|x l IH]; simpl; [reflexivity|].
  intros H. apply orb_false_iff in H. destruct H as [Hx Hl].
  rewrite Hx. apply IH, Hl.
Qed.

Lemma filter_some_length (A : Type) (hit : A -> bool) (l : list A) :
  existsb hit l = true -> (len (filter hit l) =? 0) = false.
Proof.
  intros H. apply existsb_exists in H. destruct H as (x & Hin & Hx).
  assert (Hf : In x (filter hit l)) by (apply filter_In; auto).
  destruct (filter hit l); [destruct Hf|].
  apply Z.eqb_neq. unfold len. simpl length. lia.
Qed.

(** X2. [Write] over the SQLite store fails exactly when the
    namespace is rejected, or a scope is given that is neither short
    nor long (case and surrounding space aside), or the content is
    blank, or the id drawn is already in the table.  A write that
    fails leaves the database as it was; every other write appends
    one row. *)
Theorem Write_fails_iff (cfg : config.Config) (expr : gostring -> bool)
  (db : store.DB.t) (now : Time) (newID : gostring) (in_ : WriteInput.t) :
  let s := sqliteService cfg expr in
  let scope := TrimSpace (ToLower (WriteInput.Scope in_)) in
  let rejected :=
    memory.validateNamespace s (WriteInput.Namespace in_) <> None
    \/ (scope <> [] /\ scope <> str "short" /\ scope <> str "long")
    \/ TrimSpace (WriteInput.Content in_) = []
    \/ store.hasID newID (store.DB.memories db) = true in
  (rejected -> exists e, memory.Write s db now newID in_ = (db, Err e))
  /\ (~ rejected ->
      exists db' rec,
        memory.Write s db now newID in_ = (db', Ok rec)
        /\ store.DB.memories db'
           = store.DB.memories db ++ [store.rowOfRecord rec]).
Proof.
  intros s scope rejected. subst rejected. unfold memory.Write.
  fold scope.
  destruct (memory.validateNamespace s (WriteInput.Namespace in_)) as [e|].
  { split; [intros _; exists e; reflexivity|].
    intros H. exfalso. apply H. left. discriminate. }
  set (scope' := if isEmpty scope then str "short" else scope).
  assert (Hscope : negb (gostring_eqb scope' (str "short"))
                   && negb (gostring_eqb scope' (str "long")) = true
                   <-> (scope <> [] /\ scope <> str "short"
                        /\ scope <> str "long")).
  { subst scope'. destruct (isEmpty scope) eqn:He.
    - apply isEmpty_true in He. rewrite He. cbn. split; [discriminate|].
      intros [H _]. congruence.
    - apply isEmpty_false in He.
      rewrite andb_true_iff, !negb_true_iff.
      rewrite <- !not_true_iff_false, !gostring_eqb_eq. tauto. }
  destruct (negb (gostring_eqb scope' (str "short"))
            && negb (gostring_eqb scope' (str "long"))) eqn:Hv.
  { split; [intros _; eexists; reflexivity|].
    intros H. exfalso. apply H. right. left. apply Hscope. reflexivity. }
  assert (Hvalid : ~ (scope <> [] /\ scope <> str "short"
                      /\ scope <> str "long")).
  { intros H. apply Hscope in H. discriminate. }
  destruct (isEmpty (TrimSpace (WriteInput.Content in_))) eqn:Hc.
  { split; [intros _; eexists; reflexivity|].
    intros H. exfalso. apply H. right. right. left.
    apply isEmpty_true. exact Hc. }
  apply isEmpty_false in Hc.
  cbn [memory.store s sqliteService store.InsertMemory store.sqlite].
  unfold store.SQLiteStore.InsertMemory.
  cbn [MemoryRecord.ID MemoryRecord.Scope].
  assert (Hcheck : store.checkScope scope' = true).
  { unfold store.checkScope.
    apply andb_false_iff in Hv.
    rewrite !negb_false_iff in Hv. apply orb_true_iff. exact Hv. }
  rewrite Hcheck. cbn [negb]. rewrite orb_false_r.
  destruct (store.hasID newID (store.DB.memories db)) eqn:Hid.
  - split; [intros _; eexists; reflexivity|].
    intros H. exfalso. apply H. right. right. right. reflexivity.
  - split.
    + intros [H|[H|[H|H]]]; [congruence | tauto | congruence | discriminate].
    + intros _. eexists. eexists. split; reflexivity.
Qed.

(** X3. [Promote] fails and leaves the database as it was when the
    id is blank or a target scope other than long is given, and also,
    with the message [memory <id> not found], when no row has the id.
    Otherwise it returns the record with that id, and the rows with
    that id are the ones rewritten. *)
Theorem Promote_fails_iff (cfg : config.Config) (expr : gostring -> bool)
  (db : store.DB.t) (now : Time) (in_ : PromoteInput.t) :
  let s := sqliteService cfg expr in
  let id := PromoteInput.MemoryID in_ in
  let target := PromoteInput.TargetScope in_ in
  let malformed :=
    TrimSpace id = [] \/ (target <> [] /\ target <> str "long") in
  (malformed -> exists e, memory.Promote s db now in_ = (db, Err e))
  /\ (~ malformed ->
      store.hasID id (store.DB.memories db) = false ->
      memory.Promote s db now in_
      = (db, Err (Errorf (str "memory " ++ id ++ str " not found"))))
  /\ (~ malformed ->
      store.hasID id (store.DB.memories db) = true ->
      exists db' rec,
        memory.Promote s db now in_ = (db', Ok rec)
        /\ MemoryRecord.ID rec = id
        /\ store.DB.memories db' = promoteRows id now (store.DB.memories db)).
Proof.
  intros s id target malformed. subst malformed. unfold memory.Promote.
  fold id. fold target.
  destruct (isEmpty (TrimSpace id)) eqn:Hid.
  { apply isEmpty_true in Hid.
    split; [intros _; eexists; reflexivity|].
    split; intros H; exfalso; apply H; left; exact Hid. }
  apply isEmpty_false in Hid.
  set (target' := if isEmpty target then str "long" else target).
  assert (Ht : gostring_eqb target' (str "long") = false
               <-> (target <> [] /\ target <> str "long")).
  { subst target'. destruct (isEmpty target) eqn:He.
    - apply isEmpty_true in He. rewrite He. cbn. split; [discriminate|].
      intros [H _]. congruence.
    - apply isEmpty_false in He.
      rewrite <- not_true_iff_false, gostring_eqb_eq. tauto. }
  destruct (gostring_eqb target' (str "long")) eqn:Hl; cbn [negb].
  2:{ split; [intros _; eexists; reflexivity|].
      split; intros H; exfalso; apply H; right; apply Ht; reflexivity. }
  assert (Hwell : ~ (TrimSpace id = [] \/ target <> [] /\ target <> str "long")).
  { intros [H|H]; [congruence|]. apply Ht in H. discriminate. }
  cbn [memory.store s sqliteService store.Promote store.sqlite
         store.GetMemory].
  unfold store.SQLiteStore.Promote.
  split; [tauto|]. split; intros _ Hhas.
  - unfold store.hasID in Hhas.
    rewrite (filter_none_length _ _ _ Hhas). cbn [len length Z.of_nat Z.eqb].
    rewrite (map_unchanged _ _ _ _ Hhas), DB_eta. reflexivity.
  - unfold store.hasID in Hhas.
    rewrite (filter_some_length _ _ _ Hhas).
    unfold store.SQLiteStore.GetMemory. cbn [store.DB.memories].
    fold (promoteRows id now (store.DB.memories db)).
    destruct (find (fun r => gostring_eqb (store.Row.id r) id)
                (promoteRows id now (store.DB.memories db))) as [r|] eqn:Hf.
    + eexists. eexists. split; [reflexivity|]. split; [|reflexivity].
      apply find_some in Hf. destruct Hf as [_ Hr].
      apply gostring_eqb_eq in Hr. exact Hr.
    + exfalso. apply existsb_exists in Hhas.
      destruct Hhas as (r & Hin & Hr).
      assert (Hp : In (store.SQLiteStore.promoteRow now r)
                     (promoteRows id now (store.DB.memories db))).
      { unfold promoteRows. apply in_map_iff. exists r. rewrite Hr. auto. }
      pose proof (find_none _ _ Hf _ Hp) as Hn. cbn in Hn. congruence.
Qed.

End FailureProperties.

(** ** The table stays well formed *)

Section InvariantProperties.
Context {L : GoLib} {F : store.FTS5}.
Import types.

(** What the service keeps true of the table [memories]: ids are
    unique (the primary key), scopes are "short" or "long" (the CHECK
    constraint), and a long entry has no expiry. *)
Definition consistent (db : store.DB.t) : Prop :=
  NoDup (map store.Row.id (store.DB.memories db))
  /\ Forall (fun r =>
               store.checkScope (store.Row.scope r) = true
               /\ (store.Row.scope r = str "long" ->
                   store.Row.expires_at r = None))
       (store.DB.memories db).

Lemma hasID_In (id : gostring) (rows : list store.Row.t) :
  store.hasID id rows = false -> ~ In id (map store.Row.id rows).
Proof.
  unfold store.hasID. intros H Hin. apply in_map_iff in Hin.
  destruct Hin as (r & Hr & Hin).
  assert (existsb (fun r => gostring_eqb (store.Row.id r) id) rows = true).
  { apply existsb_exists. exists r. split; [exact Hin|].
    apply gostring_eqb_eq. exact Hr. }
  congruence.
Qed.

(** Deleting rows keeps the ids distinct. *)
Lemma filter_ids_NoDup (keep : store.Row.t -> bool)
  (rows : list store.Row.t) :
  NoDup (map store.Row.id rows) ->
  NoDup (map store.Row.id (filter keep rows)).
Proof.
  induction rows as [|r rows IH]; cbn [filter map]; [auto|].
  intros Hnd. inversion Hnd as [|? ? Hfresh Hrest]; subst.
  specialize (IH Hrest).
  destruct (keep r); [|exact IH].
  cbn [map]. constructor; [|exact IH].
  intros Hin. apply Hfresh. apply in_map_iff in Hin.
  destruct Hin as (r' & Hid & Hin). apply filter_In in Hin.
  apply in_map_iff. exists r'. tauto.
Qed.

Lemma promoteRows_ids (id : gostring) (now : Time) (rows : list store.Row.t) :
  map store.Row.id (promoteRows id now rows) = map store.Row.id rows.
Proof.
  unfold promoteRows. rewrite map_map. apply map_ext.
  intros r. destruct (gostring_eqb (store.Row.id r) id); reflexivity.
Qed.

(** What a write does to the database. *)
Lemma Write_cases (cfg : config.Config) (expr : gostring -> bool)
  (db : store.DB.t) (now : Time) (newID : gostring) (in_ : WriteInput.t) :
  (exists e,
      memory.Write (sqliteService cfg expr) db now newID in_ = (db, Err e))
  \/ exists db' rec,
       memory.Write (sqliteService cfg expr) db now newID in_ = (db', Ok rec)
       /\ store.DB.memories db'
          = store.DB.memories db ++ [store.rowOfRecord rec]
       /\ store.DB.mcp_requests db' = store.DB.mcp_requests db
       /\ store.DB.ftsEnabled db' = store.DB.ftsEnabled db
       /\ store.hasID (MemoryRecord.ID rec) (store.DB.memories db) = false
       /\ store.checkScope (MemoryRecord.Scope rec) = true
       /\ (MemoryRecord.Scope rec = str "long" ->
           MemoryRecord.ExpiresAt rec = None).
Proof.
  unfold memory.Write.
  destruct (memory.validateNamespace _ _) as [e|];
    [left; exists e; reflexivity|].
  set (scope := if isEmpty (TrimSpace (ToLower (WriteInput.Scope in_)))
                then str "short"
                else TrimSpace (ToLower (WriteInput.Scope in_))).
  destruct (negb (gostring_eqb scope (str "short"))
            && negb (gostring_eqb scope (str "long"))) eqn:Hv;
    [left; eexists; reflexivity|].
  destruct (isEmpty (TrimSpace (WriteInput.Content in_)));
    [left; eexists; reflexivity|].
  cbn [memory.store sqliteService store.InsertMemory store.sqlite].
  unfold store.SQLiteStore.InsertMemory.
  cbn [MemoryRecord.ID MemoryRecord.Scope].
  assert (Hcheck : store.checkScope scope = true).
  { unfold store.checkScope. apply andb_false_iff in Hv.
    rewrite !negb_false_iff in Hv. apply orb_true_iff. exact Hv. }
  rewrite Hcheck. cbn [negb]. rewrite orb_false_r.
  destruct (store.hasID newID (store.DB.memories db)) eqn:Hid;
    [left; eexists; reflexivity|].
  right. eexists. eexists. split; [reflexivity|].
  cbn [store.DB.memories store.DB.mcp_requests store.DB.ftsEnabled
         MemoryRecord.ID MemoryRecord.Scope MemoryRecord.ExpiresAt].
  repeat (split; [first [reflexivity | assumption]|]).
  intros Hlong. rewrite Hlong. reflexivity.
Qed.

Lemma Write_consistent (cfg : config.Config) (expr : gostring -> bool)
  (db : store.DB.t) (now : Time) (newID : gostring) (in_ : WriteInput.t) :
  consistent db ->
  consistent (fst (memory.Write (sqliteService cfg expr) db now newID in_)).
Proof.
  intros [Hnd Hrows].
  destruct (Write_cases cfg expr db now newID in_)
    as [[e ->]|(db' & rec & -> & Hm & _ & _ & Hfresh & Hc & Hl)];
    cbn [fst]; [split; assumption|].
  unfold consistent. rewrite Hm. split.
  - rewrite map_app. cbn [map store.rowOfRecord store.Row.id].
    apply NoDup_snoc; [exact Hnd|].
    apply hasID_In. exact Hfresh.
  - apply Forall_app. split; [exact Hrows|].
    constructor; [|constructor].
    cbn [store.rowOfRecord store.Row.scope store.Row.expires_at]. auto.
Qed.

Lemma Promote_consistent (cfg : config.Config) (expr : gostring -> bool)
  (db : store.DB.t) (now : Time) (in_ : PromoteInput.t) :
  consistent db ->
  consistent (fst (memory.Promote (sqliteService cfg expr) db now in_)).
Proof.
  intros [Hnd Hrows].
  destruct (Promote_updates cfg expr db now in_) as [E|E].
  - rewrite E. split; assumption.
  - unfold consistent. rewrite E, promoteRows_ids. split; [exact Hnd|].
    unfold promoteRows. rewrite Forall_map.
    eapply Forall_impl; [|exact Hrows].
    intros r [Hc Hl].
    destruct (gostring_eqb (store.Row.id r) (PromoteInput.MemoryID in_));
      [|auto].
    cbn [store.SQLiteStore.promoteRow store.Row.scope store.Row.expires_at].
    split; reflexivity.
Qed.

Lemma ExpireShort_consistent (db : store.DB.t) (now : Time) :
  consistent db ->
  consistent (fst (store.SQLiteStore.ExpireShort db now)).
Proof.
  intros [Hnd Hrows]. unfold consistent.
  cbn [fst store.SQLiteStore.ExpireShort store.DB.memories]. split.
  - apply filter_ids_NoDup. exact Hnd.
  - apply Forall_forall. intros r Hin. apply filter_In in Hin.
    rewrite Forall_forall in Hrows. apply Hrows. apply Hin.
Qed.

(** X4. Every operation of the service keeps the table well
    formed: the ids stay distinct, every scope is short or long, and
    a long row has no expiry. *)
Theorem service_keeps_consistent (cfg : config.Config)
  (expr : gostring -> bool) (o : op) (db : store.DB.t) :
  consistent db -> consistent (after cfg expr o db).
Proof.
  intros Hc.
  destruct o as [now id in_|now in_|now in_|now in_|now]; cbn [after].
  - apply Write_consistent. exact Hc.
  - rewrite Search_keeps_db. exact Hc.
  - rewrite ContextPack_keeps_db. exact Hc.
  - apply Promote_consistent. exact Hc.
  - cbn [memory.ExpireShort memory.store sqliteService store.ExpireShort
           store.sqlite].
    apply ExpireShort_consistent. exact Hc.
Qed.

End InvariantProperties.

(** The same write, on the table of the two summaries. *)
Lemma service_keeps_consistent_witness :
  consistent fixture.twoSummaries
  /\ consistent
       (after (L := asciiLib) (F := fixture.noFTS) config.Default
          (fun _ => true)
          (OpWrite fixture.t0 (str "m-1") fixture.writeRequest)
          fixture.twoSummaries).
Proof.
  assert (Inv : consistent fixture.twoSummaries).
  { split.
    - repeat constructor; cbn; intuition discriminate.
    - repeat constructor; intros; reflexivity. }
  split; [exact Inv|].
  apply (service_keeps_consistent (L := asciiLib) (F := fixture.noFTS)
           config.Default (fun _ => true)
           (OpWrite fixture.t0 (str "m-1") fixture.writeRequest)
           fixture.twoSummaries Inv).
Defined.

(** ** What the sweep deletes *)

Section ExpireProperties.
Import types.



End ExpireProperties.

(** ** Where the results of a search come from *)

Section SearchProperties.
Context {L : GoLib} {F : store.FTS5}.
Import types.

(** The stored metadata binds [_bm25] to something other than a
    number. *)
Definition badRank (r : store.Row.t) : Prop :=
  exists k v,
    find (fun kv : gostring * any Empty_set =>
            gostring_eqb (fst kv) (str "_bm25"))
      (store.Row.metadata_json r) = Some (k, v)
    /\ forall f, v <> Number f.

(** The record agrees with the row in every column but the metadata. *)
Definition sameEntry (r : store.Row.t) (rec : MemoryRecord.t) : Prop :=
  MemoryRecord.ID rec = store.Row.id r
  /\ MemoryRecord.Namespace rec = store.Row.namespace r
  /\ MemoryRecord.Scope rec = store.Row.scope r
  /\ MemoryRecord.Content rec = store.Row.content r
  /\ MemoryRecord.Summary rec = store.Row.summary r
  /\ MemoryRecord.Importance rec = store.Row.importance r
  /\ MemoryRecord.SourceAgent rec = store.Row.source_agent r
  /\ MemoryRecord.CreatedAt rec = store.Row.created_at r
  /\ MemoryRecord.LastAccessedAt rec = store.Row.last_accessed_at r
  /\ MemoryRecord.ExpiresAt rec = store.Row.expires_at r
  /\ MemoryRecord.PromotedAt rec = store.Row.promoted_at r.

Lemma sameEntry_scan (r : store.Row.t) : sameEntry r (store.scanMemoryRow r).
Proof. repeat split. Qed.

Lemma scanCandidateRow_cases (r : store.Row.t) (bm : float) :
  (store.SQLiteStore.scanCandidateRow r bm = Panic /\ badRank r)
  \/ (exists rec rank,
         store.SQLiteStore.scanCandidateRow r bm = Ok (rec, rank)
         /\ sameEntry r rec /\ ~ badRank r).
Proof.
  unfold store.SQLiteStore.scanCandidateRow, badRank.
  destruct (find _ (store.Row.metadata_json r)) as [[k v]|].
  - destruct v;
      try (left; split; [reflexivity|]; eexists; eexists;
           split; [reflexivity | intros ? ?; discriminate]).
    right. eexists. eexists. split; [reflexivity|].
    split; [repeat split|].
    intros (k' & v' & E & Hv). injection E as _ <-. apply (Hv f). reflexivity.
  - right. eexists. eexists. split; [reflexivity|].
    split; [repeat split|].
    intros (k' & v' & E & _). discriminate.
Qed.

Lemma scanCandidates_cases (rows : list (store.Row.t * float)) :
  (store.SQLiteStore.scanCandidates rows = Panic
   /\ Exists (fun row => badRank (fst row)) rows)
  \/ (exists cands,
         store.SQLiteStore.scanCandidates rows = Ok cands
         /\ Forall2 (fun row c => sameEntry (fst row) (store.Candidate.Record_ c))
              rows cands
         /\ ~ Exists (fun row => badRank (fst row)) rows).
Proof.
  induction rows as [|row rows IH]; cbn [store.SQLiteStore.scanCandidates].
  - right. exists []. split; [reflexivity|]. split; [constructor|].
    intros H. inversion H.
  - destruct (scanCandidateRow_cases (fst row) (snd row))
      as [[-> Hb]|(rec & rank & -> & Hs & Hg)]; cbn [bind].
    + left. split; [reflexivity | left; exact Hb].
    + destruct IH as [[-> Hb]|(cands & -> & Hall & Hg')]; cbn [bind].
      * left. split; [reflexivity | right; exact Hb].
      * right. eexists. split; [reflexivity|]. split.
        -- constructor; [exact Hs | exact Hall].
        -- intros H. inversion H; subst; contradiction.
Qed.

(** X6. Scanning the rows of the indexed search panics exactly
    when the stored metadata of one of them binds [_bm25] to something
    that is not a number.  It never returns an error, and otherwise
    gives one candidate per row, in order, that agrees with its row
    in every column but the metadata. *)
Theorem scanCandidates_panics_iff (rows : list (store.Row.t * float)) :
  (store.SQLiteStore.scanCandidates rows = Panic
   <-> Exists (fun row => badRank (fst row)) rows)
  /\ (forall e, store.SQLiteStore.scanCandidates rows <> Err e)
  /\ (forall cands,
         store.SQLiteStore.scanCandidates rows = Ok cands ->
         Forall2 (fun row c => sameEntry (fst row) (store.Candidate.Record_ c))
           rows cands).
Proof.
  destruct (scanCandidates_cases rows) as [[E Hb]|(cands & E & Hall & Hg)];
    rewrite E.
  - split; [tauto|]. split; [discriminate | discriminate].
  - split; [split; [discriminate | contradiction]|].
    split; [discriminate|].
    intros cands' H. injection H as <-. exact Hall.
Qed.

Lemma sqlLimit_In (A : Type) (limit : Z) (l : list A) (x : A) :
  In x (store.SQLiteStore.sqlLimit limit l) -> In x l.
Proof.
  unfold store.SQLiteStore.sqlLimit. destruct (limit <? 0); [auto|].
  apply In_firstn.
Qed.

Lemma sqlLimit_length (A : Type) (limit : Z) (l : list A) :
  0 <= limit -> len (store.SQLiteStore.sqlLimit limit l) <= limit.
Proof.
  intros H. unfold store.SQLiteStore.sqlLimit.
  destruct (Z.ltb_spec limit 0); [lia|].
  unfold len. rewrite length_firstn. lia.
Qed.

Lemma Forall2_length_In (A B : Type) (R : A -> B -> Prop) (l : list A)
  (l' : list B) :
  Forall2 R l l' ->
  length l' = length l /\ forall y, In y l' -> exists x, In x l /\ R x y.
Proof.
  induction 1 as [|x y l l' Hxy _ [IHl IHi]]; simpl.
  - split; [reflexivity | intros ? []].
  - split; [lia|]. intros z [<-|Hz].
    + exists x. auto.
    + destruct (IHi z Hz) as (x' & Hx' & Hr). exists x'. auto.
Qed.

(** The rows [searchFTS] scans pass the filters of its WHERE clause. *)
Lemma searchFTS_cases (db : store.DB.t) (namespace query scope : gostring)
  (limit : Z) (now : Time) :
  0 <= limit ->
  (exists e, store.SQLiteStore.searchFTS db namespace query scope limit now
             = Err e)
  \/ (store.SQLiteStore.searchFTS db namespace query scope limit now = Panic
      /\ (store.fts5_match (store.DB.memories_fts db) query = Panic
          \/ exists r, In r (store.DB.memories db) /\ badRank r))
  \/ (exists cands,
         store.SQLiteStore.searchFTS db namespace query scope limit now
         = Ok cands
         /\ len cands <= limit
         /\ Forall (fun c =>
                      exists r,
                        In r (store.DB.memories db)
                        /\ store.SQLiteStore.baseWhere namespace scope now r
                           = true
                        /\ sameEntry r (store.Candidate.Record_ c)) cands).
Proof.
  intros Hl. unfold store.SQLiteStore.searchFTS.
  destruct (store.fts5_match (store.DB.memories_fts db) query) as [hits|e|];
    cbn [bind]; [|left; exists e; reflexivity | right; left; auto].
  set (joined := flat_map _ hits).
  set (ordered := SliceStable _ joined).
  assert (Hrows : forall row,
             In row (store.SQLiteStore.sqlLimit limit ordered) ->
             In (fst row) (store.DB.memories db)
             /\ store.SQLiteStore.baseWhere namespace scope now (fst row)
                = true).
  { intros row Hin. apply sqlLimit_In in Hin.
    apply (Permutation_in _ (SliceStable_perm _ _ joined)) in Hin.
    apply in_flat_map in Hin. destruct Hin as (hit & _ & Hin).
    apply in_map_iff in Hin. destruct Hin as (m & <- & Hm).
    apply filter_In in Hm. destruct Hm as [Hm Hf].
    apply andb_true_iff in Hf. cbn [fst]. tauto. }
  right.
  destruct (scanCandidates_cases (store.SQLiteStore.sqlLimit limit ordered))
    as [[-> Hb]|(cands & -> & Hall & _)].
  - left. split; [reflexivity|]. right.
    apply Exists_exists in Hb. destruct Hb as (row & Hin & Hbad).
    exists (fst row). split; [apply Hrows, Hin | exact Hbad].
  - right. exists cands. split; [reflexivity|].
    apply Forall2_length_In in Hall. destruct Hall as [Hlen Hin].
    split.
    + pose proof (sqlLimit_length _ limit ordered Hl) as Hle.
      unfold len in *. lia.
    + apply Forall_forall. intros c Hc.
      destruct (Hin c Hc) as (row & Hrow & Hs).
      exists (fst row). destruct (Hrows row Hrow). auto.
Qed.

Lemma searchLIKE_cases (db : store.DB.t) (namespace query : gostring)
  (terms : list gostring) (scope : gostring) (limit : Z) (now : Time) :
  0 <= limit ->
  exists cands,
    store.SQLiteStore.searchLIKE db namespace query terms scope limit now
    = Ok cands
    /\ len cands <= limit
    /\ Forall (fun c =>
                 exists r,
                   In r (store.DB.memories db)
                   /\ store.SQLiteStore.baseWhere namespace scope now r = true
                   /\ sameEntry r (store.Candidate.Record_ c)) cands.
Proof.
  intros Hl. unfold store.SQLiteStore.searchLIKE.
  eexists. split; [reflexivity|].
  set (ordered := SliceStable _ _).
  split.
  - unfold len. rewrite length_map.
    apply (sqlLimit_length _ limit ordered Hl).
  - apply Forall_forall. intros c Hc. apply in_map_iff in Hc.
    destruct Hc as (r & <- & Hr). exists r.
    apply sqlLimit_In in Hr.
    apply (Permutation_in _ (SliceStable_perm _ _ _)) in Hr.
    apply filter_In in Hr. destruct Hr as [Hin Hf].
    apply andb_true_iff in Hf.
    split; [exact Hin|]. split; [apply Hf | apply sameEntry_scan].
Qed.

(** What [SearchCandidates] returns, whichever path it takes. *)
Lemma SearchCandidates_cases (db : store.DB.t)
  (namespace query scope : gostring) (limit : Z) (now : Time) :
  let lim := if limit <=? 0 then 10 else limit in
  (exists e,
      store.SQLiteStore.SearchCandidates db namespace query scope limit now
      = (db, Err e))
  \/ (store.SQLiteStore.SearchCandidates db namespace query scope limit now
      = (db, Panic)
      /\ ((exists rows q, store.fts5_match rows q = Panic)
          \/ exists r, In r (store.DB.memories db) /\ badRank r))
  \/ (exists cands,
         store.SQLiteStore.SearchCandidates db namespace query scope limit now
         = (db, Ok cands)
         /\ len cands <= lim
         /\ Forall (fun c =>
                      exists r,
                        In r (store.DB.memories db)
                        /\ store.SQLiteStore.baseWhere namespace scope now r
                           = true
                        /\ sameEntry r (store.Candidate.Record_ c)) cands).
Proof.
  intros lim. unfold store.SQLiteStore.SearchCandidates. fold lim.
  assert (Hl : 0 <= lim).
  { subst lim. destruct (Z.leb_spec limit 0); lia. }
  set (q := TrimSpace query).
  set (terms := store.SQLiteStore.tokenizeQueryTerms q).
  destruct (searchLIKE_cases db namespace q terms scope lim now Hl)
    as (likes & Elike & Hlen & Hall).
  destruct (negb (isEmpty terms) && store.DB.ftsEnabled db).
  - destruct (searchFTS_cases db namespace
                (store.SQLiteStore.buildFTSMatchQuery terms) scope lim now Hl)
      as [[e ->]|[[-> Hp]|(cands & -> & Hlen' & Hall')]].
    + right. right. exists likes. rewrite Elike.
      split; [reflexivity | split; assumption].
    + right. left. split; [reflexivity|].
      destruct Hp as [Hp|Hp]; [left; eauto | right; exact Hp].
    + destruct cands as [|c cands].
      * right. right. exists likes. rewrite Elike.
        split; [reflexivity | split; assumption].
      * right. right. exists (c :: cands).
        split; [reflexivity | split; assumption].
  - right. right. exists likes. rewrite Elike.
    split; [reflexivity | split; assumption].
Qed.



End SearchProperties.


(** ** Requests that cannot panic *)

Section PanicProperties.
Context {J : mcp.JSON} {L : GoLib} {F : store.FTS5}.
Import types.

(** Nothing the search can reach panics: the FTS5 extension does not,
    and no stored metadata binds [_bm25] to anything but a number. *)
Definition searchable (db : store.DB.t) : Prop :=
  (forall rows q, store.fts5_match rows q <> Panic)
  /\ forall r, In r (store.DB.memories db) -> ~ badRank r.

Lemma Validate_positive (cfg : config.Config) :
  config.Validate cfg = true ->
  0 < config.MaxContextPackItems cfg /\ 0 < config.DefaultSearchK cfg.
Proof.
  unfold config.Validate. rewrite !andb_true_iff, !Z.ltb_lt. tauto.
Qed.

Lemma cut_positive (A : Type) (l : list A) (k : Z) :
  0 <= k -> memory.cut l k <> Panic.
Proof.
  intros Hk. unfold memory.cut. destruct (len l >? k); [|discriminate].
  destruct (Z.ltb_spec k 0); [lia | discriminate].
Qed.

Lemma Search_no_panic (cfg : config.Config) (expr : gostring -> bool)
  (db : store.DB.t) (now : Time) (in_ : SearchInput.t) :
  0 < config.DefaultSearchK cfg \/ 0 < SearchInput.K in_ ->
  searchable db ->
  snd (memory.Search (sqliteService cfg expr) db now in_) <> Panic.
Proof.
  intros Hk [Hfts Hrows]. unfold memory.Search.
  destruct (memory.validateNamespace _ _); [discriminate|].
  match goal with
  | |- context [if ?c then _ else _] => destruct c; [discriminate|]
  end.
  cbn [memory.store sqliteService store.SearchCandidates store.sqlite].
  match goal with
  | |- context [store.SQLiteStore.SearchCandidates ?d ?n ?q ?s ?l ?t] =>
      destruct (SearchCandidates_cases d n q s l t)
        as [[e ->]|[[-> Hp]|(cands & -> & _ & _)]]
  end; cbn [snd bind].
  - discriminate.
  - exfalso. destruct Hp as [(rows & q & Hp)|(r & Hin & Hb)].
    + apply (Hfts rows q Hp).
    + apply (Hrows r Hin Hb).
  - set (k := memory.searchK (sqliteService cfg expr) (SearchInput.K in_)).
    assert (Hpos : 0 <= k).
    { subst k. rewrite searchK_spec. cbn [memory.cfg sqliteService].
      destruct (Z.leb_spec (SearchInput.K in_) 0); lia. }
    destruct (memory.cut _ k) as [ranked| |] eqn:Hcut; cbn [bind];
      [discriminate | discriminate|].
    exfalso. revert Hcut. apply cut_positive. exact Hpos.
Qed.

Lemma ContextPack_no_panic (cfg : config.Config) (expr : gostring -> bool)
  (db : store.DB.t) (now : Time) (in_ : ContextPackInput.t) :
  config.Validate cfg = true ->
  searchable db ->
  snd (memory.ContextPack (sqliteService cfg expr) db now in_) <> Panic.
Proof.
  intros Hv Hs. apply Validate_positive in Hv. destruct Hv as [Hm Hd].
  unfold memory.ContextPack.
  match goal with
  | |- context [memory.Search ?s ?d ?n ?i] =>
      pose proof (Search_no_panic cfg expr d n i (or_introl Hd) Hs) as Hn;
      destruct (memory.Search s d n i) as [st' [results|e|]]
  end; cbn [snd bind] in *; [discriminate | discriminate | congruence].
Qed.

Lemma Write_no_panic (cfg : config.Config) (expr : gostring -> bool)
  (db : store.DB.t) (now : Time) (newID : gostring) (in_ : WriteInput.t) :
  snd (memory.Write (sqliteService cfg expr) db now newID in_) <> Panic.
Proof.
  destruct (Write_cases cfg expr db now newID in_)
    as [[e ->]|(db' & rec & -> & _)]; discriminate.
Qed.

Lemma Promote_no_panic (cfg : config.Config) (expr : gostring -> bool)
  (db : store.DB.t) (now : Time) (in_ : PromoteInput.t) :
  snd (memory.Promote (sqliteService cfg expr) db now in_) <> Panic.
Proof.
  unfold memory.Promote.
  destruct (isEmpty (TrimSpace _)); [discriminate|].
  match goal with
  | |- context [if ?c then _ else _] => destruct c; [discriminate|]
  end.
  cbn [memory.store sqliteService store.Promote store.sqlite
         store.GetMemory].
  unfold store.SQLiteStore.Promote.
  match goal with
  | |- context [if ?c then Some ErrNoRows else None] => destruct c
  end; [discriminate|].
  unfold store.SQLiteStore.GetMemory. destruct (find _ _); discriminate.
Qed.

Lemma toolSuccess_no_panic (v : mcp.payload) : mcp.toolSuccess v <> Panic.
Proof. unfold mcp.toolSuccess. destruct (mcp.MarshalIndent v); discriminate. Qed.

Lemma bind_toolSuccess (A : Type) (r : result A) (f : A -> mcp.payload) :
  r <> Panic -> bind r (fun a => mcp.toolSuccess (f a)) <> Panic.
Proof.
  destruct r as [a|e|]; cbn [bind]; intros H;
    [apply toolSuccess_no_panic | discriminate | congruence].
Qed.

(** X8. With a configuration that passes [Validate], an FTS5
    extension that does not panic and no stored metadata that binds
    [_bm25] to something that is not a number, [handle] answers every
    request: it does not panic, whatever the request holds and
    whatever the decoder makes of it. *)
Theorem handle_never_panics (cfg : config.Config) (expr : gostring -> bool)
  (sink : option (store.DB.t -> store.MCPRequestLog.t
                  -> store.DB.t * option error))
  (e : mcp.env.t) (w : mcp.world.t store.DB.t) (req : mcp.request.t) :
  config.Validate cfg = true ->
  searchable (mcp.world.db w) ->
  exists w' resp shouldRespond,
    mcp.handle (mcp.Server.mk (sqliteService cfg expr) sink) e w req
    = (w', Ok (resp, shouldRespond)).
Proof.
  intros Hv Hs.
  set (s := mcp.Server.mk (sqliteService cfg expr) sink).
  assert (Htool : forall params,
             snd (mcp.handleToolCall s e (mcp.world.db w) params) <> Panic).
  { intros params. unfold mcp.handleToolCall.
    destruct (mcp.Unmarshal_toolCall params) as [[name arguments]|err];
      [|discriminate].
    cbn [mcp.Server.svc s].
    destruct (gostring_eqb name (str "memory_write")).
    { destruct (mcp.Unmarshal_WriteInput arguments) as [in_|err];
        [|discriminate].
      pose proof (Write_no_panic cfg expr (mcp.world.db w) (mcp.env.now e)
                    (mcp.env.newID e) in_) as Hn.
      destruct (memory.Write _ _ _ _ _) as [db' r]. cbn [snd] in *.
      apply bind_toolSuccess. exact Hn. }
    destruct (gostring_eqb name (str "memory_search")).
    { destruct (mcp.Unmarshal_SearchInput arguments) as [in_|err];
        [|discriminate].
      pose proof (Search_no_panic cfg expr (mcp.world.db w) (mcp.env.now e)
                    in_ (or_introl (proj2 (Validate_positive cfg Hv))) Hs)
        as Hn.
      destruct (memory.Search _ _ _ _) as [db' r]. cbn [snd] in *.
      apply bind_toolSuccess. exact Hn. }
    destruct (gostring_eqb name (str "memory_get_context_pack")).
    { destruct (mcp.Unmarshal_ContextPackInput arguments) as [in_|err];
        [|discriminate].
      pose proof (ContextPack_no_panic cfg expr (mcp.world.db w)
                    (mcp.env.now e) in_ Hv Hs) as Hn.
      destruct (memory.ContextPack _ _ _ _) as [db' r]. cbn [snd] in *.
      apply bind_toolSuccess. exact Hn. }
    destruct (gostring_eqb name (str "memory_promote")).
    { destruct (mcp.Unmarshal_PromoteInput arguments) as [in_|err];
        [|discriminate].
      pose proof (Promote_no_panic cfg expr (mcp.world.db w) (mcp.env.now e)
                    in_) as Hn.
      destruct (memory.Promote _ _ _ _) as [db' r]. cbn [snd] in *.
      apply bind_toolSuccess. exact Hn. }
    discriminate. }
  unfold mcp.handle. cbv zeta.
  repeat (destruct (gostring_eqb _ _);
          [eexists; eexists; eexists; reflexivity|]).
  destruct (gostring_eqb _ _).
  - cbn [mcp.world.db].
    specialize (Htool (mcp.request.Params req)).
    destruct (mcp.handleToolCall s e (mcp.world.db w) (mcp.request.Params req))
      as [db' [res|err|]]; cbn [snd] in Htool.
    + eexists; eexists; eexists; reflexivity.
    + eexists; eexists; eexists; reflexivity.
    + congruence.
  - destruct (negb _); eexists; eexists; eexists; reflexivity.
Qed.

End PanicProperties.

(** An [initialize] request over the two summaries. *)
Lemma handle_never_panics_witness :
  config.Validate config.Default = true
  /\ searchable (F := fixture.noFTS) fixture.twoSummaries
  /\ exists w' resp shouldRespond,
       mcp.handle (J := fixture.json) (L := asciiLib)
         (mcp.Server.mk
            (sqliteService (L := asciiLib) (F := fixture.noFTS)
               config.Default (fun _ => true))
            None)
         (fixture.clock 0) (mcp.world.mk fixture.twoSummaries 0 0)
         fixture.initializeRequest
       = (w', Ok (resp, shouldRespond)).
Proof.
  assert (Hs : searchable (F := fixture.noFTS) fixture.twoSummaries).
  { split; [intros rows q; discriminate|].
    intros r Hin. cbn in Hin.
    destruct Hin as [<-|[<-|[]]]; intros (k & v & Hk & _);
      discriminate Hk. }
  split; [reflexivity|]. split; [exact Hs|].
  apply (handle_never_panics (J := fixture.json) (L := asciiLib)
           (F := fixture.noFTS) config.Default (fun _ => true) None
           (fixture.clock 0) (mcp.world.mk fixture.twoSummaries 0 0)
           fixture.initializeRequest eq_refl Hs).
Defined.

(** ** What [handle] replies to *)

Section DispatchProperties.
Context {J : mcp.JSON} {L : GoLib} {St : Type}.

(** X9. [handle] asks for a reply exactly when the request has an
    id and its method is not [notifications/initialized].  A reply
    carries the version 2.0 and the decoded id of the request.  Every
    request is counted; only [tools/call] can change the database or
    the error counter; and the only JSON-RPC error [handle] produces
    is -32601, method not found, with the method as data and no
    result. *)
Theorem handle_replies_to_requests_only (s : mcp.Server.t St) (e : mcp.env.t)
  (w w' : mcp.world.t St) (req : mcp.request.t) (resp : mcp.response.t)
  (shouldRespond : bool) :
  mcp.handle s e w req = (w', Ok (resp, shouldRespond)) ->
  shouldRespond
  = negb (isEmpty (mcp.request.ID req))
    && negb (gostring_eqb (mcp.request.Method req)
               (str "notifications/initialized"))
  /\ (shouldRespond = true ->
      mcp.response.JSONRPC resp = str "2.0"
      /\ mcp.response.ID resp = mcp.decodeID (mcp.request.ID req))
  /\ mcp.world.requests w' = mcp.addUint64 (mcp.world.requests w)
  /\ (mcp.request.Method req <> str "tools/call" ->
      mcp.world.db w' = mcp.world.db w
      /\ mcp.world.errors w' = mcp.world.errors w)
  /\ (forall err,
         mcp.response.Error resp = Some err ->
         shouldRespond = true
         /\ err = mcp.rpcError.mk (-32601) (str "method not found")
                    (String (mcp.request.Method req))
         /\ mcp.response.Result resp = Nil).
Proof.
  unfold mcp.handle. cbv zeta.
  destruct (gostring_eqb (mcp.request.Method req)
              (str "notifications/initialized")) eqn:E0.
  { intros H. injection H as <- <- <-. rewrite andb_false_r.
    cbn. repeat split; auto; try discriminate. }
  rewrite andb_true_r.
  destruct (gostring_eqb (mcp.request.Method req) (str "initialize")).
  { intros H. injection H as <- <- <-.
    cbn. repeat split; auto; try discriminate. }
  destruct (gostring_eqb (mcp.request.Method req) (str "ping")).
  { intros H. injection H as <- <- <-.
    cbn. repeat split; auto; try discriminate. }
  destruct (gostring_eqb (mcp.request.Method req) (str "tools/list")).
  { intros H. injection H as <- <- <-.
    cbn. repeat split; auto; try discriminate. }
  destruct (gostring_eqb (mcp.request.Method req) (str "tools/call")) eqn:E4.
  { apply gostring_eqb_eq in E4.
    destruct (mcp.handleToolCall _ _ _ _) as [db' [res|err|]];
      intros H; try discriminate; injection H as <- <- <-;
      cbn; repeat split; auto; try discriminate; try contradiction. }
  destruct (negb (isEmpty (mcp.request.ID req))) eqn:Eid; cbn [negb].
  - intros H. injection H as <- <- <-.
    cbn. repeat split; auto; try discriminate.
    match goal with
    | H : Some _ = Some _ |- _ => injection H as <-; reflexivity
    end.
  - intros H. injection H as <- <- <-.
    cbn. repeat split; auto; try discriminate.
Qed.

End DispatchProperties.

(** The [initialize] request has an id: it is answered and counted. *)
Lemma handle_replies_to_requests_only_witness :
  exists w' resp,
    mcp.handle (J := fixture.json) (L := asciiLib) fixture.server
      (fixture.clock 0) fixture.start fixture.initializeRequest
    = (w', Ok (resp, true))
    /\ mcp.response.JSONRPC resp = str "2.0"
    /\ mcp.world.requests w' = 1.
Proof.
  pose (out := mcp.handle (J := fixture.json) (L := asciiLib) fixture.server
                 (fixture.clock 0) fixture.start fixture.initializeRequest).
  pose (resp := match snd out with
                | Ok (resp, _) => resp
                | _ => mcp.response.zero
                end).
  assert (E : mcp.handle (J := fixture.json) (L := asciiLib) fixture.server
                (fixture.clock 0) fixture.start fixture.initializeRequest
              = (fst out, Ok (resp, true)))
    by (vm_compute; reflexivity).
  exists (fst out), resp. split; [exact E|].
  destruct (handle_replies_to_requests_only (J := fixture.json)
              (L := asciiLib) fixture.server (fixture.clock 0) fixture.start
              (fst out) fixture.initializeRequest resp true E)
    as (_ & Hreply & Hcount & _).
  split; [exact (proj1 (Hreply eq_refl))|].
  rewrite Hcount. reflexivity.
Defined.

(** ** Tool calls *)

Section ToolCallProperties.
Context {J : mcp.JSON} {L : GoLib} {St : Type}.

(** The result map of a tool call that succeeded. *)
Definition successResult (v : mcp.payload) (text : gostring)
  : gomap mcp.payload :=
  [(str "content",
    MapSlice [[(str "type", String (str "text")); (str "text", String text)]]);
   (str "structuredContent", Struct v);
   (str "isError", Bool false)].

Lemma toolSuccess_Ok (v : mcp.payload) (res : gomap mcp.payload) :
  mcp.toolSuccess v = Ok res ->
  exists text, mcp.MarshalIndent v = Done text /\ res = successResult v text.
Proof.
  unfold mcp.toolSuccess. destruct (mcp.MarshalIndent v) as [text|err];
    [|discriminate].
  intros H. injection H as <-. exists text. auto.
Qed.

Lemma bind_toolSuccess_Ok (A : Type) (r : result A) (f : A -> mcp.payload)
  (res : gomap mcp.payload) :
  bind r (fun a => mcp.toolSuccess (f a)) = Ok res ->
  exists a text,
    r = Ok a /\ mcp.MarshalIndent (f a) = Done text
    /\ res = successResult (f a) text.
Proof.
  destruct r as [a|e|]; cbn [bind]; try discriminate.
  intros H. apply toolSuccess_Ok in H. destruct H as (text & H1 & H2).
  exists a, text. auto.
Qed.

Lemma handleToolCall_Ok (s : mcp.Server.t St) (e : mcp.env.t) (db db' : St)
  (params : mcp.bytes) (res : gomap mcp.payload) :
  mcp.handleToolCall s e db params = (db', Ok res) ->
  exists v text, mcp.MarshalIndent v = Done text /\ res = successResult v text.
Proof.
  unfold mcp.handleToolCall.
  destruct (mcp.Unmarshal_toolCall params) as [[name arguments]|err];
    [|discriminate].
  destruct (gostring_eqb name (str "memory_write")).
  { destruct (mcp.Unmarshal_WriteInput arguments) as [in_|err];
      [|discriminate].
    destruct (memory.Write _ _ _ _ _) as [db1 r].
    intros H. injection H as _ H. apply bind_toolSuccess_Ok in H.
    destruct H as (a & text & _ & H1 & H2). eauto. }
  destruct (gostring_eqb name (str "memory_search")).
  { destruct (mcp.Unmarshal_SearchInput arguments) as [in_|err];
      [|discriminate].
    destruct (memory.Search _ _ _ _) as [db1 r].
    intros H. injection H as _ H. apply bind_toolSuccess_Ok in H.
    destruct H as (a & text & _ & H1 & H2). eauto. }
  destruct (gostring_eqb name (str "memory_get_context_pack")).
  { destruct (mcp.Unmarshal_ContextPackInput arguments) as [in_|err];
      [|discriminate].
    destruct (memory.ContextPack _ _ _ _) as [db1 r].
    intros H. injection H as _ H. apply bind_toolSuccess_Ok in H.
    destruct H as (a & text & _ & H1 & H2). eauto. }
  destruct (gostring_eqb name (str "memory_promote")).
  { destruct (mcp.Unmarshal_PromoteInput arguments) as [in_|err];
      [|discriminate].
    destruct (memory.Promote _ _ _ _) as [db1 r].
    intros H. injection H as _ H. apply bind_toolSuccess_Ok in H.
    destruct H as (a & text & _ & H1 & H2). eauto. }
  discriminate.
Qed.

(** X10. A [tools/call] request never yields a JSON-RPC error.
    When the tool succeeds the result is its content, with the
    rendered value as text, and the error counter stays.  When it
    fails the result is a content block with the error message and
    [isError] true, the error counter goes up by one, the response
    counts as unsuccessful, and its error text is the trimmed message,
    or [tool call failed] when that is blank. *)
Theorem tool_failure_is_reported_in_band (s : mcp.Server.t St)
  (e : mcp.env.t) (w w' : mcp.world.t St) (req : mcp.request.t)
  (resp : mcp.response.t) (shouldRespond : bool) :
  mcp.request.Method req = str "tools/call" ->
  mcp.handle s e w req = (w', Ok (resp, shouldRespond)) ->
  mcp.response.Error resp = None
  /\ ((exists res v text,
          mcp.handleToolCall s e (mcp.world.db w) (mcp.request.Params req)
          = (mcp.world.db w', Ok res)
          /\ mcp.response.Result resp = Map res
          /\ res = successResult v text
          /\ mcp.MarshalIndent v = Done text
          /\ mcp.world.errors w' = mcp.world.errors w
          /\ mcp.responseSuccessful resp = true)
      \/ (exists err,
             mcp.handleToolCall s e (mcp.world.db w) (mcp.request.Params req)
             = (mcp.world.db w', Err err)
             /\ mcp.response.Result resp
                = Map [(str "content",
                        MapSlice [[(str "type", String (str "text"));
                                   (str "text", String (mcp.Error_ err))]]);
                       (str "isError", Bool true)]
             /\ mcp.world.errors w' = mcp.addUint64 (mcp.world.errors w)
             /\ mcp.responseSuccessful resp = false
             /\ mcp.responseErrorText resp
                = (if isEmpty (TrimSpace (mcp.Error_ err))
                   then str "tool call failed"
                   else TrimSpace (mcp.Error_ err)))).
Proof.
  intros Hm. unfold mcp.handle. cbv zeta. rewrite Hm.
  change (gostring_eqb (str "tools/call") (str "notifications/initialized"))
    with false.
  change (gostring_eqb (str "tools/call") (str "initialize")) with false.
  change (gostring_eqb (str "tools/call") (str "ping")) with false.
  change (gostring_eqb (str "tools/call") (str "tools/list")) with false.
  change (gostring_eqb (str "tools/call") (str "tools/call")) with true.
  cbv iota. cbn [mcp.world.db].
  destruct (mcp.handleToolCall s e (mcp.world.db w) (mcp.request.Params req))
    as [db' [res|err|]] eqn:Eh; intros H; [| |discriminate];
    injection H as <- <- <-; cbn [mcp.response.Error mcp.world.db];
    (split; [reflexivity|]).
  - left. destruct (handleToolCall_Ok _ _ _ _ _ _ Eh) as (v & text & Hmar & ->).
    exists (successResult v text), v, text.
    repeat split; auto.
  - right. exists err. repeat split.
Qed.

End ToolCallProperties.

(** A [tools/call] request whose parameters do not decode. *)
Definition toolCallRequest : mcp.request.t :=
  mcp.request.mk (str "2.0") (str "1") (str "tools/call") (str "oops").

(** The reply to it is a result, not a JSON-RPC error. *)
Lemma tool_failure_is_reported_in_band_witness :
  mcp.request.Method toolCallRequest = str "tools/call"
  /\ exists w' resp,
       mcp.handle (J := fixture.json) (L := asciiLib) fixture.server
         (fixture.clock 0) fixture.start toolCallRequest
       = (w', Ok (resp, true))
       /\ mcp.response.Error resp = None.
Proof.
  split; [reflexivity|].
  pose (out := mcp.handle (J := fixture.json) (L := asciiLib) fixture.server
                 (fixture.clock 0) fixture.start toolCallRequest).
  pose (resp := match snd out with
                | Ok (resp, _) => resp
                | _ => mcp.response.zero
                end).
  assert (E : mcp.handle (J := fixture.json) (L := asciiLib) fixture.server
                (fixture.clock 0) fixture.start toolCallRequest
              = (fst out, Ok (resp, true)))
    by (vm_compute; reflexivity).
  exists (fst out), resp. split; [exact E|].
  exact (proj1 (tool_failure_is_reported_in_band (J := fixture.json)
                  (L := asciiLib) fixture.server (fixture.clock 0)
                  fixture.start (fst out) toolCallRequest resp true
                  eq_refl E)).
Defined.

(** ** The framing of messages *)

(** A byte that is neither white space nor part of the UTF-8 encoding
    of a white space character. *)
Definition plain (c : N) : Prop := (c < 128)%N /\ mcp.asciiSpace c = false.

Definition isDigitByte (c : N) : Prop := (48 <= c <= 57)%N.

Lemma digit_byte (d : Z) : 0 <= d < 10 -> isDigitByte (digit d).
Proof. intros H. unfold isDigitByte, digit. lia. Qed.

Lemma digit_value (d : Z) : 0 <= d < 10 -> Z.of_N (digit d) - 48 = d.
Proof. intros H. unfold digit. lia. Qed.

Lemma digitsValue_digit (acc d : Z) (s : mcp.bytes) :
  0 <= d < 10 ->
  mcp.digitsValue acc (digit d :: s) = mcp.digitsValue (10 * acc + d) s.
Proof.
  intros H. cbn [mcp.digitsValue].
  pose proof (digit_byte d H) as [H1 H2].
  replace ((48 <=? digit d)%N && (digit d <=? 57)%N) with true
    by (symmetry; apply andb_true_iff; split; apply N.leb_le; assumption).
  rewrite digit_value by exact H. reflexivity.
Qed.

(** The digits [decimalFuel] puts in front of [tl], given fuel for
    them all. *)
Lemma decimalFuel_digits (fuel : nat) :
  forall (n : Z) (tl : gostring),
    (0 < fuel)%nat -> 0 <= n < 10 ^ Z.of_nat fuel ->
    exists ds,
      decimalFuel fuel n tl = ds ++ tl
      /\ ds <> []
      /\ Forall isDigitByte ds
      /\ forall acc rest,
           mcp.digitsValue acc (ds ++ rest)
           = mcp.digitsValue (acc * 10 ^ len ds + n) rest.
Proof.
  induction fuel as [|fuel IH]; intros n tl Hf Hn; [lia|].
  cbn [decimalFuel].
  destruct (Z.ltb_spec n 10) as [Hs|Hb].
  - exists [digit n]. split; [reflexivity|]. split; [discriminate|].
    split; [constructor; [apply digit_byte; lia | constructor]|].
    intros acc rest. cbn [app]. rewrite digitsValue_digit by lia.
    change (len [digit n]) with 1. f_equal. lia.
  - assert (Hq : 0 <= n / 10 < 10 ^ Z.of_nat fuel).
    { split; [apply Z.div_pos; lia|].
      apply Z.div_lt_upper_bound; [lia|].
      rewrite Nat2Z.inj_succ, Z.pow_succ_r in Hn by lia. lia. }
    assert (Hfuel : (0 < fuel)%nat).
    { destruct fuel; [|lia]. simpl in Hq.
      assert (1 <= n / 10) by (apply Z.div_le_lower_bound; lia). lia. }
    destruct (IH (n / 10) (digit (n mod 10) :: tl) Hfuel Hq)
      as (ds & -> & Hne & Hall & Hval).
    pose proof (Z.mod_pos_bound n 10 ltac:(lia)) as Hm.
    exists (ds ++ [digit (n mod 10)]).
    split; [rewrite <- app_assoc; reflexivity|].
    split; [destruct ds; discriminate|].
    split; [apply Forall_app; split;
            [exact Hall | constructor; [apply digit_byte; lia | constructor]]|].
    intros acc rest. rewrite <- app_assoc. cbn [app].
    rewrite Hval, digitsValue_digit by lia.
    rewrite len_app. change (len [digit (n mod 10)]) with 1.
    rewrite Z.pow_add_r by (try apply len_nonneg; lia).
    f_equal. pose proof (Z.div_mod n 10 ltac:(lia)). lia.
Qed.

Lemma decimal_digits (n : Z) :
  0 <= n ->
  decimal n <> []
  /\ Forall isDigitByte (decimal n)
  /\ mcp.digitsValue 0 (decimal n) = Some n.
Proof.
  intros Hn. unfold decimal.
  destruct (decimalFuel_digits (S (Z.to_nat (Z.log2 n))) n [] ltac:(lia))
    as (ds & E & Hne & Hall & Hval).
  { split; [exact Hn|].
    destruct (Z.eq_dec n 0) as [->|Hz]; [reflexivity|].
    rewrite Nat2Z.inj_succ, Z2Nat.id by apply Z.log2_nonneg.
    pose proof (Z.log2_spec n ltac:(lia)) as [_ Hlt].
    apply Z.lt_le_trans with (2 ^ Z.succ (Z.log2 n)); [exact Hlt|].
    apply Z.pow_le_mono_l. pose proof (Z.log2_nonneg n). lia. }
  rewrite E, app_nil_r. split; [exact Hne|]. split; [exact Hall|].
  specialize (Hval 0 []). rewrite app_nil_r in Hval. rewrite Hval.
  replace (0 * 10 ^ len ds + n) with n by lia. reflexivity.
Qed.

Lemma Atoi_unsigned (d : N) (ds : mcp.bytes) :
  d <> 45%N -> d <> 43%N ->
  mcp.Atoi (d :: ds)
  = match mcp.digitsValue 0 (d :: ds) with
    | Some v =>
        if (v <? minInt64) || (v >? maxInt64)
        then Err (Errorf (str "strconv.Atoi: value out of range"))
        else Ok v
    | None => Err (Errorf (str "strconv.Atoi: invalid syntax"))
    end.
Proof.
  intros Hm Hp. unfold mcp.Atoi.
  destruct d as [|p]; [reflexivity|].
  do 6 (destruct p as [p|p|]; try reflexivity); congruence.
Qed.

(** [strconv.Atoi] reads back what [%d] prints. *)
Lemma Atoi_decimal (n : Z) :
  0 <= n <= maxInt64 -> mcp.Atoi (decimal n) = Ok n.
Proof.
  intros [H0 Hmax].
  destruct (decimal_digits n H0) as (Hne & Hall & Hval).
  destruct (decimal n) as [|d ds] eqn:E; [congruence|].
  inversion Hall as [|? ? Hd _]; subst.
  rewrite Atoi_unsigned by (unfold isDigitByte in Hd; lia).
  unfold rune in *. rewrite Hval.
  replace ((n <? minInt64) || (n >? maxInt64)) with false; [reflexivity|].
  symmetry. apply orb_false_iff. split.
  - apply Z.ltb_ge. unfold minInt64. lia.
  - rewrite Z.gtb_ltb. apply Z.ltb_ge. exact Hmax.
Qed.

(** ** White space in bytes *)

Lemma cutPrefix_other (c p : N) (s enc : mcp.bytes) :
  p <> c -> mcp.cutPrefix (c :: s) (p :: enc) = None.
Proof.
  intros H. cbn [mcp.cutPrefix].
  destruct (N.eqb_spec p c); [contradiction | reflexivity].
Qed.

(** No white space character, in either direction of reading, begins
    with a plain byte. *)
Lemma cutSpace_plain (encodings : list mcp.bytes) (c : N) (s : mcp.bytes) :
  Forall (fun enc => exists p t, enc = p :: t /\ (128 <= p)%N) encodings ->
  plain c -> mcp.cutSpace encodings (c :: s) = None.
Proof.
  intros Henc [Hc Hs]. unfold mcp.cutSpace. rewrite Hs.
  induction Henc as [|enc encodings (p & t & -> & Hp) _ IH];
    cbn [fold_right]; [reflexivity|].
  rewrite cutPrefix_other by lia. exact IH.
Qed.

Lemma utf8Spaces_high :
  Forall (fun enc => exists p t, enc = p :: t /\ (128 <= p)%N) mcp.utf8Spaces.
Proof.
  unfold mcp.utf8Spaces. cbn [map app].
  repeat (constructor; [eexists; eexists; split; [reflexivity | lia]|]).
  constructor.
Qed.

Lemma utf8Spaces_rev_high :
  Forall (fun enc => exists p t, enc = p :: t /\ (128 <= p)%N)
    (map (@rev N) mcp.utf8Spaces).
Proof.
  unfold mcp.utf8Spaces. cbn [map app rev].
  repeat (constructor; [eexists; eexists; split; [reflexivity | lia]|]).
  constructor.
Qed.

Lemma trimLeft_plain (fuel : nat) (encodings : list mcp.bytes) (c : N)
  (s : mcp.bytes) :
  Forall (fun enc => exists p t, enc = p :: t /\ (128 <= p)%N) encodings ->
  plain c -> mcp.trimLeft fuel encodings (c :: s) = c :: s.
Proof.
  intros Henc Hc. destruct fuel; cbn [mcp.trimLeft]; [reflexivity|].
  rewrite cutSpace_plain by assumption. reflexivity.
Qed.

Lemma trimLeft_space (fuel : nat) (encodings : list mcp.bytes) (c : N)
  (s : mcp.bytes) :
  mcp.asciiSpace c = true ->
  mcp.trimLeft (S fuel) encodings (c :: s) = mcp.trimLeft fuel encodings s.
Proof.
  intros Hc. cbn [mcp.trimLeft mcp.cutSpace]. rewrite Hc. reflexivity.
Qed.

(** Bytes that begin and end with a plain byte are left as they are
    by [bytes.TrimSpace]. *)
Lemma TrimSpaceBytes_plain (a b : N) (mid : mcp.bytes) :
  plain a -> plain b ->
  mcp.TrimSpaceBytes (a :: mid ++ [b]) = a :: mid ++ [b].
Proof.
  intros Ha Hb. unfold mcp.TrimSpaceBytes. cbv zeta.
  rewrite (trimLeft_plain _ _ a _ utf8Spaces_high Ha).
  change (a :: mid ++ [b]) with ((a :: mid) ++ [b]).
  rewrite rev_app_distr. cbn [rev app].
  rewrite (trimLeft_plain _ _ b _ utf8Spaces_rev_high Hb).
  cbn [rev]. rewrite rev_app_distr, rev_involutive. reflexivity.
Qed.

Lemma TrimSpaceBytes_single (a : N) :
  plain a -> mcp.TrimSpaceBytes [a] = [a].
Proof.
  intros Ha. unfold mcp.TrimSpaceBytes. cbv zeta.
  rewrite (trimLeft_plain _ _ a _ utf8Spaces_high Ha). cbn [rev app].
  rewrite (trimLeft_plain _ _ a _ utf8Spaces_rev_high Ha). reflexivity.
Qed.

(** A list that is not empty has a first and a last element. *)
Lemma ends (A : Type) (l : list A) :
  l <> [] ->
  (exists a, l = [a]) \/ exists a mid b, l = a :: mid ++ [b].
Proof.
  intros H. destruct l as [|a l]; [congruence|].
  destruct l as [|a' l]; [left; eauto|].
  destruct (@exists_last _ (a' :: l) ltac:(discriminate)) as (mid & b & ->).
  right. eauto.
Qed.

(** ** Messages on the wire *)

Lemma readLine_line (pre rest : mcp.bytes) :
  Forall (fun c => c <> 10%N) pre ->
  mcp.readLine (pre ++ 10%N :: rest) = (pre ++ [10%N], rest, true).
Proof.
  induction 1 as [|c pre Hc _ IH]; cbn [app mcp.readLine].
  - reflexivity.
  - destruct (N.eqb_spec c 10); [contradiction|]. rewrite IH. reflexivity.
Qed.

Lemma TrimRightCRLF_line (s : mcp.bytes) (x : N) :
  x <> 13%N -> x <> 10%N ->
  mcp.TrimRightCRLF ((s ++ [x]) ++ [13; 10]%N) = s ++ [x].
Proof.
  intros H13 H10. unfold mcp.TrimRightCRLF.
  rewrite rev_app_distr. cbn [rev app dropWhile N.eqb Pos.eqb orb].
  rewrite rev_app_distr. cbn [rev app dropWhile].
  destruct (N.eqb_spec x 13); [contradiction|].
  destruct (N.eqb_spec x 10); [contradiction|].
  cbn [orb rev]. rewrite rev_involutive. reflexivity.
Qed.

Lemma firstn_exact (A : Type) (l r : list A) : firstn (length l) (l ++ r) = l.
Proof. induction l as [|x l IH]; simpl; [reflexivity | rewrite IH; reflexivity]. Qed.

Lemma skipn_exact (A : Type) (l r : list A) : skipn (length l) (l ++ r) = r.
Proof. induction l as [|x l IH]; simpl; [reflexivity | exact IH]. Qed.

Lemma digit_plain (c : N) : isDigitByte c -> plain c.
Proof.
  unfold isDigitByte, plain, mcp.asciiSpace. intros H. split; [lia|].
  cbn [existsb].
  repeat match goal with
         | |- context [N.eqb c ?k] => destruct (N.eqb_spec c k); [lia|]
         end.
  reflexivity.
Qed.

(** The value of a [Content-Length] header written by the server. *)
Lemma TrimSpaceBytes_number (n : Z) :
  0 <= n -> mcp.TrimSpaceBytes (32%N :: decimal n) = decimal n.
Proof.
  intros Hn. destruct (decimal_digits n Hn) as (Hne & Hall & _).
  unfold mcp.TrimSpaceBytes. cbv zeta. cbn [length].
  rewrite trimLeft_space by reflexivity.
  destruct (ends _ (decimal n) Hne) as [(a & E)|(a & mid & b & E)];
    rewrite E in *.
  - inversion Hall as [|? ? Ha _]; subst. apply digit_plain in Ha.
    rewrite (trimLeft_plain _ _ a _ utf8Spaces_high Ha). cbn [rev app].
    rewrite (trimLeft_plain _ _ a _ utf8Spaces_rev_high Ha). reflexivity.
  - inversion Hall as [|? ? Ha Hrest]; subst.
    apply Forall_app in Hrest. destruct Hrest as [_ Hb].
    inversion Hb as [|? ? Hb' _]; subst.
    apply digit_plain in Ha. apply digit_plain in Hb'.
    rewrite (trimLeft_plain _ _ a _ utf8Spaces_high Ha).
    change (a :: mid ++ [b]) with ((a :: mid) ++ [b]).
    rewrite rev_app_distr. cbn [rev app].
    rewrite (trimLeft_plain _ _ b _ utf8Spaces_rev_high Hb').
    cbn [rev]. rewrite rev_app_distr, rev_involutive. reflexivity.
Qed.

Definition contentLengthHeader : mcp.bytes :=
  [67; 111; 110; 116; 101; 110; 116; 45; 76; 101; 110; 103; 116; 104; 58;
   32]%N.

Lemma contentLengthHeader_str : str "Content-Length: " = contentLengthHeader.
Proof. reflexivity. Qed.

(** One header line: what the loop of [readFramedMessage] does with
    it. *)
Lemma readHeaders_line (fuel : nat) (contentLength : Z)
  (pre rest : mcp.bytes) :
  Forall (fun c => c <> 10%N) pre ->
  mcp.readHeaders (S fuel) contentLength (pre ++ 10%N :: rest)
  = let line := mcp.TrimRightCRLF (pre ++ [10%N]) in
    if isEmpty line then (Ok contentLength, rest)
    else
      match mcp.splitColon line with
      | (_, None) => mcp.readHeaders fuel contentLength rest
      | (name, Some value) =>
          if mcp.equalFoldContentLength (mcp.TrimSpaceBytes name) then
            match mcp.Atoi (mcp.TrimSpaceBytes value) with
            | Ok n => mcp.readHeaders fuel n rest
            | Err e =>
                (Err (Errorf (str "invalid Content-Length: "
                                ++ match e with
                                   | Errorf m => m
                                   | _ => []
                                   end)), rest)
            | Panic => (Panic, rest)
            end
          else mcp.readHeaders fuel contentLength rest
      end.
Proof.
  intros Hpre. cbn [mcp.readHeaders]. rewrite (readLine_line pre rest Hpre).
  reflexivity.
Qed.

Lemma readHeaders_contentLength (fuel : nat) (contentLength n : Z)
  (rest : mcp.bytes) :
  0 <= n <= maxInt64 ->
  mcp.readHeaders (S fuel) contentLength
    ((contentLengthHeader ++ decimal n ++ [13%N]) ++ 10%N :: rest)
  = mcp.readHeaders fuel n rest.
Proof.
  intros Hn. destruct (decimal_digits n ltac:(lia)) as (Hne & Hall & _).
  rewrite readHeaders_line.
  2:{ apply Forall_app. split; [repeat constructor; discriminate|].
      apply Forall_app. split; [|repeat constructor; discriminate].
      eapply Forall_impl; [|exact Hall].
      intros c Hc. unfold isDigitByte in Hc. lia. }
  destruct (@exists_last _ (decimal n) Hne) as (ds & x & E).
  assert (Hx : isDigitByte x).
  { rewrite E in Hall. apply Forall_app in Hall. destruct Hall as [_ Hx].
    inversion Hx; assumption. }
  assert (Hline : mcp.TrimRightCRLF
                    ((contentLengthHeader ++ decimal n ++ [13%N]) ++ [10%N])
                  = contentLengthHeader ++ decimal n).
  { replace ((contentLengthHeader ++ decimal n ++ [13%N]) ++ [10%N])
      with (((contentLengthHeader ++ ds) ++ [x]) ++ [13; 10]%N)
      by (rewrite E, <- !app_assoc; reflexivity).
    rewrite TrimRightCRLF_line by (unfold isDigitByte in Hx; lia).
    rewrite E, <- !app_assoc. reflexivity. }
  cbv zeta. rewrite Hline.
  change (isEmpty (contentLengthHeader ++ decimal n)) with false.
  change (mcp.splitColon (contentLengthHeader ++ decimal n))
    with (firstn 14 contentLengthHeader, Some (32%N :: decimal n)).
  cbv iota.
  change (mcp.equalFoldContentLength
            (mcp.TrimSpaceBytes (firstn 14 contentLengthHeader)))
    with true.
  cbv iota. rewrite (TrimSpaceBytes_number n ltac:(lia)).
  rewrite (Atoi_decimal n Hn). reflexivity.
Qed.

Lemma readHeaders_blank (fuel : nat) (contentLength : Z) (rest : mcp.bytes) :
  mcp.readHeaders (S fuel) contentLength (13%N :: 10%N :: rest)
  = (Ok contentLength, rest).
Proof. reflexivity. Qed.

(** A message that begins with a [Content-Length] header and the
    blank line: what [readMessage] makes of it, for every length the
    header can give. *)
Lemma readMessage_header (n : Z) (rest : mcp.bytes) :
  0 <= n <= maxInt64 ->
  mcp.readMessage
    (str "Content-Length: " ++ decimal n ++ [13; 10; 13; 10]%N ++ rest)
  = if n =? 0
    then (Err (Errorf (str "missing or invalid Content-Length")), rest)
    else if n >? maxAlloc then (Panic, rest)
    else if (Z.to_nat n <=? length rest)%nat
    then (Ok (firstn (Z.to_nat n) rest, mcp.wireModeFramed),
          skipn (Z.to_nat n) rest)
    else (Err (if isEmpty rest then EOF else ErrUnexpectedEOF), []).
Proof.
  intros Hn.
  pose (input := (contentLengthHeader ++ decimal n ++ [13%N])
                   ++ 10%N :: 13%N :: 10%N :: rest).
  replace (str "Content-Length: " ++ decimal n ++ [13; 10; 13; 10]%N ++ rest)
    with input
    by (subst input; rewrite contentLengthHeader_str, <- !app_assoc;
        reflexivity).
  assert (Hmode : mcp.detectWireMode input = (Ok mcp.wireModeFramed, input)).
  { subst input. reflexivity. }
  unfold mcp.readMessage. rewrite Hmode.
  unfold mcp.readFramedMessage.
  assert (Hlen : exists f, length input = S f).
  { subst input. rewrite length_app. cbn [length]. eexists.
    rewrite Nat.add_succ_r. reflexivity. }
  destruct Hlen as [f ->].
  subst input.
  rewrite (readHeaders_contentLength (S f) 0 n _ Hn).
  rewrite readHeaders_blank.
  destruct (Z.eqb_spec n 0) as [->|Hne]; [reflexivity|].
  replace (n <=? 0) with false by (symmetry; apply Z.leb_gt; lia).
  destruct (n >? maxAlloc); [reflexivity|].
  destruct (Z.to_nat n <=? length rest)%nat; reflexivity.
Qed.

(** A framed message is read back as it was written. *)
Lemma readMessage_framed (body rest : mcp.bytes) :
  0 < len body <= maxAlloc ->
  mcp.readMessage
    ((str "Content-Length: " ++ decimal (len body) ++ [13; 10; 13; 10]%N
        ++ body) ++ rest)
  = (Ok (body, mcp.wireModeFramed), rest).
Proof.
  intros [Hpos Hmax].
  assert (Hint : maxAlloc <= maxInt64) by (vm_compute; discriminate).
  rewrite <- !app_assoc. rewrite readMessage_header by lia.
  replace (len body =? 0) with false by (symmetry; apply Z.eqb_neq; lia).
  replace (len body >? maxAlloc) with false
    by (symmetry; rewrite Z.gtb_ltb; apply Z.ltb_ge; lia).
  unfold len. rewrite Nat2Z.id.
  replace (length body <=? length (body ++ rest))%nat with true
    by (symmetry; apply Nat.leb_le; rewrite length_app; lia).
  rewrite firstn_exact, skipn_exact. reflexivity.
Qed.

(** A JSON object on a line of its own is read back as it was
    written. *)
Lemma readMessage_line (mid rest : mcp.bytes) :
  Forall (fun c => c <> 10%N) mid ->
  mcp.readMessage ((123%N :: mid ++ [125%N]) ++ 10%N :: rest)
  = (Ok (123%N :: mid ++ [125%N], mcp.wireModeJSONLine), rest).
Proof.
  intros Hmid. pose (body := 123%N :: mid ++ [125%N]).
  change (mcp.readMessage (body ++ 10%N :: rest)
          = (Ok (body, mcp.wireModeJSONLine), rest)).
  assert (Hmode : mcp.detectWireMode (body ++ 10%N :: rest)
                  = (Ok mcp.wireModeJSONLine, body ++ 10%N :: rest)).
  { reflexivity. }
  unfold mcp.readMessage. rewrite Hmode.
  cbn [mcp.readJSONLineMessage].
  rewrite readLine_line.
  2:{ subst body. constructor; [discriminate|].
      apply Forall_app. split; [exact Hmid | repeat constructor; discriminate]. }
  assert (Htrim : mcp.TrimSpaceBytes (body ++ [10%N]) = body).
  { assert (Hp1 : plain 123) by (split; [lia | reflexivity]).
    assert (Hp2 : plain 125) by (split; [lia | reflexivity]).
    unfold mcp.TrimSpaceBytes. cbv zeta. subst body. cbn [app].
    rewrite (trimLeft_plain _ _ 123%N _ utf8Spaces_high Hp1).
    change (123%N :: (mid ++ [125%N]) ++ [10%N])
      with ((123%N :: mid ++ [125%N]) ++ [10%N]).
    rewrite rev_app_distr. cbn [rev app length].
    rewrite trimLeft_space by reflexivity.
    rewrite rev_app_distr. cbn [rev app].
    rewrite (trimLeft_plain _ _ 125%N _ utf8Spaces_rev_high Hp2).
    cbn [rev]. rewrite rev_app_distr, rev_involutive. reflexivity. }
  rewrite Htrim. reflexivity.
Qed.

Section WireProperties.
Context {J : mcp.JSON}.

(** X11. What [writeMessage] writes, [readMessage] reads back, in
    either mode.  For a response that [json.Marshal] renders as an
    object without a line feed, shorter than 2^31 bytes, reading the
    bytes written, followed by any further input, gives the rendered
    object and the mode it was written in, and leaves the further
    input. *)
Theorem written_message_is_read_back (resp : mcp.response.t)
  (mid rest : mcp.bytes) (mode : mcp.wireMode) :
  mcp.Marshal resp = Done (123%N :: mid ++ [125%N]) ->
  Forall (fun c => c <> 10%N) mid ->
  len mid + 2 < 2 ^ 31 ->
  exists out,
    mcp.writeMessage resp mode = Done out
    /\ mcp.readMessage (out ++ rest)
       = (Ok (123%N :: mid ++ [125%N], mode), rest).
Proof.
  intros Hm Hmid Hmax.
  assert (Hlen : 0 < len (123%N :: mid ++ [125%N]) <= maxAlloc).
  { assert (2 ^ 31 <= maxAlloc) by (vm_compute; discriminate).
    unfold len in *. cbn [length]. rewrite length_app. cbn [length]. lia. }
  unfold mcp.writeMessage, mcp.writeFramedMessage. rewrite Hm.
  destruct mode; eexists; (split; [reflexivity|]).
  - apply readMessage_framed. exact Hlen.
  - rewrite <- app_assoc. apply readMessage_line. exact Hmid.
Qed.

(** X12. A message that starts with the header [Content-Length: n]
    and a blank line.  With n = 0 it is refused as missing or invalid.
    With n above the largest size [make] accepts, allocating the body
    panics.  With n below 2^31 the next n bytes are the payload and
    the rest of the input stays; when fewer than n bytes follow, the
    error is [io.EOF] if none follows and [io.ErrUnexpectedEOF] if
    some do. *)
Theorem framed_message_edges (n : Z) (rest : mcp.bytes) :
  0 <= n <= maxInt64 ->
  let input :=
    str "Content-Length: " ++ decimal n ++ [13; 10; 13; 10]%N ++ rest in
  (n = 0 ->
   mcp.readMessage input
   = (Err (Errorf (str "missing or invalid Content-Length")), rest))
  /\ (maxAlloc < n -> mcp.readMessage input = (Panic, rest))
  /\ (0 < n < 2 ^ 31 -> n <= len rest ->
      mcp.readMessage input
      = (Ok (firstn (Z.to_nat n) rest, mcp.wireModeFramed),
         skipn (Z.to_nat n) rest))
  /\ (0 < n < 2 ^ 31 -> len rest < n ->
      mcp.readMessage input
      = (Err (if isEmpty rest then EOF else ErrUnexpectedEOF), [])).
Proof.
  intros Hn input. subst input. rewrite (readMessage_header n rest Hn).
  assert (Hsmall : 2 ^ 31 <= maxAlloc) by (vm_compute; discriminate).
  split; [intros ->; reflexivity|].
  split; [|split].
  - intros H. replace (n =? 0) with false by (symmetry; apply Z.eqb_neq; lia).
    replace (n >? maxAlloc) with true
      by (symmetry; rewrite Z.gtb_ltb; apply Z.ltb_lt; lia).
    reflexivity.
  - intros H Hr.
    replace (n =? 0) with false by (symmetry; apply Z.eqb_neq; lia).
    replace (n >? maxAlloc) with false
      by (symmetry; rewrite Z.gtb_ltb; apply Z.ltb_ge; lia).
    replace (Z.to_nat n <=? length rest)%nat with true
      by (symmetry; apply Nat.leb_le; unfold len in Hr; lia).
    reflexivity.
  - intros H Hr.
    replace (n =? 0) with false by (symmetry; apply Z.eqb_neq; lia).
    replace (n >? maxAlloc) with false
      by (symmetry; rewrite Z.gtb_ltb; apply Z.ltb_ge; lia).
    replace (Z.to_nat n <=? length rest)%nat with false
      by (symmetry; apply Nat.leb_gt; unfold len in Hr; lia).
    reflexivity.
Qed.

End WireProperties.

(** An empty result, written framed and read back before another message. *)
Lemma written_message_is_read_back_witness :
  exists mid out,
    @mcp.Marshal fixture.json
      (mcp.response.mk (str "2.0") (Number 1) (Map []) None)
    = Done (123%N :: mid ++ [125%N])
    /\ Forall (fun c => c <> 10%N) mid
    /\ mcp.writeMessage (J := fixture.json)
         (mcp.response.mk (str "2.0") (Number 1) (Map []) None)
         mcp.wireModeFramed
       = Done out
    /\ mcp.readMessage (out ++ fixture.initializeLine ++ [10%N])
       = (Ok (123%N :: mid ++ [125%N], mcp.wireModeFramed),
          fixture.initializeLine ++ [10%N]).
Proof.
  pose (resp := mcp.response.mk (str "2.0") (Number 1) (Map []) None).
  pose (body := match @mcp.Marshal fixture.json resp with
                | Done b => b
                | Failed _ => []
                end).
  pose (mid := removelast (tl body)).
  assert (E : @mcp.Marshal fixture.json resp = Done (123%N :: mid ++ [125%N]))
    by (vm_compute; reflexivity).
  assert (Hmid : Forall (fun c => c <> 10%N) mid).
  { vm_compute. repeat (constructor; [discriminate|]). constructor. }
  assert (Hlen : len mid + 2 < 2 ^ 31) by (vm_compute; reflexivity).
  destruct (written_message_is_read_back (J := fixture.json) resp mid
              (fixture.initializeLine ++ [10%N]) mcp.wireModeFramed
              E Hmid Hlen) as (out & Hw & Hr).
  exists mid, out. split; [exact E|]. split; [exact Hmid|].
  split; [exact Hw|exact Hr].
Defined.

(** A header that announces one byte more than [make] accepts. *)
Lemma framed_message_edges_witness :
  0 <= maxAlloc + 1 <= maxInt64
  /\ mcp.readMessage
       (str "Content-Length: " ++ decimal (maxAlloc + 1)
          ++ [13; 10; 13; 10]%N ++ str "{}")
     = (Panic, str "{}").
Proof.
  assert (H : 0 <= maxAlloc + 1 <= maxInt64)
    by (split; vm_compute; discriminate).
  split; [exact H|].
  destruct (framed_message_edges (maxAlloc + 1) (str "{}") H)
    as (_ & Hpanic & _).
  apply Hpanic. vm_compute. reflexivity.
Defined.

(** ** The counters of the dashboard *)

Section StatsProperties.
Import types.

(** [expires_at IS NOT NULL AND expires_at <= ?], the condition of the
    fourth counter *)
Definition due (now : Time) (r : store.Row.t) : bool :=
  match store.Row.expires_at r with
  | None => false
  | Some e => text_leb (store.sqlText e) (store.sqlText now)
  end.

Lemma count_partition (A : Type) (short long due expired : A -> bool)
  (rows : list A) :
  Forall (fun r =>
            short r = negb (long r)
            /\ expired r = short r && due r
            /\ (long r = true -> due r = false)) rows ->
  let kept := filter (fun r => negb (expired r)) rows in
  let n := length (filter expired rows) in
  (length (filter short rows) + length (filter long rows) = length rows
   /\ length (filter due rows) = n
   /\ length kept + n = length rows
   /\ length (filter short kept) + n = length (filter short rows)
   /\ length (filter long kept) = length (filter long rows)
   /\ length (filter due kept) = 0)%nat.
Proof.
  intros Hall. cbv zeta.
  induction Hall as [|r rows (Hs & Hx & Hl) _ IH]; [cbn; lia|].
  destruct IH as (I1 & I2 & I3 & I4 & I5 & I6).
  cbn [filter]. rewrite Hx, Hs.
  destruct (long r) eqn:El, (due r) eqn:Ed;
    try (specialize (Hl eq_refl); discriminate);
    cbn [negb andb filter length]; rewrite ?Hx, ?Hs, ?El, ?Ed;
    cbn [negb andb filter length]; lia.
Qed.

(** X13. On a well-formed table the counters of [Stats] add up and
    agree with the sweep.  The total is the number of rows and the sum
    of the short and the long counter; the expired counter is the
    number of rows a sweep at the same time deletes, and at most the
    short counter.  After that sweep the total and the short counter
    are lower by that number, the long counter is the same and the
    expired counter is 0. *)
Theorem Stats_agrees_with_sweep (db : store.DB.t) (now : Time) :
  consistent db ->
  exists st db' st',
    store.SQLiteStore.Stats db now = (db, Ok st)
    /\ store.SQLiteStore.ExpireShort db now = (db', Ok (store.Stats.Expired st))
    /\ store.SQLiteStore.Stats db' now = (db', Ok st')
    /\ store.Stats.Total st = len (store.DB.memories db)
    /\ store.Stats.Total st = store.Stats.Short st + store.Stats.Long st
    /\ 0 <= store.Stats.Expired st <= store.Stats.Short st
    /\ store.Stats.Total st' = store.Stats.Total st - store.Stats.Expired st
    /\ store.Stats.Short st' = store.Stats.Short st - store.Stats.Expired st
    /\ store.Stats.Long st' = store.Stats.Long st
    /\ store.Stats.Expired st' = 0.
Proof.
  intros [_ Hrows].
  assert (Hall : Forall (fun r =>
                   gostring_eqb (store.Row.scope r) (str "short")
                   = negb (gostring_eqb (store.Row.scope r) (str "long"))
                   /\ store.SQLiteStore.expired now r
                      = gostring_eqb (store.Row.scope r) (str "short")
                        && due now r
                   /\ (gostring_eqb (store.Row.scope r) (str "long") = true ->
                       due now r = false)) (store.DB.memories db)).
  { eapply Forall_impl; [|exact Hrows]. intros r [Hscope Hlong].
    split; [|split].
    - unfold store.checkScope in Hscope. apply orb_true_iff in Hscope.
      destruct Hscope as [H|H]; apply gostring_eqb_eq in H; rewrite H;
        reflexivity.
    - reflexivity.
    - intros H. apply gostring_eqb_eq in H. unfold due.
      rewrite (Hlong H). reflexivity. }
  destruct (count_partition _ _ _ _ _ _ Hall) as (C1 & C2 & C3 & C4 & C5 & C6).
  assert (Ctrue : forall rows : list store.Row.t,
             filter (fun _ => true) rows = rows).
  { induction rows as [|r rows IH]; cbn [filter]; [|rewrite IH]; reflexivity. }
  eexists _, _, _.
  split.
  { unfold store.SQLiteStore.Stats. cbv zeta. rewrite Ctrue. fold (due now).
    reflexivity. }
  cbn [store.Stats.Total store.Stats.Short store.Stats.Long
         store.Stats.Expired].
  split.
  { unfold store.SQLiteStore.ExpireShort. cbv zeta.
    replace (len (filter (due now) (store.DB.memories db)))
      with (len (filter (store.SQLiteStore.expired now)
                   (store.DB.memories db)))
      by (unfold len; f_equal; symmetry; exact C2).
    reflexivity. }
  split.
  { unfold store.SQLiteStore.Stats. cbv zeta. rewrite Ctrue. fold (due now).
    reflexivity. }
  cbn [store.Stats.Total store.Stats.Short store.Stats.Long
         store.Stats.Expired store.DB.memories].
  unfold len. repeat split; lia.
Qed.

End StatsProperties.

(** The counters of a table with one short entry. *)
Lemma Stats_agrees_with_sweep_witness :
  consistent fixture.alreadyExpired
  /\ exists st db' st',
       store.SQLiteStore.Stats fixture.alreadyExpired fixture.sweepLate
       = (fixture.alreadyExpired, Ok st)
       /\ store.SQLiteStore.ExpireShort fixture.alreadyExpired
            fixture.sweepLate
          = (db', Ok (store.Stats.Expired st))
       /\ store.SQLiteStore.Stats db' fixture.sweepLate = (db', Ok st')
       /\ store.Stats.Total st = store.Stats.Short st + store.Stats.Long st.
Proof.
  assert (Inv : consistent fixture.alreadyExpired).
  { split.
    - repeat constructor; cbn; intuition discriminate.
    - repeat constructor; intros; discriminate. }
  split; [exact Inv|].
  destruct (Stats_agrees_with_sweep fixture.alreadyExpired fixture.sweepLate
              Inv) as (st & db' & st' & H1 & H2 & H3 & _ & H4 & _).
  exists st, db', st'. split; [exact H1|]. split; [exact H2|].
  split; [exact H3 | exact H4].
Defined.

(** ** The recent records and memories *)

Section RecentProperties.
Import types.

Lemma StronglySorted_app_cross (A : Type) (R : A -> A -> Prop)
  (l1 l2 : list A) :
  StronglySorted R (l1 ++ l2) ->
  StronglySorted R l1 /\ Forall (fun x => Forall (R x) l2) l1.
Proof.
  induction l1 as [|x l1 IH]; cbn [app]; intros H.
  - split; constructor.
  - inversion H as [|? ? Hs Hx]; subst. destruct (IH Hs) as [H1 H2].
    apply Forall_app in Hx. destruct Hx as [Hx1 Hx2].
    split; constructor; assumption.
Qed.

(** [ORDER BY key DESC LIMIT n] on a TEXT column: the rows returned
    are in descending order of the text, and none of the rows left out
    has a text above one of them. *)
Lemma newest_text_first (A : Type) (key : A -> gostring) (n : Z)
  (l : list A) :
  0 < n ->
  let items :=
    store.SQLiteStore.sqlLimit n
      (SliceStable (fun a b => text_ltb (key b) (key a)) l) in
  len items = Z.min n (len l)
  /\ StronglySorted (fun a b => text_ltb (key a) (key b) = false) items
  /\ exists older,
       Permutation (items ++ older) l
       /\ Forall (fun i =>
                    Forall (fun o => text_ltb (key i) (key o) = false) older)
            items.
Proof.
  intros Hn. cbv zeta. unfold store.SQLiteStore.sqlLimit.
  destruct (Z.ltb_spec n 0) as [|_]; [lia|].
  set (less := fun a b => text_ltb (key b) (key a)).
  set (sorted := SliceStable less l).
  assert (Hsorted : StronglySorted
                      (fun a b => text_ltb (key a) (key b) = false) sorted).
  { apply (SliceStable_descending _ less (fun _ => True)).
    - intros a b. unfold less. apply text_ltb_asym.
    - intros a b c _. unfold less. intros H.
      destruct (text_ltb_negtrans _ (key b) _ H); auto.
    - apply Forall_forall. auto. }
  rewrite <- (firstn_skipn (Z.to_nat n) sorted) in Hsorted.
  apply StronglySorted_app_cross in Hsorted. destruct Hsorted as [H1 H2].
  split; [|split; [exact H1|]].
  - unfold len. rewrite length_firstn. subst sorted.
    rewrite SliceStable_length. lia.
  - exists (skipn (Z.to_nat n) sorted). split; [|exact H2].
    rewrite firstn_skipn. apply SliceStable_perm.
Qed.


(** X15. [RecentMemories] leaves the database as it is.  Its items
    are the scans of as many rows as the limit allows, 20 for a limit
    that is not positive, or of all rows when there are fewer, in
    descending order of the stored [created_at] text; no row left out
    has a text above that of a row returned.  An item has a blank
    summary only if both the summary and the content of its row are
    blank. *)
Theorem RecentMemories_newest_text_first (s s' : store.DB.t) (limit : Z)
  (items : list store.RecentMemory.t) :
  store.SQLiteStore.RecentMemories s limit = (s', Ok items) ->
  let text r := store.sqlText (store.Row.created_at r) in
  s' = s
  /\ exists rows older,
       items = map store.SQLiteStore.scanRecentMemory rows
       /\ len rows
          = Z.min (if limit <=? 0 then 20 else limit)
              (len (store.DB.memories s))
       /\ StronglySorted (fun a b => text_ltb (text a) (text b) = false) rows
       /\ Permutation (rows ++ older) (store.DB.memories s)
       /\ Forall (fun i =>
                    Forall (fun o => text_ltb (text i) (text o) = false)
                      older) rows
       /\ Forall (fun item =>
                    TrimSpace (store.RecentMemory.Summary item) = [] ->
                    exists r,
                      In r rows
                      /\ TrimSpace (store.Row.summary r) = []
                      /\ TrimSpace (store.Row.content r) = []) items.
Proof.
  unfold store.SQLiteStore.RecentMemories. cbv zeta.
  destruct (makeslicePanics 96 _); [discriminate|].
  intros H. injection H as <- <-.
  split; [reflexivity|].
  destruct (newest_text_first _
              (fun r => store.sqlText (store.Row.created_at r))
              (if limit <=? 0 then 20 else limit) (store.DB.memories s))
    as (Hlen & Hs & older & Hp & Ho).
  { destruct (Z.leb_spec limit 0); lia. }
  eexists _, older. split; [reflexivity|].
  split; [exact Hlen|]. split; [exact Hs|]. split; [exact Hp|].
  split; [exact Ho|].
  apply Forall_forall. intros item Hin Hblank.
  apply in_map_iff in Hin. destruct Hin as (r & <- & Hin).
  exists r. split; [exact Hin|].
  unfold store.SQLiteStore.scanRecentMemory in Hblank.
  cbn [store.RecentMemory.Summary] in Hblank.
  destruct (isEmpty (TrimSpace (store.Row.summary r))) eqn:E.
  - apply isEmpty_true in E. split; assumption.
  - apply isEmpty_false in E. contradiction.
Qed.

End RecentProperties.



(** The newest of the two summaries. *)
Lemma RecentMemories_newest_text_first_witness :
  exists items,
    store.SQLiteStore.RecentMemories fixture.twoSummaries 1
    = (fixture.twoSummaries, Ok items)
    /\ exists rows,
         items = map store.SQLiteStore.scanRecentMemory rows
         /\ len rows = 1.
Proof.
  pose (items := match snd (store.SQLiteStore.RecentMemories
                              fixture.twoSummaries 1) with
                 | Ok x => x
                 | _ => []
                 end).
  assert (E : store.SQLiteStore.RecentMemories fixture.twoSummaries 1
              = (fixture.twoSummaries, Ok items)) by (vm_compute; reflexivity).
  exists items. split; [exact E|].
  destruct (RecentMemories_newest_text_first fixture.twoSummaries
              fixture.twoSummaries 1 items E)
    as (_ & rows & older & Hitems & Hlen & _).
  exists rows. split; [exact Hitems|]. rewrite Hlen. reflexivity.
Defined.

(** ** The terms of a query *)

Section TokenizerProperties.
Context {L : GoLib}.

(** The code points the tokenizer keeps. *)
Definition wordRune (r : rune) : bool :=
  unicode_IsLetter r || unicode_IsDigit r.

(** A term: not empty, and made of lower-cased letters and digits of
    the query. *)
Definition termOf (query term : gostring) : Prop :=
  term <> []
  /\ Forall (fun c =>
               exists r, In r query /\ wordRune r = true
                         /\ c = unicode_ToLower r) term.

Lemma flush_empty (sb : gostring) (terms : list gostring) :
  store.SQLiteStore.flush sb terms = [] <-> terms = [] /\ sb = [].
Proof.
  unfold store.SQLiteStore.flush. destruct sb as [|c sb]; cbn [isEmpty].
  - tauto.
  - destruct (existsb _ terms) eqn:E.
    + split; [|tauto]. intros ->. discriminate.
    + split; [|intros [_ H]; discriminate].
      intros H. apply app_eq_nil in H. destruct H as [_ H]. discriminate.
Qed.

Lemma flush_NoDup (sb : gostring) (terms : list gostring) :
  NoDup terms -> NoDup (store.SQLiteStore.flush sb terms).
Proof.
  intros H. unfold store.SQLiteStore.flush.
  destruct (isEmpty sb); [exact H|].
  destruct (existsb (gostring_eqb sb) terms) eqn:E; [exact H|].
  apply NoDup_snoc; [exact H|].
  intros Hin. apply existsb_gostring_eqb in Hin. congruence.
Qed.

Lemma flush_Forall (P : gostring -> Prop) (sb : gostring)
  (terms : list gostring) :
  (sb <> [] -> P sb) -> Forall P terms ->
  Forall P (store.SQLiteStore.flush sb terms).
Proof.
  intros Hsb Ht. unfold store.SQLiteStore.flush.
  destruct (isEmpty sb) eqn:E; [exact Ht|].
  destruct (existsb _ _); [exact Ht|].
  apply isEmpty_false in E.
  apply Forall_app. split; [exact Ht | constructor; [auto | constructor]].
Qed.

Lemma tokenizeLoop_empty (query : gostring) :
  forall sb terms,
    store.SQLiteStore.tokenizeLoop query sb terms = []
    <-> terms = [] /\ sb = [] /\ Forall (fun r => wordRune r = false) query.
Proof.
  induction query as [|r query IH]; intros sb terms;
    cbn [store.SQLiteStore.tokenizeLoop].
  - rewrite flush_empty. split; [intros [? ?]|intros (? & ? & _)]; auto.
  - fold (wordRune r). destruct (wordRune r) eqn:E.
    + rewrite IH. split.
      * intros (_ & H & _). apply app_eq_nil in H. destruct H; discriminate.
      * intros (_ & _ & H). inversion H; congruence.
    + rewrite IH, flush_empty. split.
      * intros ([-> ->] & _ & H). auto.
      * intros (-> & -> & H). inversion H; auto.
Qed.

Lemma tokenizeLoop_NoDup (query : gostring) :
  forall sb terms,
    NoDup terms -> NoDup (store.SQLiteStore.tokenizeLoop query sb terms).
Proof.
  induction query as [|r query IH]; intros sb terms H;
    cbn [store.SQLiteStore.tokenizeLoop].
  - apply flush_NoDup, H.
  - destruct (_ || _); apply IH; [exact H | apply flush_NoDup, H].
Qed.

Lemma tokenizeLoop_terms (whole query : gostring) :
  (forall r, In r query -> In r whole) ->
  forall sb terms,
    (sb <> [] -> termOf whole sb) -> Forall (termOf whole) terms ->
    Forall (termOf whole) (store.SQLiteStore.tokenizeLoop query sb terms).
Proof.
  induction query as [|r query IH]; intros Hsub sb terms Hsb Ht;
    cbn [store.SQLiteStore.tokenizeLoop].
  - apply flush_Forall; assumption.
  - fold (wordRune r). destruct (wordRune r) eqn:E.
    + apply IH; [intros; apply Hsub; right; assumption| |exact Ht].
      intros _. split.
      * intros H. apply app_eq_nil in H. destruct H; discriminate.
      * apply Forall_app. split.
        -- destruct sb as [|c sb]; [constructor|].
           apply Hsb. discriminate.
        -- constructor; [|constructor].
           exists r. split; [apply Hsub; left; reflexivity|]. auto.
    + apply IH; [intros; apply Hsub; right; assumption| |].
      * intros H. contradiction.
      * apply flush_Forall; assumption.
Qed.

(** X16. The terms of a query are distinct and none is empty; each
    is made of lower-cased letters and digits of the trimmed query;
    and there is no term exactly when the trimmed query holds no
    letter and no digit. *)
Theorem tokenizeQueryTerms_terms (query : gostring) :
  let terms := store.SQLiteStore.tokenizeQueryTerms query in
  NoDup terms
  /\ Forall (termOf (TrimSpace query)) terms
  /\ (terms = [] <-> Forall (fun r => wordRune r = false) (TrimSpace query)).
Proof.
  cbv zeta. unfold store.SQLiteStore.tokenizeQueryTerms.
  destruct (TrimSpace query) as [|c q] eqn:E; cbn [isEmpty].
  - split; [constructor|]. split; [constructor|]. split; auto.
  - split; [apply tokenizeLoop_NoDup; constructor|].
    split.
    + apply tokenizeLoop_terms; [auto | intros H; contradiction|constructor].
    + rewrite tokenizeLoop_empty. tauto.
Qed.

End TokenizerProperties.

(** ** [Serve], message by message *)

Section ServeProperties.
Context {J : mcp.JSON} {L : GoLib} {St : Type}.

(** The loop reads the environment of the messages in order. *)
Lemma serveLoop_shift (fuel : nat) (s : mcp.Server.t St)
  (envs : nat -> mcp.env.t) (m : nat) :
  forall (n : nat) (w : mcp.world.t St) (input : mcp.bytes),
    mcp.serveLoop fuel s envs (m + n) w input
    = mcp.serveLoop fuel s (fun k => envs (m + k)%nat) n w input.
Proof.
  induction fuel as [|fuel IH]; intros n w input; [reflexivity|].
  cbn [mcp.serveLoop].
  destruct (mcp.readMessage input) as [[[payload mode]|err|] rest];
    try reflexivity.
  cbv zeta.
  destruct (mcp.step.next (mcp.serveMessage s (envs (m + n)%nat) w payload mode));
    try reflexivity.
  rewrite <- (IH (S n)), Nat.add_succ_r. reflexivity.
Qed.

(** Fuel beyond the length of the input changes nothing. *)
Lemma serveLoop_fuel (f1 : nat) (s : mcp.Server.t St)
  (envs : nat -> mcp.env.t) :
  forall (f2 n : nat) (w : mcp.world.t St) (input : mcp.bytes),
    (length input < f1)%nat -> (length input < f2)%nat ->
    mcp.serveLoop f1 s envs n w input = mcp.serveLoop f2 s envs n w input.
Proof.
  induction f1 as [|f1 IH]; intros f2 n w input H1 H2; [lia|].
  destruct f2 as [|f2]; [lia|].
  cbn [mcp.serveLoop].
  destruct (mcp.readMessage input) as [[[payload mode]|err|] rest] eqn:Er;
    try reflexivity.
  apply readMessage_consumes in Er. cbv zeta.
  destruct (mcp.step.next (mcp.serveMessage s (envs n) w payload mode));
    try reflexivity.
  rewrite (IH f2) by lia. reflexivity.
Qed.

Lemma dropWhile_all (A : Type) (f : A -> bool) (l : list A) :
  Forall (fun x => f x = true) l -> dropWhile f l = [].
Proof.
  induction 1 as [|x l Hx _ IH]; cbn [dropWhile]; [reflexivity|].
  rewrite Hx. exact IH.
Qed.

(** X17. [Serve] returns on every input, and it runs message by
    message.  At the end of the input it returns nil; it returns the
    error or the panic of a read that fails; otherwise it handles the
    first message and, unless that ends the loop, goes on as [Serve]
    does on the rest of the input, the writes and the records of both
    in order.  On an input of white space alone it returns nil and
    has written and recorded nothing. *)
Theorem Serve_message_by_message (s : mcp.Server.t St)
  (envs : nat -> mcp.env.t) (w : mcp.world.t St) (input : mcp.bytes) :
  (exists st, mcp.Serve s envs w input = Some st)
  /\ mcp.Serve s envs w input
     = match mcp.readMessage input with
       | (Err EOF, _) => Some (mcp.step.mk w [] [] (Ok tt))
       | (Err err, _) => Some (mcp.step.mk w [] [] (Err err))
       | (Panic, _) => Some (mcp.step.mk w [] [] Panic)
       | (Ok (payload, mode), rest) =>
           let st := mcp.serveMessage s (envs 0%nat) w payload mode in
           match mcp.step.next st with
           | Ok _ =>
               match mcp.Serve s (fun n => envs (S n)) (mcp.step.after st)
                       rest with
               | Some st' =>
                   Some (mcp.step.mk (mcp.step.after st')
                           (mcp.step.written st ++ mcp.step.written st')
                           (mcp.step.logged st ++ mcp.step.logged st')
                           (mcp.step.next st'))
               | None => None
               end
           | _ => Some st
           end
       end
  /\ (Forall (fun c => IsSpace c = true) input ->
      mcp.Serve s envs w input = Some (mcp.step.mk w [] [] (Ok tt))).
Proof.
  split; [apply serveLoop_returns; lia|].
  split.
  - unfold mcp.Serve at 1. cbn [mcp.serveLoop].
    destruct (mcp.readMessage input) as [[[payload mode]|err|] rest] eqn:Er;
      try reflexivity.
    apply readMessage_consumes in Er. cbv zeta.
    destruct (mcp.step.next (mcp.serveMessage s (envs 0%nat) w payload mode));
      try reflexivity.
    unfold mcp.Serve.
    rewrite (serveLoop_fuel (length input) s envs (S (length rest)))
      by lia.
    rewrite (serveLoop_shift (S (length rest)) s envs 1 0). reflexivity.
  - intros Hblank. unfold mcp.Serve. cbn [mcp.serveLoop].
    unfold mcp.readMessage, mcp.detectWireMode.
    rewrite (dropWhile_all _ _ _ Hblank). reflexivity.
Qed.

End ServeProperties.

(** ** The statements of the schema *)

Section SchemaProperties.

Lemma Split_nonempty (s : gostring) (sep : rune) : Split s sep <> [].
Proof.
  destruct s as [|c s]; cbn [Split]; [discriminate|].
  destruct (c =? sep)%N; [discriminate|].
  destruct (Split s sep); discriminate.
Qed.

Lemma Split_pieces (s : gostring) (sep : rune) :
  Forall (fun piece => ~ In sep piece) (Split s sep).
Proof.
  induction s as [|c s IH]; cbn [Split].
  - constructor; [intros []|constructor].
  - destruct (N.eqb_spec c sep) as [->|Hne].
    + constructor; [intros []|exact IH].
    + destruct (Split s sep) as [|piece pieces].
      * constructor; [|constructor]. intros [H|[]]. congruence.
      * inversion IH as [|? ? Hp Hps]; subst.
        constructor; [|exact Hps]. intros [H|H]; [congruence|auto].
Qed.

Lemma Split_piece (piece rest : gostring) (sep : rune) :
  ~ In sep piece ->
  Split (piece ++ sep :: rest) sep = piece :: Split rest sep.
Proof.
  induction piece as [|c piece IH]; intros Hnot; cbn [app Split].
  - rewrite N.eqb_refl. reflexivity.
  - destruct (N.eqb_spec c sep) as [->|Hne].
    + exfalso. apply Hnot. left. reflexivity.
    + rewrite IH by (intros H; apply Hnot; right; exact H). reflexivity.
Qed.

Lemma dropWhile_subset (A : Type) (f : A -> bool) (l : list A) (x : A) :
  In x (dropWhile f l) -> In x l.
Proof.
  induction l as [|y l IH]; cbn [dropWhile]; [auto|].
  destruct (f y); [intros H; right; apply IH, H | auto].
Qed.

Lemma TrimSpace_In (s : gostring) (c : rune) :
  In c (TrimSpace s) -> In c s.
Proof.
  unfold TrimSpace. intros H. apply in_rev in H.
  apply dropWhile_subset in H. apply in_rev in H.
  apply dropWhile_subset in H. exact H.
Qed.

(** A statement as [splitSQLStatements] gives it: a trimmed text that
    is not empty and holds no semicolon, followed by a semicolon. *)
Definition statementOf (stmt : gostring) : Prop :=
  exists body,
    stmt = body ++ str ";"
    /\ body <> [] /\ TrimSpace body = body /\ ~ In 59%N body.

Lemma statements_of_pieces (pieces : list gostring) :
  Forall (fun piece => ~ In 59%N piece) pieces ->
  Forall statementOf
    (flat_map (fun p =>
                 let p := TrimSpace p in
                 if isEmpty p then [] else [p ++ str ";"]) pieces).
Proof.
  induction 1 as [|piece pieces Hp _ IH]; cbn [flat_map]; [constructor|].
  apply Forall_app. split; [|exact IH]. cbv zeta.
  destruct (isEmpty (TrimSpace piece)) eqn:E; constructor; [|constructor].
  exists (TrimSpace piece). split; [reflexivity|].
  split; [apply isEmpty_false, E|]. split; [apply TrimSpace_idem|].
  intros H. apply Hp. apply TrimSpace_In. exact H.
Qed.

Lemma resplit (stmts : list gostring) :
  Forall statementOf stmts ->
  store.splitSQLStatements (concat stmts) = stmts.
Proof.
  unfold store.splitSQLStatements.
  induction 1 as [|stmt stmts (body & -> & Hne & Htrim & Hsemi) _ IH];
    cbn [concat].
  - reflexivity.
  - rewrite <- app_assoc. change (str ";" ++ concat stmts)
      with (59%N :: concat stmts).
    rewrite (Split_piece _ _ _ Hsemi). cbn [flat_map]. rewrite IH.
    cbv zeta. rewrite Htrim.
    destruct body; [contradiction|]. reflexivity.
Qed.

Lemma dropWhile_nil (A : Type) (f : A -> bool) (l : list A) :
  dropWhile f l = [] <-> Forall (fun x => f x = true) l.
Proof.
  induction l as [|x l IH]; cbn [dropWhile].
  - split; [constructor | reflexivity].
  - destruct (f x) eqn:E.
    + rewrite IH. split; [intros H; constructor; assumption|].
      intros H. inversion H; assumption.
    + split; [discriminate|]. intros H. inversion H; congruence.
Qed.

Lemma TrimSpace_nil (s : gostring) :
  TrimSpace s = [] <-> Forall (fun c => IsSpace c = true) s.
Proof.
  unfold TrimSpace. split.
  - intros H. apply (f_equal (@rev rune)) in H.
    rewrite rev_involutive in H. cbn [rev] in H.
    apply dropWhile_nil in H. apply Forall_rev in H.
    rewrite rev_involutive in H.
    destruct (dropWhile IsSpace s) as [|c t] eqn:E.
    + apply dropWhile_nil. exact E.
    + pose proof (dropWhile_head _ IsSpace s c t E) as Hc.
      inversion H; congruence.
  - intros H. apply dropWhile_nil in H. rewrite H. reflexivity.
Qed.

Lemma Split_all (Q : rune -> Prop) (s : gostring) (sep : rune) :
  Forall (Forall Q) (Split s sep) <-> Forall (fun c => Q c \/ c = sep) s.
Proof.
  induction s as [|c s IH]; cbn [Split].
  - split; intros _; repeat constructor.
  - destruct (N.eqb_spec c sep) as [->|Hne].
    + split; intros H; inversion H; subst.
      * constructor; [right; reflexivity | apply IH; assumption].
      * constructor; [constructor | apply IH; assumption].
    + destruct (Split s sep) as [|piece pieces].
      * split; intros H; inversion H as [|? ? Hc Hs]; subst.
        -- inversion Hc; subst. constructor; [left; assumption|].
           apply IH. constructor.
        -- destruct Hc as [Hc|Hc]; [|contradiction].
           repeat constructor. exact Hc.
      * split; intros H; inversion H as [|? ? Hc Hs]; subst.
        -- inversion Hc; subst. constructor; [left; assumption|].
           apply IH. constructor; assumption.
        -- destruct Hc as [Hc|Hc]; [|contradiction].
           apply IH in Hs. inversion Hs; subst.
           constructor; [constructor; assumption | assumption].
Qed.

Lemma flat_map_nil (A B : Type) (f : A -> list B) (l : list A) :
  flat_map f l = [] <-> Forall (fun x => f x = []) l.
Proof.
  induction l as [|x l IH]; cbn [flat_map].
  - split; [constructor | reflexivity].
  - split.
    + intros H. apply app_eq_nil in H. destruct H as [Hx Hl].
      constructor; [exact Hx | apply IH, Hl].
    + intros H. inversion H as [|? ? Hx Hl]; subst.
      rewrite Hx. apply IH, Hl.
Qed.

(** X18. Every statement [splitSQLStatements] returns is a
    trimmed text that is not empty and holds no semicolon, followed by
    one semicolon.  Splitting the concatenation of the statements
    gives the same statements, and no statement is returned exactly
    when the script holds nothing but white space and semicolons. *)
Theorem splitSQLStatements_statements (s : gostring) :
  Forall statementOf (store.splitSQLStatements s)
  /\ store.splitSQLStatements (concat (store.splitSQLStatements s))
     = store.splitSQLStatements s
  /\ (store.splitSQLStatements s = []
      <-> Forall (fun c => IsSpace c = true \/ c = 59%N) s).
Proof.
  assert (Hst : Forall statementOf (store.splitSQLStatements s)).
  { apply statements_of_pieces, Split_pieces. }
  split; [exact Hst|]. split; [apply resplit, Hst|].
  unfold store.splitSQLStatements.
  rewrite flat_map_nil, <- Split_all.
  split; intros H; (eapply Forall_impl; [|exact H]); cbv beta zeta;
    intros piece Hp.
  - apply TrimSpace_nil. destruct (isEmpty (TrimSpace piece)) eqn:E;
      [apply isEmpty_true, E | discriminate].
  - apply TrimSpace_nil in Hp. rewrite Hp. reflexivity.
Qed.

End SchemaProperties.

(** ** A tool call that fails *)

Section AtomicProperties.
Context {J : mcp.JSON} {L : GoLib} {F : store.FTS5}.
Import types.

Lemma Write_failure_keeps (cfg : config.Config) (expr : gostring -> bool)
  (db db' : store.DB.t) (now : Time) (newID : gostring) (in_ : WriteInput.t)
  (e : error) :
  memory.Write (sqliteService cfg expr) db now newID in_ = (db', Err e) ->
  db' = db.
Proof.
  destruct (Write_cases cfg expr db now newID in_)
    as [[e0 ->]|(db1 & rec & -> & _)]; congruence.
Qed.

Lemma Promote_failure_keeps (cfg : config.Config) (expr : gostring -> bool)
  (db db' : store.DB.t) (now : Time) (in_ : PromoteInput.t) (e : error) :
  memory.Promote (sqliteService cfg expr) db now in_ = (db', Err e) ->
  db' = db.
Proof.
  unfold memory.Promote.
  destruct (isEmpty (TrimSpace _)); [congruence|].
  match goal with
  | |- context [if ?c then _ else _] => destruct c; [congruence|]
  end.
  cbn [memory.store sqliteService store.Promote store.sqlite
         store.GetMemory].
  unfold store.SQLiteStore.Promote.
  set (id := PromoteInput.MemoryID in_).
  destruct (store.hasID id (store.DB.memories db)) eqn:Hhas;
    unfold store.hasID in Hhas.
  - rewrite (filter_some_length _ _ _ Hhas).
    unfold store.SQLiteStore.GetMemory. cbn [store.DB.memories].
    fold (promoteRows id now (store.DB.memories db)).
    destruct (find (fun r => gostring_eqb (store.Row.id r) id)
                (promoteRows id now (store.DB.memories db))) as [r|] eqn:Hf;
      [discriminate|].
    exfalso. apply existsb_exists in Hhas.
    destruct Hhas as (r & Hin & Hr).
    assert (Hp : In (store.SQLiteStore.promoteRow now r)
                   (promoteRows id now (store.DB.memories db))).
    { unfold promoteRows. apply in_map_iff. exists r. rewrite Hr. auto. }
    pose proof (find_none _ _ Hf _ Hp) as Hn. cbn in Hn. congruence.
  - rewrite (filter_none_length _ _ _ Hhas). cbn [len length Z.of_nat Z.eqb].
    rewrite (map_unchanged _ _ _ _ Hhas), DB_eta. congruence.
Qed.

Lemma bind_toolSuccess_Err (A : Type) (r : result A) (f : A -> mcp.payload)
  (err : error) :
  bind r (fun a => mcp.toolSuccess (f a)) = Err err ->
  r = Err err \/ exists v, mcp.MarshalIndent v = Failed err.
Proof.
  destruct r as [a|e|]; cbn [bind]; [|left; congruence|discriminate].
  unfold mcp.toolSuccess. destruct (mcp.MarshalIndent (f a)) eqn:E;
    [discriminate|].
  intros H. injection H as <-. right. exists (f a). exact E.
Qed.

(** X19. A tool call that fails leaves the database as it was,
    unless what failed was rendering the result of an operation that
    succeeded.  A call of a tool other than [memory_write] and
    [memory_promote] never changes the database.  Parameters that do
    not decode are reported as invalid tools/call params, and nothing
    changes. *)
Theorem failed_tool_call_changes_nothing (cfg : config.Config)
  (expr : gostring -> bool)
  (sink : option (store.DB.t -> store.MCPRequestLog.t
                  -> store.DB.t * option error))
  (e : mcp.env.t) (db db' : store.DB.t) (params : mcp.bytes)
  (r : result (gomap mcp.payload)) :
  mcp.handleToolCall (mcp.Server.mk (sqliteService cfg expr) sink) e db params
  = (db', r) ->
  (forall err,
      r = Err err ->
      db' = db \/ exists v, mcp.MarshalIndent v = Failed err)
  /\ (forall name arguments,
         mcp.Unmarshal_toolCall params = Done (name, arguments) ->
         name <> str "memory_write" -> name <> str "memory_promote" ->
         db' = db)
  /\ (forall err,
         mcp.Unmarshal_toolCall params = Failed err ->
         db' = db /\ r = Err (mcp.wrap (str "invalid tools/call params") err)).
Proof.
  unfold mcp.handleToolCall. cbn [mcp.Server.svc].
  destruct (mcp.Unmarshal_toolCall params) as [[name arguments]|perr].
  2:{ intros H. injection H as <- <-.
      split; [intros; left; reflexivity|].
      split; [discriminate|]. intros err H. injection H as <-. auto. }
  destruct (gostring_eqb name (str "memory_write")) eqn:Ew.
  { apply gostring_eqb_eq in Ew.
    destruct (mcp.Unmarshal_WriteInput arguments) as [in_|uerr].
    2:{ intros H. injection H as <- <-.
        split; [intros; left; reflexivity|].
        split; [|discriminate]. intros n a Hn. injection Hn as <- <-.
        congruence. }
    destruct (memory.Write _ db _ _ in_) as [db1 r1] eqn:Eo.
    intros H. injection H as <- <-.
    split; [|split; [|discriminate]].
    - intros err Herr. apply bind_toolSuccess_Err in Herr.
      destruct Herr as [->|Hm]; [left|right; exact Hm].
      exact (Write_failure_keeps _ _ _ _ _ _ _ _ Eo).
    - intros n a Hn. injection Hn as <- <-. congruence. }
  destruct (gostring_eqb name (str "memory_search")) eqn:Es.
  { destruct (mcp.Unmarshal_SearchInput arguments) as [in_|uerr].
    2:{ intros H. injection H as <- <-.
        split; [intros; left; reflexivity|].
        split; [reflexivity|discriminate]. }
    pose proof (Search_keeps_db cfg expr db (mcp.env.now e) in_) as Hk.
    destruct (memory.Search _ db _ in_) as [db1 r1]. cbn [fst] in Hk.
    intros H. injection H as <- <-.
    split; [intros; left; exact Hk|]. split; [intros; exact Hk|discriminate]. }
  destruct (gostring_eqb name (str "memory_get_context_pack")) eqn:Ec.
  { destruct (mcp.Unmarshal_ContextPackInput arguments) as [in_|uerr].
    2:{ intros H. injection H as <- <-.
        split; [intros; left; reflexivity|].
        split; [reflexivity|discriminate]. }
    pose proof (ContextPack_keeps_db cfg expr db (mcp.env.now e) in_) as Hk.
    destruct (memory.ContextPack _ db _ in_) as [db1 r1]. cbn [fst] in Hk.
    intros H. injection H as <- <-.
    split; [intros; left; exact Hk|]. split; [intros; exact Hk|discriminate]. }
  destruct (gostring_eqb name (str "memory_promote")) eqn:Ep.
  { apply gostring_eqb_eq in Ep.
    destruct (mcp.Unmarshal_PromoteInput arguments) as [in_|uerr].
    2:{ intros H. injection H as <- <-.
        split; [intros; left; reflexivity|].
        split; [reflexivity|discriminate]. }
    destruct (memory.Promote _ db _ in_) as [db1 r1] eqn:Eo.
    intros H. injection H as <- <-.
    split; [|split; [|discriminate]].
    - intros err Herr. apply bind_toolSuccess_Err in Herr.
      destruct Herr as [->|Hm]; [left|right; exact Hm].
      exact (Promote_failure_keeps _ _ _ _ _ _ _ Eo).
    - intros n a Hn. injection Hn as <- <-. congruence. }
  intros H. injection H as <- <-.
  split; [intros; left; reflexivity|]. split; [reflexivity|discriminate].
Qed.



End AtomicProperties.

(** Parameters that do not decode. *)
Lemma failed_tool_call_changes_nothing_witness :
  exists err,
    mcp.handleToolCall (J := fixture.json) (L := asciiLib) fixture.server
      (fixture.clock 0) fixture.twoSummaries (str "oops")
    = (fixture.twoSummaries, Err err)
    /\ (fixture.twoSummaries = fixture.twoSummaries
        \/ exists v, @mcp.MarshalIndent fixture.json v = Failed err).
Proof.
  pose (err := match snd (mcp.handleToolCall (J := fixture.json)
                            (L := asciiLib) fixture.server (fixture.clock 0)
                            fixture.twoSummaries (str "oops")) with
               | Err e => e
               | _ => EOF
               end).
  assert (E : mcp.handleToolCall (J := fixture.json) (L := asciiLib)
                fixture.server (fixture.clock 0) fixture.twoSummaries
                (str "oops")
              = (fixture.twoSummaries, Err err)) by (vm_compute; reflexivity).
  exists err. split; [exact E|].
  exact (proj1 (failed_tool_call_changes_nothing (J := fixture.json)
                  (L := asciiLib) (F := fixture.noFTS) config.Default
                  (fun _ => true)
                  (Some (store.SQLiteStore.InsertMCPRequestLog fixture.t0))
                  (fixture.clock 0) fixture.twoSummaries fixture.twoSummaries
                  (str "oops") (Err err) E) err eq_refl).
Defined.

(** ** The table under [Serve] *)

Section ServeInvariant.
Context {J : mcp.JSON} {L : GoLib} {F : store.FTS5}.
Import types.

Variable cfg : config.Config.
Variable expr : gostring -> bool.
Variable sink : option (store.DB.t -> store.MCPRequestLog.t
                        -> store.DB.t * option error).







End ServeInvariant.


(** ** What a context pack cites *)

Section PackProperties.
Context {L : GoLib} {F : store.FTS5}.
Import types.

Lemma select_In (A : Type) (flags : list bool) (l : list A) (x : A) :
  In x (select flags l) -> In x l.
Proof.
  revert l. induction flags as [|b flags IH]; intros [|y l]; cbn [select];
    try contradiction.
  - destruct b; intros [].
  - destruct b; [intros [->|H]; [left; reflexivity | right; apply IH, H]|].
    intros H. right. apply IH, H.
Qed.




End PackProperties.


(** ** The commands of the bootstrap *)

Section BootstrapProperties.

Lemma fieldsFrom_started (cur s : gostring) :
  cur <> [] -> fieldsFrom cur s <> [].
Proof.
  revert cur. induction s as [|c s IH]; intros cur Hcur; cbn [fieldsFrom].
  - destruct cur; [contradiction | discriminate].
  - destruct (IsSpace c).
    + destruct cur; [contradiction | discriminate].
    + apply IH. discriminate.
Qed.

Lemma Fields_nonempty (s : gostring) :
  TrimSpace s <> [] -> Fields s <> [].
Proof.
  intros Hs. unfold Fields. generalize (@nil rune).
  assert (Hex : exists c, In c s /\ IsSpace c = false).
  { destruct (dropWhile IsSpace s) as [|c t] eqn:E.
    - exfalso. apply Hs. unfold TrimSpace. rewrite E. reflexivity.
    - exists c. split.
      + apply (dropWhile_subset _ IsSpace). rewrite E. left. reflexivity.
      + apply (dropWhile_head _ _ _ _ _ E). }
  destruct Hex as (c & Hin & Hc). clear Hs.
  induction s as [|x s IH]; intros cur; [destruct Hin|].
  cbn [fieldsFrom]. destruct Hin as [->|Hin].
  - rewrite Hc. apply fieldsFrom_started. discriminate.
  - destruct (IsSpace x); [|apply IH, Hin].
    destruct cur; [apply IH, Hin | discriminate].
Qed.

(** The CLIs, in the order [BuildCommands] goes through them. *)
Definition clis : list gostring := [str "codex"; str "claude"; str "gemini"].

(** The options ask for the CLI. *)
Definition selected (opts : bootstrap.Options.t) (cli : gostring) : bool :=
  bootstrap.Options.All opts
  || (gostring_eqb cli (str "codex") && bootstrap.Options.Codex opts)
  || (gostring_eqb cli (str "claude") && bootstrap.Options.Claude opts)
  || (gostring_eqb cli (str "gemini") && bootstrap.Options.Gemini opts).

Lemma selected_clis (opts : bootstrap.Options.t) :
  selected opts (str "codex")
  = bootstrap.Options.All opts || bootstrap.Options.Codex opts
  /\ selected opts (str "claude")
     = bootstrap.Options.All opts || bootstrap.Options.Claude opts
  /\ selected opts (str "gemini")
     = bootstrap.Options.All opts || bootstrap.Options.Gemini opts.
Proof.
  unfold selected.
  destruct (bootstrap.Options.All opts), (bootstrap.Options.Codex opts),
    (bootstrap.Options.Claude opts), (bootstrap.Options.Gemini opts);
    repeat split; reflexivity.
Qed.

(** X22. [BuildCommands] fails exactly when the scope is neither
    user nor project or the config path is blank: the serve command
    is never found missing.  Otherwise the commands come in pairs,
    one pair for each CLI that is asked for and installed, in the
    order codex, claude, gemini: a removal of the server name, then
    an addition under that name that ends with the serve command,
    [--config] and the config path. *)
Theorem BuildCommands_pairs (commandExists : gostring -> bool)
  (opts : bootstrap.Options.t) :
  let serveCmd :=
    if isEmpty (TrimSpace (bootstrap.Options.ServeCmd opts))
    then str "memory-mcp serve" else bootstrap.Options.ServeCmd opts in
  let memoryCmd :=
    Fields serveCmd ++ [str "--config"; bootstrap.Options.ConfigPath opts] in
  ((exists e, bootstrap.BuildCommands commandExists opts = Failed e)
   <-> (bootstrap.Options.Scope opts <> str "user"
        /\ bootstrap.Options.Scope opts <> str "project")
       \/ TrimSpace (bootstrap.Options.ConfigPath opts) = [])
  /\ forall cmds,
       bootstrap.BuildCommands commandExists opts = Done cmds ->
       exists pairs,
         cmds = flat_map (fun p => [fst p; snd p]) pairs
         /\ map (fun p => bootstrap.Command.Name (fst p)) pairs
            = filter (fun cli => selected opts cli && commandExists cli) clis
         /\ Forall (fun p =>
                      bootstrap.Command.Name (snd p)
                      = bootstrap.Command.Name (fst p)
                      /\ (exists flags,
                             bootstrap.Command.Args (fst p)
                             = [str "mcp"; str "remove"] ++ flags
                                 ++ [bootstrap.Options.ServerName opts])
                      /\ (exists flags,
                             bootstrap.Command.Args (snd p)
                             = [str "mcp"; str "add"] ++ flags ++ memoryCmd
                             /\ In (bootstrap.Options.ServerName opts) flags))
              pairs.
Proof.
  intros serveCmd memoryCmd. unfold bootstrap.BuildCommands.
  fold serveCmd.
  destruct (negb (gostring_eqb (bootstrap.Options.Scope opts) (str "user"))
            && negb (gostring_eqb (bootstrap.Options.Scope opts)
                       (str "project"))) eqn:Escope.
  { split; [|discriminate]. split; [|intros _; eexists; reflexivity].
    intros _. left. apply andb_true_iff in Escope.
    rewrite !negb_true_iff, !gostring_eqb_neq in Escope. exact Escope. }
  assert (Hscope : ~ (bootstrap.Options.Scope opts <> str "user"
                      /\ bootstrap.Options.Scope opts <> str "project")).
  { intros [H1 H2]. apply gostring_eqb_neq in H1, H2.
    rewrite H1, H2 in Escope. discriminate. }
  destruct (isEmpty (TrimSpace (bootstrap.Options.ConfigPath opts))) eqn:Epath.
  { apply isEmpty_true in Epath.
    split; [|discriminate]. split; [|intros _; eexists; reflexivity].
    intros _. right. exact Epath. }
  apply isEmpty_false in Epath.
  assert (Hparts : Fields serveCmd <> []).
  { apply Fields_nonempty. subst serveCmd.
    destruct (isEmpty (TrimSpace (bootstrap.Options.ServeCmd opts))) eqn:E;
      [discriminate | apply isEmpty_false, E]. }
  destruct (Fields serveCmd) as [|part parts] eqn:Eparts; [contradiction|].
  cbn [isEmpty]. split.
  { split; [intros [e H]; discriminate | tauto]. }
  intros cmds H. injection H as <-.
  destruct (selected_clis opts) as (S1 & S2 & S3).
  unfold clis. cbn [filter]. rewrite S1, S2, S3.
  subst memoryCmd.
  set (name := bootstrap.Options.ServerName opts).
  set (scope := bootstrap.Options.Scope opts).
  set (memoryCmd := (part :: parts)
                      ++ [str "--config"; bootstrap.Options.ConfigPath opts]).
  set (good := fun p : bootstrap.Command.t * bootstrap.Command.t =>
                 bootstrap.Command.Name (snd p)
                 = bootstrap.Command.Name (fst p)
                 /\ (exists flags,
                        bootstrap.Command.Args (fst p)
                        = [str "mcp"; str "remove"] ++ flags ++ [name])
                 /\ (exists flags,
                        bootstrap.Command.Args (snd p)
                        = [str "mcp"; str "add"] ++ flags ++ memoryCmd
                        /\ In name flags)).
  pose (codex :=
          (bootstrap.Command.mk (str "codex") [str "mcp"; str "remove"; name],
           bootstrap.Command.mk (str "codex")
             ([str "mcp"; str "add"; name; str "--"] ++ memoryCmd))).
  pose (claude :=
          (bootstrap.Command.mk (str "claude")
             [str "mcp"; str "remove"; str "-s"; scope; name],
           bootstrap.Command.mk (str "claude")
             ([str "mcp"; str "add"; str "-s"; scope; name; str "--"]
                ++ memoryCmd))).
  pose (gemini :=
          (bootstrap.Command.mk (str "gemini")
             [str "mcp"; str "remove"; str "-s"; scope; name],
           bootstrap.Command.mk (str "gemini")
             ([str "mcp"; str "add"; str "-s"; scope; name] ++ memoryCmd))).
  assert (G1 : good codex).
  { split; [reflexivity|]. split.
    - exists []. reflexivity.
    - exists [name; str "--"]. split; [reflexivity | left; reflexivity]. }
  assert (G2 : good claude).
  { split; [reflexivity|]. split.
    - exists [str "-s"; scope]. reflexivity.
    - exists [str "-s"; scope; name; str "--"].
      split; [reflexivity | right; right; left; reflexivity]. }
  assert (G3 : good gemini).
  { split; [reflexivity|]. split.
    - exists [str "-s"; scope]. reflexivity.
    - exists [str "-s"; scope; name].
      split; [reflexivity | right; right; left; reflexivity]. }
  exists
    ((if (bootstrap.Options.All opts || bootstrap.Options.Codex opts)
         && commandExists (str "codex") then [codex] else [])
       ++ (if (bootstrap.Options.All opts || bootstrap.Options.Claude opts)
              && commandExists (str "claude") then [claude] else [])
       ++ (if (bootstrap.Options.All opts || bootstrap.Options.Gemini opts)
              && commandExists (str "gemini") then [gemini] else [])).
  destruct ((bootstrap.Options.All opts || bootstrap.Options.Codex opts)
            && commandExists (str "codex"));
    destruct ((bootstrap.Options.All opts || bootstrap.Options.Claude opts)
              && commandExists (str "claude"));
    destruct ((bootstrap.Options.All opts || bootstrap.Options.Gemini opts)
              && commandExists (str "gemini"));
    (split; [reflexivity|]); (split; [reflexivity|]);
    repeat (constructor; [assumption|]); constructor.
Qed.

End BootstrapProperties.

(** ** The text of the dashboard *)

Section AdminProperties.

(** A field of [strings.Fields]: not empty, without white space. *)
Definition word (f : gostring) : Prop :=
  f <> [] /\ Forall (fun c => IsSpace c = false) f.

Lemma fieldsFrom_words (s cur : gostring) :
  Forall (fun c => IsSpace c = false) cur ->
  Forall word (fieldsFrom cur s).
Proof.
  revert cur. induction s as [|c s IH]; intros cur Hcur; cbn [fieldsFrom].
  - destruct cur as [|x cur]; constructor; [|constructor].
    split; [intros H; apply (f_equal (@length rune)) in H;
            rewrite length_rev in H; discriminate|].
    apply Forall_rev. exact Hcur.
  - destruct (IsSpace c) eqn:Ec.
    + destruct cur as [|x cur]; [apply IH; constructor|].
      constructor; [|apply IH; constructor].
      split; [intros H; apply (f_equal (@length rune)) in H;
              rewrite length_rev in H; discriminate|].
      apply Forall_rev. exact Hcur.
    + apply IH. constructor; assumption.
Qed.

Lemma fieldsFrom_word (f rest cur : gostring) :
  Forall (fun c => IsSpace c = false) f ->
  fieldsFrom cur (f ++ rest) = fieldsFrom (rev f ++ cur) rest.
Proof.
  revert cur. induction f as [|c f IH]; intros cur Hf; [reflexivity|].
  inversion Hf as [|? ? Hc Hf']; subst.
  cbn [app fieldsFrom]. rewrite Hc, IH by exact Hf'.
  cbn [rev]. rewrite <- app_assoc. reflexivity.
Qed.

Lemma Fields_Join (fs : list gostring) :
  Forall word fs -> Fields (Join fs (str " ")) = fs.
Proof.
  unfold Fields. induction 1 as [|f fs [Hne Hf] Hfs IH]; [reflexivity|].
  assert (Hrev : rev f <> []).
  { intros H. apply Hne. apply (f_equal (@rev rune)) in H.
    rewrite rev_involutive in H. exact H. }
  destruct fs as [|g fs].
  - cbn [Join]. pose proof (fieldsFrom_word f [] [] Hf) as H0.
    rewrite !app_nil_r in H0. rewrite H0. cbn [fieldsFrom].
    destruct (rev f) eqn:E; [contradiction|].
    rewrite <- E, rev_involutive. reflexivity.
  - change (Join (f :: g :: fs) (str " "))
      with (f ++ str " " ++ Join (g :: fs) (str " ")).
    rewrite fieldsFrom_word by exact Hf. rewrite app_nil_r.
    change (str " " ++ Join (g :: fs) (str " "))
      with (32%N :: Join (g :: fs) (str " ")).
    cbn [fieldsFrom]. change (IsSpace 32%N) with true. cbv iota.
    destruct (rev f) eqn:E; [contradiction|].
    rewrite <- E, rev_involutive, IH. reflexivity.
Qed.

Lemma fieldsFrom_blank (s cur : gostring) :
  Forall (fun c => IsSpace c = true) s ->
  fieldsFrom cur s = fieldsFrom cur [].
Proof.
  intros Hs. revert cur.
  induction Hs as [|c s Hc _ IH]; intros cur; [reflexivity|].
  cbn [fieldsFrom]. rewrite Hc.
  destruct cur; rewrite IH; reflexivity.
Qed.

Lemma fieldsFrom_trailing (s blank cur : gostring) :
  Forall (fun c => IsSpace c = true) blank ->
  fieldsFrom cur (s ++ blank) = fieldsFrom cur s.
Proof.
  intros Hb. revert cur.
  induction s as [|c s IH]; intros cur; cbn [app].
  - apply fieldsFrom_blank. exact Hb.
  - cbn [fieldsFrom]. destruct (IsSpace c); [destruct cur|];
      rewrite ?IH; reflexivity.
Qed.

Lemma Fields_dropWhile (s : gostring) :
  Fields (dropWhile IsSpace s) = Fields s.
Proof.
  unfold Fields. induction s as [|c s IH]; [reflexivity|].
  cbn [dropWhile fieldsFrom]. destruct (IsSpace c) eqn:E; [exact IH|].
  cbn [fieldsFrom]. rewrite E. reflexivity.
Qed.

(** [strings.Fields] does not see the white space [strings.TrimSpace]
    removes. *)
Lemma Fields_TrimSpace (s : gostring) : Fields (TrimSpace s) = Fields s.
Proof.
  unfold TrimSpace.
  destruct (dropWhile_suffix _ IsSpace (rev (dropWhile IsSpace s)))
    as (pre & Hpre & Hall).
  apply (f_equal (@rev rune)) in Hpre.
  rewrite rev_involutive, rev_app_distr in Hpre.
  rewrite <- (Fields_dropWhile s). rewrite Hpre at 2.
  unfold Fields. rewrite fieldsFrom_trailing; [reflexivity|].
  apply Forall_rev. apply Forall_forall. intros c Hc.
  rewrite forallb_forall in Hall. apply Hall, Hc.
Qed.

Lemma Join_chars (fs : list gostring) (c : rune) :
  In c (Join fs (str " ")) -> c = 32%N \/ exists f, In f fs /\ In c f.
Proof.
  induction fs as [|f fs IH]; [intros []|].
  destruct fs as [|g fs].
  - cbn [Join]. intros H. right. exists f. split; [left; reflexivity|exact H].
  - change (Join (f :: g :: fs) (str " "))
      with (f ++ 32%N :: Join (g :: fs) (str " ")).
    intros H. apply in_app_or in H. destruct H as [H|[H|H]].
    + right. exists f. split; [left; reflexivity | exact H].
    + left. symmetry. exact H.
    + destruct (IH H) as [E|(f' & Hf' & Hc)]; [left; exact E|].
      right. exists f'. split; [right; exact Hf' | exact Hc].
Qed.

Lemma Join_nil (fs : list gostring) :
  Forall word fs -> Join fs (str " ") = [] -> fs = [].
Proof.
  intros Hw H. destruct fs as [|f fs]; [reflexivity|].
  inversion Hw as [|? ? [Hne _] _]; subst.
  destruct fs; cbn [Join] in H; [contradiction|].
  apply app_eq_nil in H. destruct H. contradiction.
Qed.

(** X23. [compactWhitespace] is idempotent, leaves no white space
    but single spaces, hence no line break, and gives the empty text
    exactly for a blank one.  [truncateText] panics on a negative
    limit; otherwise it returns at most [limit] characters, the
    trimmed text itself when that fits, and nothing but characters of
    the text and the dots of the ellipsis. *)
Theorem dashboard_text_fits (s : gostring) (limit : Z) :
  admin.compactWhitespace (admin.compactWhitespace s)
  = admin.compactWhitespace s
  /\ Forall (fun c => IsSpace c = true -> c = 32%N) (admin.compactWhitespace s)
  /\ (admin.compactWhitespace s = [] <-> TrimSpace s = [])
  /\ (limit < 0 -> admin.truncateText s limit = Panic)
  /\ (0 <= limit ->
      exists t,
        admin.truncateText s limit = Ok t
        /\ len t <= limit
        /\ (len (TrimSpace s) <= limit -> t = TrimSpace s)
        /\ Forall (fun c => In c s \/ c = 46%N) t).
Proof.
  assert (Hwords : Forall word (Fields (TrimSpace s))).
  { apply fieldsFrom_words. constructor. }
  split; [|split; [|split; [|split]]].
  - unfold admin.compactWhitespace.
    rewrite Fields_TrimSpace, (Fields_Join _ Hwords). reflexivity.
  - unfold admin.compactWhitespace. apply Forall_forall. intros c Hin Hc.
    destruct (Join_chars _ _ Hin) as [E|(f & Hf & Hcf)]; [exact E|].
    rewrite Forall_forall in Hwords. destruct (Hwords f Hf) as [_ Hns].
    rewrite Forall_forall in Hns. rewrite (Hns c Hcf) in Hc. discriminate.
  - unfold admin.compactWhitespace. split.
    + intros H. apply (Join_nil _ Hwords) in H.
      rewrite Fields_TrimSpace in H.
      destruct (isEmpty (TrimSpace s)) eqn:E; [apply isEmpty_true, E|].
      apply isEmpty_false in E. exfalso. exact (Fields_nonempty s E H).
    + intros ->. reflexivity.
  - intros Hneg. unfold admin.truncateText. cbv zeta.
    pose proof (len_nonneg _ (TrimSpace s)).
    destruct (Z.leb_spec (len (TrimSpace s)) limit); [lia|].
    destruct (Z.leb_spec limit 3); [|lia].
    destruct (Z.ltb_spec limit 0); [reflexivity|lia].
  - intros Hpos. unfold admin.truncateText. cbv zeta.
    assert (Hsub : forall c, In c (TrimSpace s) -> In c s)
      by (intros c; apply TrimSpace_In).
    destruct (Z.leb_spec (len (TrimSpace s)) limit) as [Hle|Hgt].
    { exists (TrimSpace s). split; [reflexivity|]. split; [exact Hle|].
      split; [reflexivity|]. apply Forall_forall. auto. }
    destruct (Z.leb_spec limit 3) as [H3|H3].
    + destruct (Z.ltb_spec limit 0); [lia|].
      eexists. split; [reflexivity|]. split; [|split; [lia|]].
      * unfold len in *. rewrite length_firstn. lia.
      * apply Forall_forall. intros c Hc. left.
        apply Hsub. eapply In_firstn. exact Hc.
    + eexists. split; [reflexivity|]. split; [|split; [lia|]].
      * unfold len in *. rewrite length_app, length_firstn. cbn [length str].
        cbn. lia.
      * apply Forall_app. split.
        -- apply Forall_forall. intros c Hc. left.
           apply Hsub. eapply In_firstn. exact Hc.
        -- repeat constructor; right; reflexivity.
Qed.

End AdminProperties.

(** ** The log of the dashboard *)

Section LogProperties.

(** X24. [appendLog] ignores a blank line.  Otherwise it sets the
    bound to 10 when it is not positive, appends the line behind its
    clock stamp and keeps the newest lines up to the bound: the new
    entry is the last line, and the lines kept are the tail of the
    old lines followed by it. *)
Theorem appendLog_keeps_newest (now : Time) (m : admin.model.t)
  (line : gostring) :
  let m' := admin.appendLog now m line in
  let limit :=
    if admin.model.maxLogs m <=? 0 then 10 else admin.model.maxLogs m in
  let entry := str "[" ++ admin.Format_Clock now ++ str "] " ++ line in
  (TrimSpace line = [] -> m' = m)
  /\ (TrimSpace line <> [] ->
      admin.model.maxLogs m' = limit
      /\ len (admin.model.logLines m')
         = Z.min limit (len (admin.model.logLines m) + 1)
      /\ (exists dropped,
             admin.model.logLines m ++ [entry]
             = dropped ++ admin.model.logLines m')
      /\ exists older, admin.model.logLines m' = older ++ [entry]).
Proof.
  cbv zeta. unfold admin.appendLog. split.
  - intros ->. reflexivity.
  - intros Hline. apply isEmpty_false in Hline. rewrite Hline. cbv zeta.
    set (limit := if admin.model.maxLogs m <=? 0 then 10
                  else admin.model.maxLogs m).
    set (entry := str "[" ++ admin.Format_Clock now ++ str "] " ++ line).
    set (lines := admin.model.logLines m).
    assert (Hlimit : 0 < limit).
    { subst limit. destruct (Z.leb_spec (admin.model.maxLogs m) 0); lia. }
    cbn [admin.model.maxLogs admin.model.logLines].
    split; [reflexivity|].
    rewrite len_app. change (len [entry]) with 1.
    destruct (Z.gtb_spec (len lines + 1) limit) as [Hgt|Hle].
    + set (n := Z.to_nat (len lines + 1 - limit)).
      assert (Hn : (n <= length lines)%nat) by (unfold len in *; lia).
      rewrite skipn_app.
      replace (n - length lines)%nat with 0%nat by lia. cbn [skipn].
      split; [|split].
      * rewrite len_app. change (len [entry]) with 1. unfold len.
        rewrite length_skipn. unfold len in *. lia.
      * exists (firstn n lines). rewrite app_assoc, firstn_skipn.
        reflexivity.
      * exists (skipn n lines). reflexivity.
    + split; [|split].
      * rewrite len_app. change (len [entry]) with 1. lia.
      * exists []. reflexivity.
      * exists lines. reflexivity.
Qed.

End LogProperties.
